(** * liloapp: the booking detail page

    A shallow embedding of the availability and selection logic of the booking
    detail page ([BookingDetailPage]): [isSlotAvailable],
    [generateTimeOptions], [handleHourSelection], the initial selection taken
    from the URL, the price breakdown and [handlePaymentSuccess]; then of the
    rest of that page ([handleConfirmBooking], the callbacks of the payment
    modal, [getStatusInfo]) and of the handlers of the settings page
    ([SettingsPage]).

    Conventions.
    - Strings are sequences of 8-bit code units; [String.leb] compares them
      code unit by code unit, as the default comparison of [Array.prototype.sort].
    - Hours are JS Numbers that hold integers or NaN: they are modelled by
      [num] ([NaN] or an exact integer).  The model is that of JavaScript on
      the safe integers ([safeInteger], up to 2^53 - 1 in magnitude); beyond
      them a double rounds what [parseInt] reads and, from 10^21 on, prints
      with an exponent, so the statements that read or print a number bound
      it.
    - The weekly schedule is what [JSON.parse] returns.  [Raw] keeps it as a
      JSON value, with the exceptions that reading it can throw;
      [PageState] keeps a schedule of the declared types, on which the two
      resolvers agree.
    - Prices are JS Numbers in earnest: they are binary64 floats ([float]),
      evaluated by the kernel's IEEE 754 arithmetic.
    - A [Date] is kept as the local calendar day and the local hour it denotes;
      the parsing of date strings by [new Date] is not modelled. *)

From Stdlib Require Import ZArith String Ascii List Bool Lia Sorted.
From Stdlib Require Import Floats Uint63.
From stdpp Require Import base option list gmap.
Import ListNotations.

Set Warnings "-inexact-float".
Local Open Scope string_scope.
Local Open Scope Z_scope.

(** ** JavaScript primitives used by the page *)

Module JS.

(** A Number that is an integer or NaN. *)
Inductive num : Set :=
| NaN
| Int (z : Z).

Definition add (a b : num) : num :=
  match a, b with
  | Int x, Int y => Int (x + y)
  | _, _ => NaN
  end.

Definition sub (a b : num) : num :=
  match a, b with
  | Int x, Int y => Int (x - y)
  | _, _ => NaN
  end.

(** Comparisons: every comparison with NaN is false. *)
Definition ltb (a b : num) : bool :=
  match a, b with
  | Int x, Int y => x <? y
  | _, _ => false
  end.

Definition geb (a b : num) : bool :=
  match a, b with
  | Int x, Int y => y <=? x
  | _, _ => false
  end.

Definition gtb (a b : num) : bool :=
  match a, b with
  | Int x, Int y => y <? x
  | _, _ => false
  end.

(** Strict equality [===] on Numbers. *)
Definition eqb (a b : num) : bool :=
  match a, b with
  | Int x, Int y => x =? y
  | _, _ => false
  end.

Definition isNaN (a : num) : bool :=
  match a with
  | NaN => true
  | Int _ => false
  end.

(** *** Strings *)

(** White space skipped by [parseInt]: TAB, LF, VT, FF, CR, SP, NBSP. *)
Definition is_white_space (c : ascii) : bool :=
  let n := N_of_ascii c in
  ((9 <=? n) && (n <=? 13) || (n =? 32) || (n =? 160))%N.

Fixpoint trimStart (s : string) : string :=
  match s with
  | String c s' => if is_white_space c then trimStart s' else s
  | EmptyString => s
  end.

(** The value of [c] as a digit of the given radix, if it is one. *)
Definition digit_value (radix : Z) (c : ascii) : option Z :=
  let n := Z.of_N (N_of_ascii c) in
  let v :=
    if (48 <=? n) && (n <=? 57) then Some (n - 48)
    else if (97 <=? n) && (n <=? 122) then Some (n - 87)
    else if (65 <=? n) && (n <=? 90) then Some (n - 55)
    else None in
  match v with
  | Some d => if d <? radix then Some d else None
  | None => None
  end.

(** The longest prefix of digits, read as a number; [acc] is what has been
    read so far ([None]: no digit yet). *)
Fixpoint parse_digits (radix : Z) (acc : option Z) (s : string) : option Z :=
  match s with
  | String c s' =>
      match digit_value radix c with
      | Some d => parse_digits radix (Some (radix * default 0 acc + d)) s'
      | None => acc
      end
  | EmptyString => acc
  end.

(** [parseInt(s)] when [strip_prefix], [parseInt(s, 10)] otherwise: an
    explicit radix of 10 turns the recognition of [0x] off.  The result is
    the integer that the digits denote, which is what JavaScript returns as
    long as that integer is a safe one. *)
Definition parseInt_with (strip_prefix : bool) (s : string) : num :=
  let s1 := trimStart s in
  let '(negative, s2) :=
    match s1 with
    | String "-" r => (true, r)
    | String "+" r => (false, r)
    | _ => (false, s1)
    end in
  let '(radix, s3) :=
    match strip_prefix, s2 with
    | true, String "0" (String "x" r) => (16, r)
    | true, String "0" (String "X" r) => (16, r)
    | _, _ => (10, s2)
    end in
  match parse_digits radix None s3 with
  | Some v => Int (if negative then - v else v)
  | None => NaN
  end.

Definition parseInt (s : string) : num := parseInt_with true s.
Definition parseInt10 (s : string) : num := parseInt_with false s.

(** [s.split(sep)] for a separator of one code unit. *)
Fixpoint split (sep : ascii) (s : string) : list string :=
  match s with
  | EmptyString => [EmptyString]
  | String c s' =>
      if Ascii.eqb c sep then EmptyString :: split sep s'
      else
        match split sep s' with
        | x :: xs => String c x :: xs
        | [] => [String c EmptyString]
        end
  end.

(** [a[i]] where the element is then used as a string: a missing element is
    [undefined], which [parseInt] reads through [ToString]. *)
Definition at_ (a : list string) (i : nat) : string :=
  nth i a "undefined".

Definition digit_char (d : Z) : ascii :=
  ascii_of_N (Z.to_N (48 + d)).

(** The decimal digits of [n >= 0] in front of [acc]. *)
Fixpoint digits_of (fuel : nat) (n : Z) (acc : string) : string :=
  match fuel with
  | O => acc
  | S fuel' =>
      let acc' := String (digit_char (n mod 10)) acc in
      if n <? 10 then acc' else digits_of fuel' (n / 10) acc'
  end.

(** [Number.prototype.toString] on the Numbers of [num]: the decimal digits,
    which is what JavaScript prints below 10^21. *)
Definition toString (a : num) : string :=
  match a with
  | NaN => "NaN"
  | Int z =>
      if z <? 0 then String "-" (digits_of (Z.to_nat (- z)) (- z) "")
      else digits_of (S (Z.to_nat z)) z ""
  end.

Fixpoint repeat_char (n : nat) (c : ascii) : string :=
  match n with
  | O => EmptyString
  | S n' => String c (repeat_char n' c)
  end.

(** [s.padStart(n, c)] for a filler of one code unit. *)
Definition padStart (n : nat) (c : ascii) (s : string) : string :=
  String.append (repeat_char (n - String.length s) c) s.

(** *** Exceptions *)

Inductive error : Set :=
| TypeError
| RangeError
| Error (message : string).

Inductive completion (A : Type) : Type :=
| Return (a : A)
| Throw (e : error).
Arguments Return {A} a.
Arguments Throw {A} e.

Definition bind {A B : Type} (c : completion A) (k : A -> completion B) :
  completion B :=
  match c with
  | Return a => k a
  | Throw e => Throw e
  end.

(** *** Arrays *)

(** The greatest length of an array-like, 2^32 - 1, is the last one that
    [Array.from] accepts. *)
Definition maxArrayLength : Z := 2 ^ 32 - 1.

(** [Array.from({ length }, (_, i) => f i)]: a length that is NaN or negative
    counts as 0; a length above [maxArrayLength] is refused with a RangeError
    before [f] is called. *)
Definition Array_from {A : Type} (len : num) (f : Z -> A) : completion (list A) :=
  match len with
  | NaN => Return []
  | Int n =>
      if maxArrayLength <? n then Throw RangeError
      else Return (List.map f (seqZ 0 n))
  end.

Definition includes (a : list string) (x : string) : bool :=
  existsb (String.eqb x) a.

(** [a.sort()] with the default comparison, on an array of strings. *)
Fixpoint sort_insert (x : string) (a : list string) : list string :=
  match a with
  | [] => [x]
  | y :: a' => if String.leb x y then x :: a else y :: sort_insert x a'
  end.

Fixpoint sort (a : list string) : list string :=
  match a with
  | [] => []
  | x :: a' => sort_insert x (sort a')
  end.

(** *** Dates *)

(** A [Date] seen through the local-time getters the page uses: the local
    calendar day (counted from 1 January 1970, a Thursday) and the local hour. *)
Inductive Date : Set :=
| InvalidDate
| LocalTime (day : Z) (hours : Z).

Definition getDay (d : Date) : num :=
  match d with
  | InvalidDate => NaN
  | LocalTime day _ => Int ((day + 4) mod 7)
  end.

Definition getHours (d : Date) : num :=
  match d with
  | InvalidDate => NaN
  | LocalTime _ h => Int h
  end.

(** date-fns [isSameDay]: the two start-of-day instants are equal. *)
Definition isSameDay (a b : Date) : bool :=
  match a, b with
  | LocalTime da _, LocalTime db _ => da =? db
  | _, _ => false
  end.

(** *** Arrays with callbacks that throw *)

(** [a.filter(p)] for a callback that may throw. *)
Fixpoint filter {A : Type} (p : A -> completion bool) (a : list A) :
  completion (list A) :=
  match a with
  | [] => Return []
  | x :: a' =>
      bind (p x) (fun keep =>
      bind (filter p a') (fun r =>
      Return (if keep then x :: r else r)))
  end.

End JS.

#[global] Instance completion_ret : MRet JS.completion := @JS.Return.
#[global] Instance completion_bind : MBind JS.completion :=
  fun A B k c => JS.bind c k.

(** ** The page's data *)

Record BookingDetails : Set := {
  streamerId : string;
  streamerName : string;
  (** the Date that [new Date(details.date)] builds *)
  date : JS.Date;
  startTime : string;
  endTime : string;
  platform : string;
  price : float;
}.

Record TimeSlot : Set := {
  start : string;
  end_ : string;
}.

Record DaySchedule : Set := {
  (** [None]: the day has no [slots] property *)
  slots : option (list TimeSlot);
}.

(** A row of [bookings] as the page reads it; [start_time] and [end_time] are
    the Dates that [new Date(booking.start_time)] and
    [new Date(booking.end_time)] build. *)
Record Booking : Set := {
  start_time : JS.Date;
  end_time : JS.Date;
  status : string;
}.

(** The component's state that the availability functions read. *)
Record PageState : Type := {
  bookingDetails : option BookingDetails;
  activeSchedule : option (gmap Z DaySchedule);
  bookings : list Booking;
}.

(** [activeSchedule[date.getDay()]] *)
Definition scheduleOfDay (schedule : gmap Z DaySchedule) (day : JS.num) :
  option DaySchedule :=
  match day with
  | JS.NaN => None
  | JS.Int d => schedule !! d
  end.

(** [parseInt(t.split(':')[0])] *)
Definition hourOf (t : string) : JS.num :=
  JS.parseInt (JS.at_ (JS.split ":" t) 0).

(** [`${n.toString().padStart(2, '0')}:00`] *)
Definition hourLabel (n : JS.num) : string :=
  String.append (JS.padStart 2 "0" (JS.toString n)) ":00".

Definition slotCovers (hour : JS.num) (slot : TimeSlot) : bool :=
  let start := hourOf (start slot) in
  let end_ := hourOf (end_ slot) in
  JS.geb hour start && JS.ltb hour end_.

Definition bookingBlocks (date : JS.Date) (hour : JS.num) (booking : Booking) :
  bool :=
  let bookingStart := start_time booking in
  let bookingEnd := end_time booking in
  JS.isSameDay date bookingStart &&
  ((JS.geb hour (JS.getHours bookingStart) &&
    JS.ltb hour (JS.getHours bookingEnd)) ||
   (JS.eqb hour (JS.getHours bookingEnd) &&
    JS.gtb (JS.getHours bookingEnd) (JS.getHours bookingStart))).

Definition isSlotAvailable (st : PageState) (date : JS.Date) (hour : JS.num) :
  bool :=
  match bookingDetails st, activeSchedule st with
  | Some _, Some schedule =>
      match scheduleOfDay schedule (JS.getDay date) with
      | Some daySchedule =>
          match slots daySchedule with
          | Some daySlots =>
              let isInSchedule := existsb (slotCovers hour) daySlots in
              let bookingExists :=
                existsb (bookingBlocks date hour) (bookings st) in
              isInSchedule && negb bookingExists
          | None => false
          end
      | None => false
      end
  | _, _ => false
  end.

Definition generateTimeOptions (st : PageState) :
  JS.completion (list string) :=
  match bookingDetails st with
  | None => mret []
  | Some details =>
      let start := hourOf (startTime details) in
      let end_ := hourOf (endTime details) in
      options ← JS.Array_from (JS.sub end_ start)
                  (fun i => hourLabel (JS.add start (JS.Int i)));
      mret (List.filter
              (fun hour => isSlotAvailable st (date details) (JS.parseInt hour))
              options)
  end.

(** ** The selection *)

(** Truthiness of a string: every string but the empty one. *)
Definition truthy (s : string) : bool :=
  negb (String.eqb s "").

(** The [useEffect] on [searchParams], as far as [selectedHours] goes.  The
    two parameters are what [searchParams.get('startTime')] and
    [searchParams.get('endTime')] return ([None]: null), [selectedHours] is the
    state before the effect.  When [Array.from] throws, the effect throws
    before [setSelectedHours] is called. *)
Definition selectedHoursOnLoad (startTimeParam endTimeParam : option string)
  (selectedHours : list string) : JS.completion (list string) :=
  let startTime := default "" startTimeParam in
  let endTime := default "" endTimeParam in
  if truthy startTime && truthy endTime then
    let start := hourOf startTime in
    let end_ := hourOf endTime in
    JS.Array_from (JS.sub end_ start)
      (fun i => hourLabel (JS.add start (JS.Int i)))
  else mret selectedHours.

(** [bookingDetails!]: the assertion erases to nothing, so reading a property
    of null throws. *)
Definition nonNull {A : Type} (x : option A) : JS.completion A :=
  match x with
  | Some a => JS.Return a
  | None => JS.Throw JS.TypeError
  end.

(** The updater that [handleHourSelection] hands to [setSelectedHours]. *)
Definition handleHourSelection (st : PageState) (hour : string)
  (prevSelected : list string) : JS.completion (list string) :=
  if JS.includes prevSelected hour then
    mret (List.filter (fun h => negb (String.eqb h hour)) prevSelected)
  else
    let newSelected := JS.sort (prevSelected ++ [hour]) in
    if 1 <? Z.of_nat (length newSelected) then
      let start := JS.at_ newSelected 0 in
      let end_ := JS.at_ newSelected (length newSelected - 1) in
      span ← JS.Array_from
                (JS.add (JS.sub (JS.parseInt end_) (JS.parseInt start)) (JS.Int 1))
                (fun i => hourLabel (JS.add (JS.parseInt start) (JS.Int i)));
      JS.filter
        (fun h =>
           details ← nonNull (bookingDetails st);
           mret (isSlotAvailable st (date details) (JS.parseInt h)))
        span
    else mret newSelected.


(** *** The selection as the specification describes it *)

(** The least and the greatest of [x :: l]. *)
Fixpoint minimum (x : Z) (l : list Z) : Z :=
  match l with
  | [] => x
  | y :: l' => Z.min x (minimum y l')
  end.

Fixpoint maximum (x : Z) (l : list Z) : Z :=
  match l with
  | [] => x
  | y :: l' => Z.max x (maximum y l')
  end.

(** Adding hour [h] to the hours [hs]: the inclusive span from the least to
    the greatest of them, in ascending order, restricted to the hours that
    [available] accepts. *)
Definition spanSelection (available : Z -> bool) (h : Z) (hs : list Z) :
  list Z :=
  let lo := minimum h hs in
  let hi := maximum h hs in
  List.filter available (seqZ lo (hi - lo + 1)).



(** ** Loading the bookings *)

(** What a query resolves to: [{ data, error }]. *)
Record Response (A : Type) : Type := {
  data : option A;
  error : option string;
}.
Arguments data {A} r.
Arguments error {A} r.

(** The state update of [fetchBookings]: on an error the state is left as it
    is, otherwise it becomes [data || []]. *)
Definition fetchBookings (response : Response (list Booking))
  (st : PageState) : PageState :=
  match error response with
  | Some _ => st
  | None =>
      {| bookingDetails := bookingDetails st;
         activeSchedule := activeSchedule st;
         bookings := default [] (data response) |}
  end.

(** What [JSON.parse(data.schedule)] makes of a row of
    [streamer_active_schedules]: it throws on a text that is not JSON, and it
    gives null on the text [null] and on a column that is null. *)
Inductive ScheduleRow : Type :=
| Unparsable
| Parsed (schedule : option (gmap Z DaySchedule)).

(** The state update of [fetchActiveSchedule]: an error and a missing row
    leave the state as it is, and so does a schedule that does not parse (the
    exception leaves the function before [setActiveSchedule]); a row that
    parses replaces the schedule, by null when it parses to null. *)
Definition fetchActiveSchedule (response : Response ScheduleRow)
  (st : PageState) : PageState :=
  match error response, data response with
  | None, Some (Parsed schedule) =>
      {| bookingDetails := bookingDetails st;
         activeSchedule := schedule;
         bookings := bookings st |}
  | _, _ => st
  end.

(** [setBookingDetails(details)] *)
Definition setBookingDetails (details : BookingDetails) (st : PageState) :
  PageState :=
  {| bookingDetails := Some details;
     activeSchedule := activeSchedule st;
     bookings := bookings st |}.

(** The [useState] initial values. *)
Definition initialState : PageState :=
  {| bookingDetails := None; activeSchedule := None; bookings := [] |}.

(** ** The price breakdown *)

(** [a.length] as a Number; an array holds fewer than 2^32 elements. *)
Definition Number_of_length (n : nat) : float :=
  PrimFloat.of_uint63 (Uint63.of_Z (Z.of_nat n)).

(** An integer of magnitude at most 2^53 as a Number. *)
Definition Number_of_Z (q : Z) : float :=
  if q <? 0 then (- PrimFloat.of_uint63 (Uint63.of_Z (- q)))%float
  else PrimFloat.of_uint63 (Uint63.of_Z q).

(** [Math.round]: the integer closest to [x], ties towards +infinity; the sum
    [x + 1/2] is formed exactly.  NaN, the infinities, the zeros and the
    integers are returned as they are. *)
Definition Math_round (x : float) : float :=
  match Prim2SF x with
  | S754_finite s m e =>
      if 0 <=? e then x
      else
        let q := (2 * cond_Zopp s (Z.pos m) + 2 ^ (- e)) / 2 ^ (1 - e) in
        if q =? 0 then (if s then (-0)%float else 0%float)
        else Number_of_Z q
  | _ => x
  end.

Section Price.

(** [bookingDetails.price] and [selectedHours.length] *)
Variable price : float.
Variable hourCount : nat.

Definition subtotal : float := (price * Number_of_length hourCount)%float.
Definition platformFee : float := (subtotal * 0.30)%float.
Definition subtotalWithPlatformFee : float := (subtotal + platformFee)%float.
Definition tax : float := (subtotalWithPlatformFee * 0.11)%float.
Definition total : float := Math_round (subtotalWithPlatformFee + tax)%float.

End Price.

(** ** The payment-success handler *)

Module Payment.

(** The joined [streamer:streamers (...)] of a booking. *)
Record Streamer : Set := {
  id : Z;
  first_name : string;
  last_name : string;
  user_id : string;
}.

Record BookingRow : Set := {
  streamer_id : Z;
  client_id : string;
  client_first_name : string;
  client_last_name : string;
  status : string;
  streamer : option Streamer;
}.

Record Notification : Set := {
  n_user_id : string;
  n_streamer_id : option Z;
  message : string;
  type : string;
  booking_id : JS.num;
  created_at : string;
  is_read : bool;
}.

Inductive Toast : Set :=
| toast_success (text : string)
| toast_error (text : string).

(** Everything the handler can change: the two tables, the toasts shown, the
    routes pushed and the console. *)
Record World : Type := {
  bookings : gmap Z BookingRow;
  notifications : list Notification;
  toasts : list Toast;
  routes : list string;
  console : list string;
}.

(** What the handler does not decide: whether the query for the booking
    fails (its [data] is then null although the row is there), whether the
    insert of the notifications and the update of the status are refused, and
    the two readings of the clock. *)
Record Backend : Set := {
  select_fails : bool;
  insert_refused : bool;
  update_refused : bool;
  now1 : string;
  now2 : string;
}.

(** Computations that change the world and may throw. *)
Definition handler (A : Type) : Type := World -> JS.completion A * World.

Definition ret {A : Type} (a : A) : handler A := fun w => (JS.Return a, w).

Definition bind {A B : Type} (c : handler A) (k : A -> handler B) :
  handler B :=
  fun w =>
    match c w with
    | (JS.Return a, w') => k a w'
    | (JS.Throw e, w') => (JS.Throw e, w')
    end.

Definition throw {A : Type} (e : JS.error) : handler A :=
  fun w => (JS.Throw e, w).

Definition lift {A : Type} (c : JS.completion A) : handler A :=
  fun w => (c, w).

(** [try { body } catch (error) { recover }] *)
Definition try_catch (body : handler unit) (recover : JS.error -> handler unit) :
  handler unit :=
  fun w =>
    match body w with
    | (JS.Return tt, w') => (JS.Return tt, w')
    | (JS.Throw e, w') => recover e w'
    end.

(** The row of the table whose id is [bookingId]; no id equals NaN. *)
Definition row_of (bookingId : JS.num) (table : gmap Z BookingRow) :
  option BookingRow :=
  match bookingId with
  | JS.Int i => table !! i
  | JS.NaN => None
  end.

(** The [data] of [.from('bookings').select(...).eq('id', bookingId).single()];
    the handler reads nothing else of the answer. *)
Definition select_booking (be : Backend) (bookingId : JS.num) :
  handler (option BookingRow) :=
  fun w =>
    if select_fails be then (JS.Return None, w)
    else (JS.Return (row_of bookingId (bookings w)), w).

(** [.from('notifications').insert(rows)]; returns whether there is an error. *)
Definition insert_notifications (be : Backend) (rows : list Notification) :
  handler bool :=
  fun w =>
    if insert_refused be then (JS.Return true, w)
    else
      (JS.Return false,
       {| bookings := bookings w;
          notifications := notifications w ++ rows;
          toasts := toasts w;
          routes := routes w;
          console := console w |}).

Definition set_status (new_status : string) (row : BookingRow) : BookingRow :=
  {| streamer_id := streamer_id row;
     client_id := client_id row;
     client_first_name := client_first_name row;
     client_last_name := client_last_name row;
     status := new_status;
     streamer := streamer row |}.

Definition update_row (bookingId : JS.num) (f : BookingRow -> BookingRow)
  (table : gmap Z BookingRow) : gmap Z BookingRow :=
  match bookingId with
  | JS.Int i => alter f i table
  | JS.NaN => table
  end.

(** [.from('bookings').update({ status }).eq('id', bookingId)]; the answer is
    dropped, so a refused update goes unnoticed. *)
Definition update_status (be : Backend) (bookingId : JS.num)
  (new_status : string) : handler unit :=
  fun w =>
    if update_refused be then (JS.Return tt, w)
    else
      (JS.Return tt,
       {| bookings := update_row bookingId (set_status new_status) (bookings w);
          notifications := notifications w;
          toasts := toasts w;
          routes := routes w;
          console := console w |}).

Definition toast (t : Toast) : handler unit :=
  fun w =>
    (JS.Return tt,
     {| bookings := bookings w;
        notifications := notifications w;
        toasts := toasts w ++ [t];
        routes := routes w;
        console := console w |}).

Definition router_push (path : string) : handler unit :=
  fun w =>
    (JS.Return tt,
     {| bookings := bookings w;
        notifications := notifications w;
        toasts := toasts w;
        routes := routes w ++ [path];
        console := console w |}).

Definition console_error (line : string) : handler unit :=
  fun w =>
    (JS.Return tt,
     {| bookings := bookings w;
        notifications := notifications w;
        toasts := toasts w;
        routes := routes w;
        console := console w ++ [line] |}).

End Payment.

#[global] Instance handler_ret : MRet Payment.handler := @Payment.ret.
#[global] Instance handler_bind : MBind Payment.handler :=
  fun A B k c => Payment.bind c k.

Definition invalidBookingId : JS.error := JS.Error "Invalid booking ID format".
Definition bookingNotFound : JS.error := JS.Error "Booking not found".
Definition contactSupport : Payment.Toast :=
  Payment.toast_error
    "Payment successful but encountered an error. Please contact support.".
Definition paymentSuccessful : Payment.Toast :=
  Payment.toast_success "Payment successful! Booking request has been sent.".

(** The two notification rows built for a booking. *)
Definition notificationsFor (be : Payment.Backend) (bookingId : JS.num)
  (booking : Payment.BookingRow) (streamer : Payment.Streamer) :
  list Payment.Notification :=
  [ {| Payment.n_user_id := Payment.user_id streamer;
       Payment.n_streamer_id := Some (Payment.streamer_id booking);
       Payment.message :=
         String.concat ""
           [ "New booking request from "; Payment.client_first_name booking;
             " "; Payment.client_last_name booking; ". Payment confirmed." ];
       Payment.type := "confirmation";
       Payment.booking_id := bookingId;
       Payment.created_at := Payment.now1 be;
       Payment.is_read := false |};
    {| Payment.n_user_id := Payment.client_id booking;
       Payment.n_streamer_id := None;
       Payment.message :=
         String.concat ""
           [ "Payment confirmed for booking with "; Payment.first_name streamer;
             " "; Payment.last_name streamer; ". Waiting for acceptance." ];
       Payment.type := "confirmation";
       Payment.booking_id := bookingId;
       Payment.created_at := Payment.now2 be;
       Payment.is_read := false |} ].

(** The body of the [try] block of [handlePaymentSuccess]. *)
Definition handlePaymentSuccess_try (be : Payment.Backend) (order_id : string) :
  Payment.handler unit :=
  let orderIdParts := JS.split "-" order_id in
  let bookingId := JS.parseInt10 (JS.at_ orderIdParts 1) in
  if JS.isNaN bookingId then Payment.throw invalidBookingId
  else
    data ← Payment.select_booking be bookingId;
    match data with
    | None => Payment.throw bookingNotFound
    | Some booking =>
        streamer ← Payment.lift (nonNull (Payment.streamer booking));
        let notifications := notificationsFor be bookingId booking streamer in
        notificationError ← Payment.insert_notifications be notifications;
        (if notificationError : bool
         then Payment.console_error "Error creating notifications:"
         else mret tt);;
        Payment.update_status be bookingId "pending";;
        Payment.toast paymentSuccessful;;
        Payment.router_push "/client-bookings"
    end.

Definition handlePaymentSuccess (be : Payment.Backend) (order_id : string) :
  Payment.handler unit :=
  Payment.try_catch (handlePaymentSuccess_try be order_id)
    (fun _ =>
       Payment.console_error "Error handling payment success:";;
       Payment.toast contactSupport).

(** The slot list the resolver ends up with for a date, when the booking
    details, the weekly schedule, the weekday's schedule and its slot list are
    all there. *)
Definition daySlotsOf (st : PageState) (d : JS.Date) : option (list TimeSlot) :=
  _ ← bookingDetails st;
  schedule ← activeSchedule st;
  day ← scheduleOfDay schedule (JS.getDay d);
  slots day.

(** ** Hours as integers *)

(** The labels of a list of hours. *)
Definition hourLabels (hs : list Z) : list string :=
  List.map (fun h => hourLabel (JS.Int h)) hs.

(** An hour that [hourLabel] writes with two digits. *)
Definition twoDigit (h : Z) : Prop := 0 <= h <= 99.

(** Sorting hours in ascending order: the counterpart of [JS.sort] on labels. *)
Fixpoint insertHour (x : Z) (l : list Z) : list Z :=
  match l with
  | [] => [x]
  | y :: l' => if x <=? y then x :: l else y :: insertHour x l'
  end.

Fixpoint sortHours (l : list Z) : list Z :=
  match l with
  | [] => []
  | x :: l' => insertHour x (sortHours l')
  end.

(** The label comparison agrees with the comparison of the hours, checked on
    every pair of two-digit hours. *)
Definition labelOrderChecked : bool :=
  forallb
    (fun a =>
       forallb
         (fun b =>
            Bool.eqb (String.leb (hourLabel (JS.Int a)) (hourLabel (JS.Int b)))
              (a <=? b))
         (seqZ 0 100))
    (seqZ 0 100).

(** ** Binary64 rounding, arithmetically *)

(** [v / u] rounded to the nearest integer, ties to even. *)
Definition rne_div (v u : Z) : Z :=
  let a := v / u in
  let r := v mod u in
  if 2 * r <? u then a
  else if 2 * r =? u then (if Z.even a then a else a + 1)
  else a + 1.

(** The float with mantissa [M] (at most 2^53) and exponent [E]: a mantissa of
    54 bits is renormalised, an exponent above 971 overflows. *)
Definition pack (M E : Z) : spec_float :=
  let '(M', E') := if M =? 2 ^ 53 then (2 ^ 52, E + 1) else (M, E) in
  match M' with
  | Z0 => S754_zero false
  | Zpos p => if E' <=? 971 then S754_finite false p E' else S754_infinity false
  | Zneg _ => S754_nan
  end.

Section Base.

(** Values are counted in units of 2^-B. *)
Variable B : Z.

Definition val (m : positive) (e : Z) : Z := Z.pos m * 2 ^ (e + B).

(** The binary64 float nearest to [v] units. *)
Definition RN (v : Z) : spec_float :=
  if v <=? 0 then S754_zero false
  else
    let f := fexp prec emax (Z.log2 v + 1 - B) in
    pack (rne_div v (2 ^ (f + B))) f.

(** The value of a float that is zero or positive and finite. *)
Definition value (x : spec_float) : option Z :=
  match x with
  | S754_zero _ => Some 0
  | S754_finite false m e => Some (val m e)
  | _ => None
  end.

(** [x] is the rounding of [v], up to the sign of a zero. *)
Definition rounds_to (x : spec_float) (v : Z) : Prop :=
  (v = 0 /\ exists s, x = S754_zero s) \/ (0 < v /\ x = RN v).

End Base.

(** Zero, positive and finite, or +infinity. *)
Definition nonneg (x : spec_float) : Prop :=
  match x with
  | S754_zero _ | S754_finite false _ _ | S754_infinity false => True
  | _ => False
  end.

(** ** The scenarios of the specification *)

(** 1 January 2024, a Monday. *)
Definition monday : JS.Date := JS.LocalTime 19723 0.

Definition mondayBooking (from to : Z) : Booking :=
  {| start_time := JS.LocalTime 19723 from;
     end_time := JS.LocalTime 19723 to;
     status := "accepted" |}.

Definition detailsA : BookingDetails :=
  {| streamerId := "streamer-1";
     streamerName := "Streamer";
     date := monday;
     startTime := "10:00";
     endTime := "13:00";
     platform := "shopee";
     price := 100000%float |}.

(** Scenario A: a Monday slot 09:00–17:00 and no bookings. *)
Definition scenarioA : PageState :=
  {| bookingDetails := Some detailsA;
     activeSchedule :=
       Some {[ 1 := {| slots := Some [ {| start := "09:00"; end_ := "17:00" |} ] |} ]};
     bookings := [] |}.

(** Scenario B: the same schedule and an accepted booking 11:00–12:00. *)
Definition scenarioB : PageState :=
  {| bookingDetails := Some detailsA;
     activeSchedule := activeSchedule scenarioA;
     bookings := [ mondayBooking 11 12 ] |}.

(** Scenario D: 11:00 is outside the Monday slots, 10:00 and 12:00 are inside. *)
Definition scenarioD : PageState :=
  {| bookingDetails := Some detailsA;
     activeSchedule :=
       Some {[ 1 := {| slots := Some [ {| start := "09:00"; end_ := "11:00" |};
                                      {| start := "12:00"; end_ := "17:00" |} ] |} ]};
     bookings := [] |}.

(** The schedule has arrived, the bookings query has failed. *)
Definition bookingsUnavailable : PageState :=
  fetchBookings {| data := None; error := Some "fetch failed" |}
    (fetchActiveSchedule
       {| data := Some (Parsed (activeSchedule scenarioA)); error := None |}
       (setBookingDetails detailsA initialState)).

(** Scenario E: one booking waiting for its payment, nothing shown yet. *)
Definition worldE : Payment.World :=
  {| Payment.bookings :=
       {[ 12 := {| Payment.streamer_id := 3;
                   Payment.client_id := "client-1";
                   Payment.client_first_name := "Ayu";
                   Payment.client_last_name := "Putri";
                   Payment.status := "payment_pending";
                   Payment.streamer :=
                     Some {| Payment.id := 3;
                             Payment.first_name := "Budi";
                             Payment.last_name := "Santoso";
                             Payment.user_id := "user-3" |} |} ]};
     Payment.notifications := [];
     Payment.toasts := [];
     Payment.routes := [];
     Payment.console := [] |}.

Definition backendE : Payment.Backend :=
  {| Payment.select_fails := false;
     Payment.insert_refused := false;
     Payment.update_refused := false;
     Payment.now1 := "2024-01-01T03:00:00.000Z";
     Payment.now2 := "2024-01-01T03:00:00.001Z" |}.

(** A booking of length zero, 20:00–20:00, outside the slot of scenario A. *)
Definition zeroLengthBooking : PageState :=
  {| bookingDetails := Some detailsA;
     activeSchedule := activeSchedule scenarioA;
     bookings := [ mondayBooking 20 20 ] |}.

(** ** Sessions of the selection *)

(** [isHourSelected] *)
Definition isHourSelected (selectedHours : list string) (hour : string) : bool :=
  JS.includes selectedHours hour.

(** The hours of [hours] handed to [handleHourSelection] one after the other,
    each on the selection the one before has left. *)
Fixpoint toggleAll (st : PageState) (hours : list string)
  (selectedHours : list string) : JS.completion (list string) :=
  match hours with
  | [] => mret selectedHours
  | hour :: rest =>
      selected ← handleHourSelection st hour selectedHours;
      toggleAll st rest selected
  end.

(** A page whose URL has no usable date: [new Date('')] is an invalid Date. *)
Definition undated : PageState :=
  {| bookingDetails :=
       Some {| streamerId := "streamer-1";
               streamerName := "Streamer";
               date := JS.InvalidDate;
               startTime := "10:00";
               endTime := "13:00";
               platform := "shopee";
               price := 100000%float |};
     activeSchedule := activeSchedule scenarioA;
     bookings := [] |}.

(** The schedule without the booking details. *)
Definition detailsMissing : PageState :=
  {| bookingDetails := None;
     activeSchedule := activeSchedule scenarioA;
     bookings := [] |}.

(** ** Handlers over a state *)

(** A handler reads and changes a state of type [S] and may throw. *)
Definition eff (S A : Type) : Type := S -> JS.completion A * S.

#[global] Instance eff_ret {S : Type} : MRet (eff S) :=
  fun A a s => (JS.Return a, s).
#[global] Instance eff_bind {S : Type} : MBind (eff S) :=
  fun A B k c s =>
    match c s with
    | (JS.Return a, s') => k a s'
    | (JS.Throw e, s') => (JS.Throw e, s')
    end.

Module Eff.

Definition throw {S A : Type} (e : JS.error) : eff S A :=
  fun s => (JS.Throw e, s).

Definition lift {S A : Type} (c : JS.completion A) : eff S A :=
  fun s => (c, s).

(** A state update, as a [useState] setter makes it. *)
Definition modify {S : Type} (f : S -> S) : eff S unit :=
  fun s => (JS.Return tt, f s).

(** [try { body } catch (error) { recover }] *)
Definition try_catch {S A : Type} (body : eff S A)
  (recover : JS.error -> eff S A) : eff S A :=
  fun s =>
    match body s with
    | (JS.Return a, s') => (JS.Return a, s')
    | (JS.Throw e, s') => recover e s'
    end.

(** [try { body } finally { cleanup }]: the cleanup runs on every way out of
    the body, and what the body returned or threw stands unless the cleanup
    throws. *)
Definition try_finally {S A : Type} (body : eff S A) (cleanup : eff S unit) :
  eff S A :=
  fun s =>
    match body s with
    | (c, s') =>
        match cleanup s' with
        | (JS.Return _, s'') => (c, s'')
        | (JS.Throw e, s'') => (JS.Throw e, s'')
        end
    end.

End Eff.

(** ** Confirming the booking *)

Module Checkout.

(** The signed-in user, as far as the handler reads it. *)
Record User : Set := {
  id : string;
  email : string;
  first_name : string;
  last_name : string;
}.

Record Metadata : Set := {
  m_streamerId : string;
  m_userId : string;
  m_startTime : string;
  m_endTime : string;
  m_platform : string;
  m_specialRequest : string;
  m_subAccountLink : string;
  m_firstName : string;
  m_lastName : string;
  m_price : float;
}.

(** The body posted to [/api/payments/create]. *)
Record PaymentRequest : Set := {
  amount : float;
  clientName : string;
  clientEmail : string;
  description : string;
  metadata : Metadata;
}.

(** The parsed body of the response; [None]: no [token] property. *)
Record PaymentData : Set := {
  token : option string;
}.

Record PaymentResponse : Set := {
  ok : bool;
  (** [paymentResponse.json()]: parsing may fail, the body may be null *)
  json : JS.completion (option PaymentData);
}.

(** What the handler does not decide: who is signed in, what date-fns makes
    of the strings it is given (an invalid date throws), and what the
    payment endpoint answers (a network failure throws). *)
Record Env : Type := {
  user : option User;
  (** [format(parseISO(s), 'PPP')] *)
  format_PPP : string -> JS.completion string;
  (** [format(addHours(parseISO(s), 1), 'HH:mm')] *)
  format_end : string -> JS.completion string;
  (** [addHours(parseISO(s), 1).toISOString()] *)
  end_ISO : string -> JS.completion string;
  fetch : PaymentRequest -> JS.completion PaymentResponse;
}.

(** The state the handler reads and changes, with the toasts shown, the
    console and the requests sent.  [date] is [bookingDetails.date] as the
    string the URL gave. *)
Record Page : Type := {
  bookingDetails : option BookingDetails;
  date : string;
  selectedHours : list string;
  specialRequest : string;
  subAccountLink : string;
  isLoading : bool;
  paymentToken : option string;
  toasts : list Payment.Toast;
  console : list string;
  requests : list PaymentRequest;
}.

Definition setIsLoading (b : bool) : eff Page unit :=
  Eff.modify (fun st =>
    {| bookingDetails := bookingDetails st;
       date := date st;
       selectedHours := selectedHours st;
       specialRequest := specialRequest st;
       subAccountLink := subAccountLink st;
       isLoading := b;
       paymentToken := paymentToken st;
       toasts := toasts st;
       console := console st;
       requests := requests st |}).

Definition setPaymentToken (t : option string) : eff Page unit :=
  Eff.modify (fun st =>
    {| bookingDetails := bookingDetails st;
       date := date st;
       selectedHours := selectedHours st;
       specialRequest := specialRequest st;
       subAccountLink := subAccountLink st;
       isLoading := isLoading st;
       paymentToken := t;
       toasts := toasts st;
       console := console st;
       requests := requests st |}).

Definition toast (t : Payment.Toast) : eff Page unit :=
  Eff.modify (fun st =>
    {| bookingDetails := bookingDetails st;
       date := date st;
       selectedHours := selectedHours st;
       specialRequest := specialRequest st;
       subAccountLink := subAccountLink st;
       isLoading := isLoading st;
       paymentToken := paymentToken st;
       toasts := toasts st ++ [t];
       console := console st;
       requests := requests st |}).

Definition console_error (line : string) : eff Page unit :=
  Eff.modify (fun st =>
    {| bookingDetails := bookingDetails st;
       date := date st;
       selectedHours := selectedHours st;
       specialRequest := specialRequest st;
       subAccountLink := subAccountLink st;
       isLoading := isLoading st;
       paymentToken := paymentToken st;
       toasts := toasts st;
       console := console st ++ [line];
       requests := requests st |}).

(** [fetch('/api/payments/create', { method: 'POST', body })]: the request
    goes out, then the answer arrives or the call fails. *)
Definition post (env : Env) (request : PaymentRequest) :
  eff Page PaymentResponse :=
  fun st =>
    (fetch env request,
     {| bookingDetails := bookingDetails st;
        date := date st;
        selectedHours := selectedHours st;
        specialRequest := specialRequest st;
        subAccountLink := subAccountLink st;
        isLoading := isLoading st;
        paymentToken := paymentToken st;
        toasts := toasts st;
        console := console st;
        requests := requests st ++ [request] |}).

End Checkout.

Definition mustBeLoggedIn : Payment.Toast :=
  Payment.toast_error "You must be logged in to confirm a booking.".
Definition failedToInitiate : Payment.Toast :=
  Payment.toast_error "Failed to initiate payment. Please try again.".

(** The body that [handleConfirmBooking] posts, built from the state of the
    render: [total] is the total on display. *)
Definition paymentRequest (env : Checkout.Env) (st : Checkout.Page)
  (details : BookingDetails) (user : Checkout.User) :
  JS.completion Checkout.PaymentRequest :=
  let selectedHours := Checkout.selectedHours st in
  let first := JS.at_ selectedHours 0 in
  let last := JS.at_ selectedHours (length selectedHours - 1) in
  let total := total (price details) (length selectedHours) in
  let startTime := String.concat "" [Checkout.date st; "T"; first] in
  let lastTime := String.concat "" [Checkout.date st; "T"; last] in
  day ← Checkout.format_PPP env startTime;
  endLabel ← Checkout.format_end env lastTime;
  endTime ← Checkout.end_ISO env lastTime;
  mret
    {| Checkout.amount := total;
       Checkout.clientName :=
         String.concat ""
           [Checkout.first_name user; " "; Checkout.last_name user];
       Checkout.clientEmail := Checkout.email user;
       Checkout.description :=
         String.concat ""
           [ "Booking with "; streamerName details; " for "; day; " at ";
             first; " - "; endLabel ];
       Checkout.metadata :=
         {| Checkout.m_streamerId := streamerId details;
            Checkout.m_userId := Checkout.id user;
            Checkout.m_startTime := startTime;
            Checkout.m_endTime := endTime;
            Checkout.m_platform := platform details;
            Checkout.m_specialRequest := Checkout.specialRequest st;
            Checkout.m_subAccountLink := Checkout.subAccountLink st;
            Checkout.m_firstName := Checkout.first_name user;
            Checkout.m_lastName := Checkout.last_name user;
            Checkout.m_price := total |} |}.

(** The [try] block of [handleConfirmBooking]; [st] is the state of the
    render the handler was created in. *)
Definition handleConfirmBooking_try (env : Checkout.Env) (st : Checkout.Page)
  (details : BookingDetails) : eff Checkout.Page unit :=
  Checkout.setIsLoading true;;
  match Checkout.user env with
  | None => Checkout.toast mustBeLoggedIn
  | Some user =>
      request ← Eff.lift (paymentRequest env st details user);
      paymentResponse ← Checkout.post env request;
      if negb (Checkout.ok paymentResponse)
      then Eff.throw (JS.Error "Failed to create payment token")
      else
        body ← Eff.lift (Checkout.json paymentResponse);
        paymentData ← Eff.lift (nonNull body);
        match Checkout.token paymentData with
        | Some t =>
            if truthy t then Checkout.setPaymentToken (Some t)
            else Eff.throw (JS.Error "No payment token received")
        | None => Eff.throw (JS.Error "No payment token received")
        end
  end.

Definition handleConfirmBooking (env : Checkout.Env) : eff Checkout.Page unit :=
  fun st =>
    match Checkout.bookingDetails st with
    | None => (JS.Return tt, st)
    | Some details =>
        if Checkout.isLoading st then (JS.Return tt, st)
        else
          Eff.try_finally
            (Eff.try_catch (handleConfirmBooking_try env st details)
               (fun _ =>
                  Checkout.console_error "Error initiating payment:";;
                  Checkout.toast failedToInitiate))
            (Checkout.setIsLoading false) st
    end.

Definition handlePaymentPending : eff Checkout.Page unit :=
  Checkout.toast
    (Payment.toast_success "Payment pending. Please complete the payment.").

Definition handlePaymentError : eff Checkout.Page unit :=
  Checkout.toast (Payment.toast_error "Payment failed. Please try again.").

Definition handlePaymentClose : eff Checkout.Page unit :=
  Checkout.setPaymentToken None.

(** What happens on the page around the payment: the button, and the three
    callbacks of the payment modal that stay on the page.  In a run each
    handler has come to its end before the next event arrives. *)
Inductive CheckoutEvent : Type :=
| ConfirmBooking (env : Checkout.Env)
| PaymentPending
| PaymentError
| PaymentClose.

Definition checkoutStep (event : CheckoutEvent) : eff Checkout.Page unit :=
  match event with
  | ConfirmBooking env => handleConfirmBooking env
  | PaymentPending => handlePaymentPending
  | PaymentError => handlePaymentError
  | PaymentClose => handlePaymentClose
  end.

Fixpoint checkoutRun (events : list CheckoutEvent) : eff Checkout.Page unit :=
  match events with
  | [] => mret tt
  | event :: rest => checkoutStep event;; checkoutRun rest
  end.

(** A signed-in client confirming 10:00 and 11:00 on 1 January 2024; the
    payment endpoint answers with a token. *)
Definition clientUser : Checkout.User :=
  {| Checkout.id := "user-9";
     Checkout.email := "ayu@example.com";
     Checkout.first_name := "Ayu";
     Checkout.last_name := "Putri" |}.

Definition tokenResponse : Checkout.PaymentResponse :=
  {| Checkout.ok := true;
     Checkout.json :=
       JS.Return (Some {| Checkout.token := Some "snap-token" |}) |}.

Definition checkoutEnv : Checkout.Env :=
  {| Checkout.user := Some clientUser;
     Checkout.format_PPP := fun _ => JS.Return "January 1st, 2024";
     Checkout.format_end := fun _ => JS.Return "12:00";
     Checkout.end_ISO := fun _ => JS.Return "2024-01-01T05:00:00.000Z";
     Checkout.fetch := fun _ => JS.Return tokenResponse |}.

(** The same, with nobody signed in. *)
Definition signedOutEnv : Checkout.Env :=
  {| Checkout.user := None;
     Checkout.format_PPP := Checkout.format_PPP checkoutEnv;
     Checkout.format_end := Checkout.format_end checkoutEnv;
     Checkout.end_ISO := Checkout.end_ISO checkoutEnv;
     Checkout.fetch := Checkout.fetch checkoutEnv |}.

Definition checkoutPage : Checkout.Page :=
  {| Checkout.bookingDetails := Some detailsA;
     Checkout.date := "2024-01-01";
     Checkout.selectedHours := ["10:00"; "11:00"];
     Checkout.specialRequest := "";
     Checkout.subAccountLink := "";
     Checkout.isLoading := false;
     Checkout.paymentToken := None;
     Checkout.toasts := [];
     Checkout.console := [];
     Checkout.requests := [] |}.

(** A Number that is a zero of either sign. *)
Definition isZero (x : float) : Prop := exists s, Prim2SF x = S754_zero s.

(** ** The settings page *)

(** [a.slice(0, end)] for an integer [end]: a negative [end] counts from the
    end of the array. *)
Definition Array_slice0 {A : Type} (end_ : Z) (a : list A) : list A :=
  let len := Z.of_nat (length a) in
  let final := if end_ <? 0 then Z.max (len + end_) 0 else Z.min end_ len in
  take (Z.to_nat final) a.

(** [a.filter((_, i) => p i)], the elements counted from [i]. *)
Fixpoint filter_from {A : Type} (p : nat -> bool) (i : nat) (a : list A) :
  list A :=
  match a with
  | [] => []
  | x :: a' =>
      if p i then x :: filter_from p (S i) a' else filter_from p (S i) a'
  end.

Module Settings.

Definition MAX_FILE_SIZE : Z := 1 * 1024 * 1024.

Inductive UserType : Set :=
| client
| streamer.

(** A [File], as far as the page reads it; [size] is in bytes. *)
Record File : Set := {
  name : string;
  size : Z;
}.

Inductive FormValue : Set :=
| text (s : string)
| file (f : File).

(** The entries of a [FormData], in the order they were appended. *)
Definition FormData : Set := list (string * FormValue).

(** What a server action resolves to; a field is [None] when the object has
    no such key. *)
Record Result : Set := {
  r_error : option string;
  r_message : option string;
  r_redirect : option string;
}.

Inductive Action : Set :=
| updateStreamerProfile
| updateUserProfile.

(** A call of a server action. *)
Definition Submission : Set := (Action * FormData)%type.

Record UserRow : Set := {
  first_name : option string;
  last_name : option string;
  u_bio : option string;
  profile_picture_url : option string;
  user_type : option UserType;
}.

Record StreamerRow : Set := {
  id : Z;
  image_url : option string;
  video_url : option string;
}.

(** What the page does not decide: who is signed in, what the three queries
    of [fetchUserData] answer, what the server actions resolve to (or that
    they fail), and the object URLs the browser hands out. *)
Record Backend : Type := {
  user : option string;
  users : Response UserRow;
  streamers : Response StreamerRow;
  (** the [photo_url] of the rows, by [order_number] *)
  gallery : Response (list string);
  act : Action -> FormData -> JS.completion Result;
  createObjectURL : File -> string;
}.

(** The state of the component, with the toasts shown, the routes pushed, the
    console and the server actions called. *)
Record State : Type := {
  firstName : string;
  lastName : string;
  bio : string;
  imageUrl : string;
  selectedImage : option File;
  previewUrl : option string;
  loading : bool;
  imageError : string;
  userType : option UserType;
  youtubeUrl : string;
  galleryPhotos : list string;
  newGalleryPhotos : list File;
  isLoading : bool;
  toasts : list Payment.Toast;
  routes : list string;
  console : list string;
  submitted : list Submission;
}.

Definition setFirstName (v : string) (st : State) : State :=
  {| firstName := v;
     lastName := lastName st;
     bio := bio st;
     imageUrl := imageUrl st;
     selectedImage := selectedImage st;
     previewUrl := previewUrl st;
     loading := loading st;
     imageError := imageError st;
     userType := userType st;
     youtubeUrl := youtubeUrl st;
     galleryPhotos := galleryPhotos st;
     newGalleryPhotos := newGalleryPhotos st;
     isLoading := isLoading st;
     toasts := toasts st;
     routes := routes st;
     console := console st;
     submitted := submitted st |}.

Definition setLastName (v : string) (st : State) : State :=
  {| firstName := firstName st;
     lastName := v;
     bio := bio st;
     imageUrl := imageUrl st;
     selectedImage := selectedImage st;
     previewUrl := previewUrl st;
     loading := loading st;
     imageError := imageError st;
     userType := userType st;
     youtubeUrl := youtubeUrl st;
     galleryPhotos := galleryPhotos st;
     newGalleryPhotos := newGalleryPhotos st;
     isLoading := isLoading st;
     toasts := toasts st;
     routes := routes st;
     console := console st;
     submitted := submitted st |}.

Definition setBio (v : string) (st : State) : State :=
  {| firstName := firstName st;
     lastName := lastName st;
     bio := v;
     imageUrl := imageUrl st;
     selectedImage := selectedImage st;
     previewUrl := previewUrl st;
     loading := loading st;
     imageError := imageError st;
     userType := userType st;
     youtubeUrl := youtubeUrl st;
     galleryPhotos := galleryPhotos st;
     newGalleryPhotos := newGalleryPhotos st;
     isLoading := isLoading st;
     toasts := toasts st;
     routes := routes st;
     console := console st;
     submitted := submitted st |}.

Definition setImageUrl (v : string) (st : State) : State :=
  {| firstName := firstName st;
     lastName := lastName st;
     bio := bio st;
     imageUrl := v;
     selectedImage := selectedImage st;
     previewUrl := previewUrl st;
     loading := loading st;
     imageError := imageError st;
     userType := userType st;
     youtubeUrl := youtubeUrl st;
     galleryPhotos := galleryPhotos st;
     newGalleryPhotos := newGalleryPhotos st;
     isLoading := isLoading st;
     toasts := toasts st;
     routes := routes st;
     console := console st;
     submitted := submitted st |}.

Definition setSelectedImage (v : option File) (st : State) : State :=
  {| firstName := firstName st;
     lastName := lastName st;
     bio := bio st;
     imageUrl := imageUrl st;
     selectedImage := v;
     previewUrl := previewUrl st;
     loading := loading st;
     imageError := imageError st;
     userType := userType st;
     youtubeUrl := youtubeUrl st;
     galleryPhotos := galleryPhotos st;
     newGalleryPhotos := newGalleryPhotos st;
     isLoading := isLoading st;
     toasts := toasts st;
     routes := routes st;
     console := console st;
     submitted := submitted st |}.

Definition setPreviewUrl (v : option string) (st : State) : State :=
  {| firstName := firstName st;
     lastName := lastName st;
     bio := bio st;
     imageUrl := imageUrl st;
     selectedImage := selectedImage st;
     previewUrl := v;
     loading := loading st;
     imageError := imageError st;
     userType := userType st;
     youtubeUrl := youtubeUrl st;
     galleryPhotos := galleryPhotos st;
     newGalleryPhotos := newGalleryPhotos st;
     isLoading := isLoading st;
     toasts := toasts st;
     routes := routes st;
     console := console st;
     submitted := submitted st |}.

Definition setLoading (v : bool) (st : State) : State :=
  {| firstName := firstName st;
     lastName := lastName st;
     bio := bio st;
     imageUrl := imageUrl st;
     selectedImage := selectedImage st;
     previewUrl := previewUrl st;
     loading := v;
     imageError := imageError st;
     userType := userType st;
     youtubeUrl := youtubeUrl st;
     galleryPhotos := galleryPhotos st;
     newGalleryPhotos := newGalleryPhotos st;
     isLoading := isLoading st;
     toasts := toasts st;
     routes := routes st;
     console := console st;
     submitted := submitted st |}.

Definition setImageError (v : string) (st : State) : State :=
  {| firstName := firstName st;
     lastName := lastName st;
     bio := bio st;
     imageUrl := imageUrl st;
     selectedImage := selectedImage st;
     previewUrl := previewUrl st;
     loading := loading st;
     imageError := v;
     userType := userType st;
     youtubeUrl := youtubeUrl st;
     galleryPhotos := galleryPhotos st;
     newGalleryPhotos := newGalleryPhotos st;
     isLoading := isLoading st;
     toasts := toasts st;
     routes := routes st;
     console := console st;
     submitted := submitted st |}.

Definition setUserType (v : option UserType) (st : State) : State :=
  {| firstName := firstName st;
     lastName := lastName st;
     bio := bio st;
     imageUrl := imageUrl st;
     selectedImage := selectedImage st;
     previewUrl := previewUrl st;
     loading := loading st;
     imageError := imageError st;
     userType := v;
     youtubeUrl := youtubeUrl st;
     galleryPhotos := galleryPhotos st;
     newGalleryPhotos := newGalleryPhotos st;
     isLoading := isLoading st;
     toasts := toasts st;
     routes := routes st;
     console := console st;
     submitted := submitted st |}.

Definition setYoutubeUrl (v : string) (st : State) : State :=
  {| firstName := firstName st;
     lastName := lastName st;
     bio := bio st;
     imageUrl := imageUrl st;
     selectedImage := selectedImage st;
     previewUrl := previewUrl st;
     loading := loading st;
     imageError := imageError st;
     userType := userType st;
     youtubeUrl := v;
     galleryPhotos := galleryPhotos st;
     newGalleryPhotos := newGalleryPhotos st;
     isLoading := isLoading st;
     toasts := toasts st;
     routes := routes st;
     console := console st;
     submitted := submitted st |}.

Definition setGalleryPhotos (v : list string) (st : State) : State :=
  {| firstName := firstName st;
     lastName := lastName st;
     bio := bio st;
     imageUrl := imageUrl st;
     selectedImage := selectedImage st;
     previewUrl := previewUrl st;
     loading := loading st;
     imageError := imageError st;
     userType := userType st;
     youtubeUrl := youtubeUrl st;
     galleryPhotos := v;
     newGalleryPhotos := newGalleryPhotos st;
     isLoading := isLoading st;
     toasts := toasts st;
     routes := routes st;
     console := console st;
     submitted := submitted st |}.

Definition setNewGalleryPhotos (v : list File) (st : State) : State :=
  {| firstName := firstName st;
     lastName := lastName st;
     bio := bio st;
     imageUrl := imageUrl st;
     selectedImage := selectedImage st;
     previewUrl := previewUrl st;
     loading := loading st;
     imageError := imageError st;
     userType := userType st;
     youtubeUrl := youtubeUrl st;
     galleryPhotos := galleryPhotos st;
     newGalleryPhotos := v;
     isLoading := isLoading st;
     toasts := toasts st;
     routes := routes st;
     console := console st;
     submitted := submitted st |}.

Definition setIsLoading (v : bool) (st : State) : State :=
  {| firstName := firstName st;
     lastName := lastName st;
     bio := bio st;
     imageUrl := imageUrl st;
     selectedImage := selectedImage st;
     previewUrl := previewUrl st;
     loading := loading st;
     imageError := imageError st;
     userType := userType st;
     youtubeUrl := youtubeUrl st;
     galleryPhotos := galleryPhotos st;
     newGalleryPhotos := newGalleryPhotos st;
     isLoading := v;
     toasts := toasts st;
     routes := routes st;
     console := console st;
     submitted := submitted st |}.

Definition toast (t : Payment.Toast) (st : State) : State :=
  {| firstName := firstName st;
     lastName := lastName st;
     bio := bio st;
     imageUrl := imageUrl st;
     selectedImage := selectedImage st;
     previewUrl := previewUrl st;
     loading := loading st;
     imageError := imageError st;
     userType := userType st;
     youtubeUrl := youtubeUrl st;
     galleryPhotos := galleryPhotos st;
     newGalleryPhotos := newGalleryPhotos st;
     isLoading := isLoading st;
     toasts := toasts st ++ [t];
     routes := routes st;
     console := console st;
     submitted := submitted st |}.

Definition router_push (path : string) (st : State) : State :=
  {| firstName := firstName st;
     lastName := lastName st;
     bio := bio st;
     imageUrl := imageUrl st;
     selectedImage := selectedImage st;
     previewUrl := previewUrl st;
     loading := loading st;
     imageError := imageError st;
     userType := userType st;
     youtubeUrl := youtubeUrl st;
     galleryPhotos := galleryPhotos st;
     newGalleryPhotos := newGalleryPhotos st;
     isLoading := isLoading st;
     toasts := toasts st;
     routes := routes st ++ [path];
     console := console st;
     submitted := submitted st |}.

Definition console_error (line : string) (st : State) : State :=
  {| firstName := firstName st;
     lastName := lastName st;
     bio := bio st;
     imageUrl := imageUrl st;
     selectedImage := selectedImage st;
     previewUrl := previewUrl st;
     loading := loading st;
     imageError := imageError st;
     userType := userType st;
     youtubeUrl := youtubeUrl st;
     galleryPhotos := galleryPhotos st;
     newGalleryPhotos := newGalleryPhotos st;
     isLoading := isLoading st;
     toasts := toasts st;
     routes := routes st;
     console := console st ++ [line];
     submitted := submitted st |}.

Definition submit (call : Submission) (st : State) : State :=
  {| firstName := firstName st;
     lastName := lastName st;
     bio := bio st;
     imageUrl := imageUrl st;
     selectedImage := selectedImage st;
     previewUrl := previewUrl st;
     loading := loading st;
     imageError := imageError st;
     userType := userType st;
     youtubeUrl := youtubeUrl st;
     galleryPhotos := galleryPhotos st;
     newGalleryPhotos := newGalleryPhotos st;
     isLoading := isLoading st;
     toasts := toasts st;
     routes := routes st;
     console := console st;
     submitted := submitted st ++ [call] |}.

(** The [useState] initial values. *)
Definition initial : State :=
  {| firstName := "";
     lastName := "";
     bio := "";
     imageUrl := "";
     selectedImage := None;
     previewUrl := None;
     loading := true;
     imageError := "";
     userType := None;
     youtubeUrl := "";
     galleryPhotos := [];
     newGalleryPhotos := [];
     isLoading := false;
     toasts := [];
     routes := [];
     console := [];
     submitted := [] |}.

End Settings.

(** [userType === 'streamer'] *)
Definition isStreamer (userType : option Settings.UserType) : bool :=
  match userType with
  | Some Settings.streamer => true
  | _ => false
  end.

(** The data of a query that succeeded: [data && !error]. *)
Definition answered {A : Type} (response : Response A) : option A :=
  match data response, error response with
  | Some d, None => Some d
  | _, _ => None
  end.

Definition fetchUserData (be : Settings.Backend) (st : Settings.State) :
  Settings.State :=
  Settings.setLoading false
    match Settings.user be with
    | None => st
    | Some _ =>
        match answered (Settings.users be) with
        | None => st
        | Some userData =>
            let st :=
              Settings.setUserType (Settings.user_type userData)
                (Settings.setBio (default "" (Settings.u_bio userData))
                   (Settings.setLastName
                      (default "" (Settings.last_name userData))
                      (Settings.setFirstName
                         (default "" (Settings.first_name userData)) st))) in
            if isStreamer (Settings.user_type userData) then
              match answered (Settings.streamers be) with
              | None => st
              | Some streamerData =>
                  let st :=
                    Settings.setYoutubeUrl
                      (default "" (Settings.video_url streamerData))
                      (Settings.setImageUrl
                         (default "" (Settings.image_url streamerData)) st) in
                  match answered (Settings.gallery be) with
                  | None => st
                  | Some galleryData => Settings.setGalleryPhotos galleryData st
                  end
              end
            else
              Settings.setImageUrl
                (default "" (Settings.profile_picture_url userData)) st
        end
    end.

(** The form data [handleSubmit] sends; [form] is what [new FormData] collects
    from the named controls of the form. *)
Definition formData (form : Settings.FormData) (st : Settings.State) :
  Settings.FormData :=
  let withImage :=
    match Settings.selectedImage st with
    | Some image => (form ++ [("image", Settings.file image)])%list
    | None => form
    end in
  if isStreamer (Settings.userType st) then
    (withImage ++
     ("youtubeUrl", Settings.text (Settings.youtubeUrl st)) ::
     List.map (fun photo => ("galleryPhoto", Settings.file photo))
       (Settings.newGalleryPhotos st))%list
  else withImage.

(** A server action is called, then it resolves or fails. *)
Definition callAction (be : Settings.Backend) (action : Settings.Action)
  (data : Settings.FormData) : eff Settings.State Settings.Result :=
  fun st => (Settings.act be action data, Settings.submit (action, data) st).

Definition profileUpdated : string := "Profile updated successfully!".
Definition unexpectedError : Payment.Toast :=
  Payment.toast_error "An unexpected error occurred. Please try again.".

(** The [try] block of [handleSubmit]; [st] is the state of the render the
    handler was created in. *)
Definition handleSubmit_try (be : Settings.Backend) (form : Settings.FormData)
  (st : Settings.State) : eff Settings.State unit :=
  let data := formData form st in
  let action :=
    if isStreamer (Settings.userType st) then Settings.updateStreamerProfile
    else Settings.updateUserProfile in
  result ← callAction be action data;
  match Settings.r_error result with
  | Some message =>
      Eff.modify (Settings.toast (Payment.toast_error message))
  | None =>
      Eff.modify
        (Settings.toast
           (Payment.toast_success
              (default profileUpdated (Settings.r_message result))));;
      Eff.modify (Settings.setPreviewUrl None);;
      Eff.modify (Settings.setSelectedImage None);;
      Eff.modify (Settings.setNewGalleryPhotos []);;
      match Settings.r_redirect result with
      | Some path =>
          if truthy path then Eff.modify (Settings.router_push path)
          else Eff.modify (fetchUserData be)
      | None => Eff.modify (fetchUserData be)
      end
  end.

Definition handleSubmit (be : Settings.Backend) (form : Settings.FormData) :
  eff Settings.State unit :=
  fun st =>
    (Eff.modify (Settings.setIsLoading true);;
     Eff.try_finally
       (Eff.try_catch (handleSubmit_try be form st)
          (fun _ =>
             Eff.modify (Settings.console_error "Error updating profile:");;
             Eff.modify (Settings.toast unexpectedError)))
       (Eff.modify (Settings.setIsLoading false))) st.

Definition imageTooLarge : string :=
  "Image size exceeds 1MB. Please choose a smaller image.".

(** [files] is [e.target.files]: [None] when it is null. *)
Definition handleImageChange (be : Settings.Backend)
  (files : option (list Settings.File)) (st : Settings.State) :
  Settings.State :=
  match files ≫= head with
  | Some file =>
      if Settings.MAX_FILE_SIZE <? Settings.size file then
        Settings.setImageError imageTooLarge st
      else
        Settings.setPreviewUrl (Some (Settings.createObjectURL be file))
          (Settings.setSelectedImage (Some file)
             (Settings.setImageError "" st))
  | None => st
  end.

Definition handleGalleryPhotoChange (files : option (list Settings.File))
  (st : Settings.State) : Settings.State :=
  match files with
  | Some files =>
      let newPhotos :=
        Array_slice0 (5 - Z.of_nat (length (Settings.galleryPhotos st))) files in
      Settings.setNewGalleryPhotos
        (Settings.newGalleryPhotos st ++ newPhotos)%list st
  | None => st
  end.

Definition removeGalleryPhoto (index : nat) (st : Settings.State) :
  Settings.State :=
  Settings.setGalleryPhotos
    (filter_from (fun i => negb (i =? index)%nat) 0 (Settings.galleryPhotos st))
    st.

Definition removeNewGalleryPhoto (index : nat) (st : Settings.State) :
  Settings.State :=
  Settings.setNewGalleryPhotos
    (filter_from (fun i => negb (i =? index)%nat) 0
       (Settings.newGalleryPhotos st))
    st.

Definition handleBackNavigation (st : Settings.State) : Settings.State :=
  if isStreamer (Settings.userType st)
  then Settings.router_push "/streamer-dashboard" st
  else Settings.router_push "/protected" st.

(** The [disabled] attribute of the gallery input. *)
Definition galleryInputDisabled (st : Settings.State) : bool :=
  5 <=? Z.of_nat (length (Settings.galleryPhotos st) +
                  length (Settings.newGalleryPhotos st)).

(** What happens on the settings page.  A disabled input fires no change
    event, and in a run each handler has come to its end before the next
    event arrives. *)
Inductive SettingsEvent : Type :=
| Mount (be : Settings.Backend)
| ImageChange (be : Settings.Backend) (files : option (list Settings.File))
| GalleryPhotoChange (files : option (list Settings.File))
| RemoveGalleryPhoto (index : nat)
| RemoveNewGalleryPhoto (index : nat)
| Submit (be : Settings.Backend) (form : Settings.FormData)
| BackNavigation.

Definition settingsStep (event : SettingsEvent) : eff Settings.State unit :=
  match event with
  | Mount be => Eff.modify (fetchUserData be)
  | ImageChange be files => Eff.modify (handleImageChange be files)
  | GalleryPhotoChange files =>
      fun st =>
        if galleryInputDisabled st then (JS.Return tt, st)
        else Eff.modify (handleGalleryPhotoChange files) st
  | RemoveGalleryPhoto index => Eff.modify (removeGalleryPhoto index)
  | RemoveNewGalleryPhoto index => Eff.modify (removeNewGalleryPhoto index)
  | Submit be form => handleSubmit be form
  | BackNavigation => Eff.modify handleBackNavigation
  end.

Fixpoint settingsRun (events : list SettingsEvent) : eff Settings.State unit :=
  match events with
  | [] => mret tt
  | event :: rest => settingsStep event;; settingsRun rest
  end.

(** Files to choose from, and a page with four photos pending. *)
Definition photo (name : string) : Settings.File :=
  {| Settings.name := name; Settings.size := 200000 |}.

Definition fiveFiles : list Settings.File :=
  [photo "1.png"; photo "2.png"; photo "3.png"; photo "4.png"; photo "5.png"].

Definition fourPending : Settings.State :=
  handleGalleryPhotoChange
    (Some [photo "a.png"; photo "b.png"; photo "c.png"; photo "d.png"])
    Settings.initial.

(** A streamer's page with three photos stored. *)
Definition threeStored : Settings.State :=
  Settings.setGalleryPhotos ["p0.jpg"; "p1.jpg"; "p2.jpg"]
    (Settings.setUserType (Some Settings.streamer) Settings.initial).

(** A client is signed in; the server action saves and answers with a
    message. *)
Definition saved : Settings.Result :=
  {| Settings.r_error := None;
     Settings.r_message := Some "Profile saved";
     Settings.r_redirect := None |}.

Definition clientBackend : Settings.Backend :=
  {| Settings.user := Some "user-9";
     Settings.users :=
       {| data :=
            Some {| Settings.first_name := Some "Ayu";
                    Settings.last_name := Some "Putri";
                    Settings.u_bio := None;
                    Settings.profile_picture_url := Some "/avatars/ayu.png";
                    Settings.user_type := Some Settings.client |};
          error := None |};
     Settings.streamers := {| data := None; error := None |};
     Settings.gallery := {| data := None; error := None |};
     Settings.act := fun _ _ => JS.Return saved;
     Settings.createObjectURL := fun f => String.append "blob:" (Settings.name f) |}.

(** The same, with a server action that refuses. *)
Definition refusingBackend : Settings.Backend :=
  {| Settings.user := Settings.user clientBackend;
     Settings.users := Settings.users clientBackend;
     Settings.streamers := Settings.streamers clientBackend;
     Settings.gallery := Settings.gallery clientBackend;
     Settings.act :=
       fun _ _ =>
         JS.Return {| Settings.r_error := Some "Not authenticated";
                      Settings.r_message := None;
                      Settings.r_redirect := None |};
     Settings.createObjectURL := Settings.createObjectURL clientBackend |}.

(** Two images to choose from: one of exactly 1 MiB, one a byte larger. *)
Definition imageAtLimit : Settings.File :=
  {| Settings.name := "avatar.png"; Settings.size := 1048576 |}.
Definition imageOverLimit : Settings.File :=
  {| Settings.name := "poster.png"; Settings.size := 1048577 |}.

(** ** The status texts *)

(** [toLowerCase] on a code unit below 256: the letters A-Z and the capital
    letters of Latin-1, which run from 192 to 222 without the multiplication
    sign 215. *)
Definition lowerCase (c : ascii) : ascii :=
  let n := N_of_ascii c in
  if ((65 <=? n) && (n <=? 90) ||
      (192 <=? n) && (n <=? 222) && negb (n =? 215))%N
  then ascii_of_N (n + 32)
  else c.

Fixpoint toLowerCase (s : string) : string :=
  match s with
  | EmptyString => EmptyString
  | String c s' => String (lowerCase c) (toLowerCase s')
  end.

Definition getStatusInfo (status : string) : string :=
  let s := toLowerCase status in
  if String.eqb s "pending" then
    "Menunggu streamer menerima pesanan Anda. Biasanya membutuhkan waktu 15-60 menit untuk konfirmasi."
  else if String.eqb s "accepted" then
    "Pesanan Anda telah diterima oleh streamer. Silakan tunggu link streaming yang akan diberikan saat waktu yang ditentukan."
  else if String.eqb s "completed" then
    "Sesi streaming telah selesai. Terima kasih telah menggunakan layanan kami."
  else if String.eqb s "rejected" then
    "Maaf, streamer tidak dapat menerima pesanan Anda. Silakan coba waktu lain atau streamer lainnya."
  else if String.eqb s "live" then
    "Sesi streaming sedang berlangsung."
  else "".

(** The events of a session that submit the form. *)
Definition isSubmit (event : SettingsEvent) : bool :=
  match event with
  | Submit _ _ => true
  | _ => false
  end.

(** ** Integers that a Number holds exactly *)

(** [Number.isSafeInteger]: the integers up to 2^53 - 1 in magnitude.  On
    these, [JS.parseInt] and [JS.toString] are those of JavaScript; beyond
    them a Number rounds what it reads, and from 10^21 on it prints with an
    exponent. *)
Definition safeInteger (z : Z) : Prop := - (2 ^ 53 - 1) <= z <= 2 ^ 53 - 1.

(** ** The format HH:00 of the specification *)

Definition decimalDigit (d : Z) : string :=
  nth (Z.to_nat d) ["0"; "1"; "2"; "3"; "4"; "5"; "6"; "7"; "8"; "9"] "".

(** Hour [h] of 0..99 written with its two decimal digits, then [:00]. *)
Definition HH00 (h : Z) : string :=
  String.append (decimalDigit (h / 10))
    (String.append (decimalDigit (h mod 10)) ":00").

(** [hourLabel] writes HH:00, checked on every two-digit hour. *)
Definition hourLabelChecked : bool :=
  forallb (fun h => String.eqb (hourLabel (JS.Int h)) (HH00 h)) (seqZ 0 100).

(** ** The schedule as [JSON.parse] delivers it *)

Module Raw.

(** A JSON value; an object is the list of its own properties, each key
    once. *)
#[warnings="-register-all"]
Inductive json : Type :=
| JNull
| JBool (b : bool)
| JNumber (x : float)
| JString (s : string)
| JArray (items : list json)
| JObject (properties : list (string * json)).

(** Truthiness of what a property read gives ([None]: undefined). *)
Definition truthy (v : option json) : bool :=
  match v with
  | None | Some JNull => false
  | Some (JBool b) => b
  | Some (JNumber x) => negb (x =? 0)%float && (x =? x)%float
  | Some (JString s) => negb (String.eqb s "")
  | Some (JArray _) | Some (JObject _) => true
  end.

Fixpoint lookup (key : string) (properties : list (string * json)) :
  option json :=
  match properties with
  | [] => None
  | (k, v) :: rest => if String.eqb k key then Some v else lookup key rest
  end.

(** [v[i]] for a Number [i]: a property of an object, an element of an array,
    a code unit of a string, undefined on a boolean and a number, and a
    TypeError on null. *)
Definition get_index (v : json) (i : JS.num) : JS.completion (option json) :=
  match v with
  | JNull => JS.Throw JS.TypeError
  | JObject properties => JS.Return (lookup (JS.toString i) properties)
  | JArray items =>
      JS.Return
        match i with
        | JS.Int n => if 0 <=? n then nth_error items (Z.to_nat n) else None
        | JS.NaN => None
        end
  | JString s =>
      JS.Return
        match i with
        | JS.Int n =>
            if 0 <=? n then
              match String.get (Z.to_nat n) s with
              | Some c => Some (JString (String c EmptyString))
              | None => None
              end
            else None
        | JS.NaN => None
        end
  | JBool _ | JNumber _ => JS.Return None
  end.

(** [v.name] for a name that no prototype defines ([slots], [start], [end]):
    an own property of an object, undefined on the other values, and a
    TypeError on null and undefined. *)
Definition get (v : option json) (name : string) :
  JS.completion (option json) :=
  match v with
  | None | Some JNull => JS.Throw JS.TypeError
  | Some (JObject properties) => JS.Return (lookup name properties)
  | Some _ => JS.Return None
  end.

(** [parseInt(v.split(':')[0])]: only a string has a [split] to call. *)
Definition hourOf (v : option json) : JS.completion JS.num :=
  match v with
  | Some (JString t) => JS.Return (hourOf t)
  | _ => JS.Throw JS.TypeError
  end.

(** The callback of [daySchedule.slots.some]. *)
Definition slotCovers (hour : JS.num) (slot : json) : JS.completion bool :=
  start ← get (Some slot) "start" ≫= hourOf;
  end_ ← get (Some slot) "end" ≫= hourOf;
  mret (JS.geb hour start && JS.ltb hour end_).

(** [a.some(p)] for a callback that may throw: the search stops at the first
    element that [p] accepts. *)
Fixpoint some {A : Type} (p : A -> JS.completion bool) (a : list A) :
  JS.completion bool :=
  match a with
  | [] => JS.Return false
  | x :: a' => found ← p x; if found : bool then JS.Return true else some p a'
  end.

(** [v.some(p)]: only an array has a [some] to call. *)
Definition call_some (v : option json) (p : json -> JS.completion bool) :
  JS.completion bool :=
  match v with
  | Some (JArray items) => some p items
  | _ => JS.Throw JS.TypeError
  end.

(** A slot as the page expects it: its [start] and its [end] are strings. *)
Definition isSlot (slot : json) : bool :=
  match get (Some slot) "start", get (Some slot) "end" with
  | JS.Return (Some (JString _)), JS.Return (Some (JString _)) => true
  | _, _ => false
  end.

(** The state with the schedule untyped, as [useState<any>] holds it. *)
Record State : Type := {
  bookingDetails : option BookingDetails;
  activeSchedule : json;
  bookings : list Booking;
}.

Definition isSlotAvailable (st : State) (date : JS.Date) (hour : JS.num) :
  JS.completion bool :=
  match bookingDetails st with
  | None => mret false
  | Some _ =>
      if negb (truthy (Some (activeSchedule st))) then mret false
      else
        daySchedule ← get_index (activeSchedule st) (JS.getDay date);
        if negb (truthy daySchedule) then mret false
        else
          slots ← get daySchedule "slots";
          if negb (truthy slots) then mret false
          else
            isInSchedule ← call_some slots (slotCovers hour);
            let bookingExists :=
              existsb (bookingBlocks date hour) (bookings st) in
            mret (isInSchedule && negb bookingExists)
  end.

End Raw.

(** A schedule of the declared types as the JSON value it is parsed from. *)
Definition jsonOfSlot (slot : TimeSlot) : Raw.json :=
  Raw.JObject [ ("start", Raw.JString (start slot));
                ("end", Raw.JString (end_ slot)) ].

Definition jsonOfDay (day : DaySchedule) : Raw.json :=
  Raw.JObject
    match slots day with
    | Some daySlots => [ ("slots", Raw.JArray (List.map jsonOfSlot daySlots)) ]
    | None => []
    end.

Definition jsonOfSchedule (schedule : option (gmap Z DaySchedule)) : Raw.json :=
  match schedule with
  | None => Raw.JNull
  | Some days =>
      Raw.JObject
        (List.map (fun entry => (JS.toString (JS.Int (fst entry)),
                                 jsonOfDay (snd entry)))
           (map_to_list days))
  end.

Definition rawState (st : PageState) : Raw.State :=
  {| Raw.bookingDetails := bookingDetails st;
     Raw.activeSchedule := jsonOfSchedule (activeSchedule st);
     Raw.bookings := bookings st |}.

(** A schedule whose Monday slot has numbers where the page reads strings. *)
Definition malformedSchedule : Raw.State :=
  {| Raw.bookingDetails := Some detailsA;
     Raw.activeSchedule :=
       Raw.JObject
         [ ("1", Raw.JObject
                   [ ("slots", Raw.JArray
                                 [ Raw.JObject [ ("start", Raw.JNumber 9);
                                                 ("end", Raw.JNumber 17) ] ]) ]) ];
     Raw.bookings := [] |}.

(** ** Further scenarios *)

Definition withWindow (startTime endTime : string) (details : BookingDetails) :
  BookingDetails :=
  {| streamerId := streamerId details;
     streamerName := streamerName details;
     date := date details;
     startTime := startTime;
     endTime := endTime;
     platform := platform details;
     price := price details |}.

(** Scenario A asked for 08:00–11:00: the first hour is before the slot. *)
Definition morningWindow : PageState :=
  {| bookingDetails := Some (withWindow "08:00" "11:00" detailsA);
     activeSchedule := activeSchedule scenarioA;
     bookings := [] |}.

(** A window of 2^32 hours. *)
Definition longWindow : PageState :=
  {| bookingDetails := Some (withWindow "0:00" "4294967296:00" detailsA);
     activeSchedule := activeSchedule scenarioA;
     bookings := [] |}.

(** A window that reaches hour 100, inside a slot that covers it. *)
Definition centuryWindow : PageState :=
  {| bookingDetails := Some (withWindow "99:00" "101:00" detailsA);
     activeSchedule :=
       Some {[ 1 := {| slots := Some [ {| start := "00:00"; end_ := "101:00" |} ] |} ]};
     bookings := [] |}.

(** The instant of a Date, in hours. *)
Definition instant (d : JS.Date) : option Z :=
  match d with
  | JS.LocalTime day hours => Some (24 * day + hours)
  | JS.InvalidDate => None
  end.

(** Hour [h] of the calendar day [day] lies between the start of the booking
    and its end. *)
Definition coversHour (booking : Booking) (day h : Z) : bool :=
  match instant (start_time booking), instant (end_time booking) with
  | Some from, Some to => (from <=? 24 * day + h) && (24 * day + h <? to)
  | _, _ => false
  end.

(** A Monday open all day, with a booking from 22:00 to midnight: it ends on
    Tuesday at 00:00. *)
Definition untilMidnight : Booking :=
  {| start_time := JS.LocalTime 19723 22;
     end_time := JS.LocalTime 19724 0;
     status := "accepted" |}.

Definition midnightBooking : PageState :=
  {| bookingDetails := Some detailsA;
     activeSchedule :=
       Some {[ 1 := {| slots := Some [ {| start := "00:00"; end_ := "24:00" |} ] |} ]};
     bookings := [ untilMidnight ] |}.

(** ** Facts about the primitives *)

Lemma digit_cases (d : Z) :
  0 <= d <= 9 ->
  d = 0 \/ d = 1 \/ d = 2 \/ d = 3 \/ d = 4 \/
  d = 5 \/ d = 6 \/ d = 7 \/ d = 8 \/ d = 9.
Proof. lia. Qed.

Ltac each_digit d H :=
  let C := fresh "C" in
  pose proof (digit_cases d H) as C;
  repeat (destruct C as [C | C]; [subst d | ]); try subst d.

Lemma digit_value_char (d : Z) :
  0 <= d <= 9 -> JS.digit_value 10 (JS.digit_char d) = Some d.
Proof. intros H. each_digit d H; reflexivity. Qed.

Lemma parse_digits_digit (d : Z) (acc : option Z) (s : string) :
  0 <= d <= 9 ->
  JS.parse_digits 10 acc (String (JS.digit_char d) s) =
  JS.parse_digits 10 (Some (10 * default 0 acc + d)) s.
Proof. intros H. simpl. now rewrite digit_value_char. Qed.

Lemma append_empty (s : string) : String.append "" s = s.
Proof. reflexivity. Qed.

Lemma append_String (c : ascii) (s t : string) :
  String.append (String c s) t = String c (String.append s t).
Proof. reflexivity. Qed.

Lemma digits_of_app (fuel : nat) (n : Z) (acc s : string) :
  String.append (JS.digits_of fuel n acc) s =
  JS.digits_of fuel n (String.append acc s).
Proof.
  revert n acc. induction fuel as [|fuel IH]; intros n acc; simpl; [easy|].
  destruct (n <? 10); [easy|]. now rewrite IH, append_String.
Qed.

(** Reading back the digits written by [digits_of]: they extend what has
    been read by the number [n]. *)
Lemma parse_digits_of (fuel : nat) :
  forall (n : Z) (rest : string),
    0 <= n <= Z.of_nat fuel -> (1 <= fuel)%nat ->
    exists p, forall a : Z,
      JS.parse_digits 10 (Some a) (JS.digits_of fuel n rest) =
      JS.parse_digits 10 (Some (a * p + n)) rest.
Proof.
  induction fuel as [|fuel IH]; intros n rest Hn Hf; [lia|].
  simpl. destruct (Z.ltb_spec n 10) as [Hlt|Hge].
  - exists 10. intros a. rewrite parse_digits_digit by (rewrite Z.mod_small; lia).
    simpl. rewrite Z.mod_small by lia. f_equal. f_equal. lia.
  - assert (Hdiv : n / 10 <= n - 1) by (apply Z.lt_succ_r; apply Z.div_lt_upper_bound; lia).
    assert (0 <= n / 10) by (apply Z.div_pos; lia).
    destruct (IH (n / 10) (String (JS.digit_char (n mod 10)) rest)) as [p Hp];
      [lia | lia |].
    exists (p * 10). intros a. rewrite Hp.
    rewrite parse_digits_digit by (pose proof (Z.mod_pos_bound n 10); lia).
    simpl. f_equal. f_equal.
    pose proof (Z.div_mod n 10 ltac:(lia)). lia.
Qed.

(** The first digit written for a positive number is not a zero. *)
Lemma digits_of_head (fuel : nat) :
  forall (n : Z) (acc : string),
    1 <= n <= Z.of_nat fuel ->
    exists d rest, 1 <= d <= 9 /\
      JS.digits_of fuel n acc = String (JS.digit_char d) rest.
Proof.
  induction fuel as [|fuel IH]; intros n acc Hn; [lia|].
  simpl. destruct (Z.ltb_spec n 10) as [Hlt|Hge].
  - exists n, acc. rewrite Z.mod_small by lia. split; [lia | reflexivity].
  - apply IH.
    assert (n / 10 <= n - 1) by (apply Z.lt_succ_r; apply Z.div_lt_upper_bound; lia).
    assert (1 <= n / 10) by (apply Z.div_le_lower_bound; lia).
    lia.
Qed.

Lemma digits_of_length (fuel : nat) :
  forall (n : Z) (acc : string),
    (1 <= fuel)%nat ->
    (String.length acc < String.length (JS.digits_of fuel n acc))%nat.
Proof.
  induction fuel as [|fuel IH]; intros n acc Hf; [lia|].
  simpl. destruct (n <? 10) eqn:E; simpl; [lia|].
  destruct fuel as [|fuel'].
  - simpl. clear. lia.
  - specialize (IH (n / 10) (String (JS.digit_char (n mod 10)) acc) ltac:(lia)).
    cbn [String.length] in IH. lia.
Qed.

Lemma parseInt_nonzero_digit (d : Z) (r : string) :
  1 <= d <= 9 ->
  JS.parseInt (String (JS.digit_char d) r) =
  match JS.parse_digits 10 None (String (JS.digit_char d) r) with
  | Some v => JS.Int v
  | None => JS.NaN
  end.
Proof.
  intros H. assert (H' : 0 <= d <= 9) by lia.
  each_digit d H'; try lia; reflexivity.
Qed.

Lemma parseInt_minus_nonzero_digit (d : Z) (r : string) :
  1 <= d <= 9 ->
  JS.parseInt (String "-" (String (JS.digit_char d) r)) =
  match JS.parse_digits 10 None (String (JS.digit_char d) r) with
  | Some v => JS.Int (- v)
  | None => JS.NaN
  end.
Proof.
  intros H. assert (H' : 0 <= d <= 9) by lia.
  each_digit d H'; try lia; reflexivity.
Qed.

(** Every label reads back as the hour it was made from. *)
Lemma parseInt_hourLabel (k : Z) :
  JS.parseInt (hourLabel (JS.Int k)) = JS.Int k.
Proof.
  unfold hourLabel, JS.padStart, JS.toString.
  destruct (Z.ltb_spec k 0) as [Hneg|Hpos].
  - (* negative: a sign and at least one digit, so no padding *)
    set (f := Z.to_nat (- k)).
    assert (Hf : (1 <= f)%nat) by (unfold f; lia).
    pose proof (digits_of_length f (- k) "" Hf) as Hlen.
    replace (2 - String.length (String "-" (JS.digits_of f (- k) "")))%nat
      with 0%nat by (simpl in *; lia).
    cbn [JS.repeat_char]. rewrite ?append_empty, ?append_String.
    rewrite digits_of_app, append_empty.
    destruct (digits_of_head f (- k) ":00") as (d & rest & Hd & E);
      [unfold f; lia|].
    rewrite E, parseInt_minus_nonzero_digit by assumption. rewrite <- E.
    destruct (parse_digits_of f (- k) ":00") as [p Hp]; [unfold f; lia | lia |].
    assert (E0 : JS.parse_digits 10 None (JS.digits_of f (- k) ":00") =
                 JS.parse_digits 10 (Some 0) (JS.digits_of f (- k) ":00")).
    { rewrite E. rewrite !parse_digits_digit by lia. reflexivity. }
    rewrite E0, Hp. simpl. f_equal. lia.
  - destruct (Z.ltb_spec k 10) as [Hlt|Hge].
    + assert (H : 0 <= k <= 9) by lia. each_digit k H; reflexivity.
    + set (f := S (Z.to_nat k)).
      assert (E1 : JS.digits_of f k "" =
                   JS.digits_of (Z.to_nat k) (k / 10)
                     (String (JS.digit_char (k mod 10)) "")).
      { unfold f. simpl. destruct (Z.ltb_spec k 10); [lia | reflexivity]. }
      pose proof (digits_of_length (Z.to_nat k) (k / 10)
                    (String (JS.digit_char (k mod 10)) "") ltac:(lia)) as Hlen.
      rewrite <- E1 in Hlen.
      replace (2 - String.length (JS.digits_of f k ""))%nat
        with 0%nat by (simpl in *; lia).
      cbn [JS.repeat_char]. rewrite ?append_empty, ?append_String.
      rewrite digits_of_app, append_empty.
      destruct (digits_of_head f k ":00") as (d & rest & Hd & E);
        [unfold f; lia|].
      rewrite E, parseInt_nonzero_digit by assumption. rewrite <- E.
      destruct (parse_digits_of f k ":00") as [p Hp]; [unfold f; lia | unfold f; lia |].
      assert (E0 : JS.parse_digits 10 None (JS.digits_of f k ":00") =
                   JS.parse_digits 10 (Some 0) (JS.digits_of f k ":00")).
      { rewrite E. rewrite !parse_digits_digit by lia. reflexivity. }
      rewrite E0, Hp. simpl. reflexivity.
Qed.

Lemma filter_map_comm {A B : Type} (f : A -> B) (p : B -> bool) (l : list A) :
  List.filter p (List.map f l) = List.map f (List.filter (fun x => p (f x)) l).
Proof.
  induction l as [|x l IH]; simpl; [reflexivity|].
  destruct (p (f x)); simpl; now rewrite IH.
Qed.

Lemma map_fmap {A B : Type} (f : A -> B) (l : list A) :
  List.map f l = f <$> l.
Proof. induction l as [|x l IH]; simpl; [reflexivity | now rewrite IH]. Qed.

(** The labels of the hours from [s] on, [n] of them. *)
Lemma Array_from_labels (s n : Z) :
  n <= JS.maxArrayLength ->
  JS.Array_from (JS.Int n) (fun i => hourLabel (JS.add (JS.Int s) (JS.Int i))) =
  JS.Return (hourLabels (seqZ s n)).
Proof.
  intros Hn. unfold JS.Array_from, hourLabels.
  destruct (JS.maxArrayLength <? n) eqn:E; [apply Z.ltb_lt in E; lia|].
  replace (seqZ s n) with (Z.add s <$> seqZ 0 n)
    by (rewrite fmap_add_seqZ; f_equal; lia).
  rewrite <- (map_fmap (Z.add s)), List.map_map. reflexivity.
Qed.

(** A length of 2^32 or more is refused. *)
Lemma Array_from_refused {A : Type} (n : Z) (f : Z -> A) :
  JS.maxArrayLength < n -> JS.Array_from (JS.Int n) f = JS.Throw JS.RangeError.
Proof.
  intros Hn. unfold JS.Array_from.
  destruct (JS.maxArrayLength <? n) eqn:E; [reflexivity|].
  apply Z.ltb_ge in E. lia.
Qed.

Lemma filter_available_labels (st : PageState) (d : JS.Date) (l : list Z) :
  List.filter (fun hour => isSlotAvailable st d (JS.parseInt hour))
    (hourLabels l) =
  hourLabels
    (List.filter (fun h => isSlotAvailable st d (JS.Int h)) l).
Proof.
  unfold hourLabels. rewrite filter_map_comm. f_equal.
  apply List.filter_ext. intros h. now rewrite parseInt_hourLabel.
Qed.

(** A two-digit hour is labelled HH:00. *)
Lemma hourLabel_HH00 (h : Z) : twoDigit h -> hourLabel (JS.Int h) = HH00 h.
Proof.
  intros Hh.
  assert (C : hourLabelChecked = true) by (vm_compute; reflexivity).
  unfold hourLabelChecked in C. rewrite forallb_forall in C.
  apply String.eqb_eq, C. apply list_elem_of_In, elem_of_seqZ.
  unfold twoDigit in Hh. lia.
Qed.

Lemma hourLabels_HH00 (l : list Z) :
  List.Forall twoDigit l -> hourLabels l = List.map HH00 l.
Proof.
  intros H. unfold hourLabels. apply List.map_ext_in. intros h Hin.
  apply hourLabel_HH00. rewrite List.Forall_forall in H. auto.
Qed.

(** The options on a window that [Array.from] accepts. *)
Lemma generateTimeOptions_labels (st : PageState) (details : BookingDetails)
  (s e : Z) :
  bookingDetails st = Some details ->
  hourOf (startTime details) = JS.Int s ->
  hourOf (endTime details) = JS.Int e ->
  e - s <= JS.maxArrayLength ->
  generateTimeOptions st =
  JS.Return
    (hourLabels
       (List.filter (fun h => isSlotAvailable st (date details) (JS.Int h))
          (seqZ s (e - s)))).
Proof.
  intros Hd Hs He Hn. unfold generateTimeOptions. rewrite Hd, Hs, He.
  cbn [JS.sub]. rewrite (Array_from_labels s (e - s) Hn).
  cbn. now rewrite filter_available_labels.
Qed.

(** C6, amended. When the booking details are there and the requested window
    reads as the hours [s] and [e] of 0..100, [generateTimeOptions] returns
    exactly the whole hours of [s, e) that [isSlotAvailable] accepts on the
    booking's date, in ascending order, each written with its two digits
    and [:00].  In scenario A (a Monday slot 09:00–17:00, no bookings,
    window 10:00–13:00 on a Monday) the options are 10:00, 11:00 and 12:00;
    with the window 08:00–11:00 they are 09:00 and 10:00. *)
Theorem generateTimeOptions_window :
  (forall (st : PageState) (details : BookingDetails) (s e : Z),
      bookingDetails st = Some details ->
      hourOf (startTime details) = JS.Int s ->
      hourOf (endTime details) = JS.Int e ->
      0 <= s -> e <= 100 ->
      generateTimeOptions st =
      JS.Return
        (List.map HH00
           (List.filter (fun h => isSlotAvailable st (date details) (JS.Int h))
              (seqZ s (e - s))))) /\
  generateTimeOptions scenarioA = JS.Return ["10:00"; "11:00"; "12:00"] /\
  generateTimeOptions morningWindow = JS.Return ["09:00"; "10:00"].
Proof.
  split; [|split; vm_compute; reflexivity].
  intros st details s e Hd Hs He Hlo Hhi.
  rewrite (generateTimeOptions_labels st details s e Hd Hs He)
    by (unfold JS.maxArrayLength; lia).
  f_equal. apply hourLabels_HH00. apply List.Forall_forall. intros h Hin.
  apply List.filter_In in Hin as [Hin _].
  apply list_elem_of_In, elem_of_seqZ in Hin. unfold twoDigit. lia.
Qed.

Lemma generateTimeOptions_scenario_B :
  bookingDetails scenarioB = Some detailsA /\
  hourOf (startTime detailsA) = JS.Int 10 /\
  hourOf (endTime detailsA) = JS.Int 13 /\
  generateTimeOptions scenarioB = JS.Return ["10:00"].
Proof.
  do 3 (split; [reflexivity|]).
  rewrite (proj1 generateTimeOptions_window scenarioB detailsA 10 13
             eq_refl eq_refl eq_refl ltac:(lia) ltac:(lia)).
  vm_compute. reflexivity.
Defined.

(** A window of 2^32 hours makes [Array.from] throw, so that no options are
    returned; and hour 100 is offered as 100:00, which has six characters
    where HH:00 has five. *)
Lemma generateTimeOptions_beyond_two_digits :
  ~ (forall (st : PageState) (details : BookingDetails) (s e : Z),
        bookingDetails st = Some details ->
        hourOf (startTime details) = JS.Int s ->
        hourOf (endTime details) = JS.Int e ->
        exists options, generateTimeOptions st = JS.Return options) /\
  ~ (forall (st : PageState) (options : list string) (option : string),
        generateTimeOptions st = JS.Return options ->
        In option options -> String.length option = 5%nat).
Proof.
  split.
  - intros H.
    destruct (H longWindow (withWindow "0:00" "4294967296:00" detailsA)
                0 4294967296 eq_refl eq_refl eq_refl) as [options E].
    unfold generateTimeOptions in E. cbn [bookingDetails longWindow] in E.
    change (hourOf (startTime (withWindow "0:00" "4294967296:00" detailsA)))
      with (JS.Int 0) in E.
    change (hourOf (endTime (withWindow "0:00" "4294967296:00" detailsA)))
      with (JS.Int 4294967296) in E.
    cbn [JS.sub] in E. rewrite Array_from_refused in E by reflexivity.
    discriminate.
  - intros H.
    assert (E : generateTimeOptions centuryWindow =
                JS.Return ["99:00"; "100:00"]) by (vm_compute; reflexivity).
    specialize (H centuryWindow _ "100:00" E ltac:(right; left; reflexivity)).
    discriminate.
Qed.

(** ** The availability resolver *)

(** A blocking booking makes the hour unavailable, whatever the schedule. *)
Lemma isSlotAvailable_blocked (st : PageState) (d : JS.Date) (hour : JS.num)
  (b : Booking) :
  In b (bookings st) -> bookingBlocks d hour b = true ->
  isSlotAvailable st d hour = false.
Proof.
  intros Hin Hb. unfold isSlotAvailable.
  destruct (bookingDetails st); [|reflexivity].
  destruct (activeSchedule st) as [schedule|]; [|reflexivity].
  destruct (scheduleOfDay schedule (JS.getDay d)) as [day|]; [|reflexivity].
  destruct (slots day) as [daySlots|]; [|reflexivity].
  assert (E : existsb (bookingBlocks d hour) (bookings st) = true)
    by (apply existsb_exists; eauto).
  rewrite E. apply andb_false_r.
Qed.

(** Whether a booking on the date blocks an hour, in terms of its hours. *)
Lemma bookingBlocks_hours (d : JS.Date) (b : Booking) (s e h : Z) :
  JS.isSameDay d (start_time b) = true ->
  JS.getHours (start_time b) = JS.Int s ->
  JS.getHours (end_time b) = JS.Int e ->
  bookingBlocks d (JS.Int h) b = true <-> s <= h < e \/ (h = e /\ s < e).
Proof.
  intros Hd Hs He. unfold bookingBlocks. rewrite Hd, Hs, He. cbn.
  rewrite orb_true_iff, !andb_true_iff, Z.leb_le, !Z.ltb_lt, Z.eqb_eq.
  tauto.
Qed.

(** For a booking that starts and ends on the same calendar day, the hours
    it covers are those from its start hour up to its end hour. *)
Lemma coversHour_same_day (b : Booking) (day s e h : Z) :
  start_time b = JS.LocalTime day s -> end_time b = JS.LocalTime day e ->
  coversHour b day h = true <-> s <= h < e.
Proof.
  intros Es Ee. unfold coversHour. rewrite Es, Ee. cbn.
  rewrite andb_true_iff, Z.leb_le, Z.ltb_lt. lia.
Qed.

(** C3, amended. Let a booking of the state start and end on the date's
    calendar day, at the hours [s] and [e].  Then every hour that it covers,
    that is every hour of [s, e), is unavailable, and the end hour [e] is
    unavailable whenever [s < e].  The booking itself blocks its end hour
    exactly when [s < e]; when [e <= s] the end hour is available as soon as
    a slot of the day covers it and no other booking blocks it. *)
Theorem isSlotAvailable_booking (st : PageState) (day hours : Z) (b : Booking)
  (s e : Z) :
  In b (bookings st) ->
  start_time b = JS.LocalTime day s ->
  end_time b = JS.LocalTime day e ->
  let d := JS.LocalTime day hours in
  (forall h, coversHour b day h = true <-> s <= h < e) /\
  (forall h, s <= h < e -> isSlotAvailable st d (JS.Int h) = false) /\
  (s < e -> isSlotAvailable st d (JS.Int e) = false) /\
  (bookingBlocks d (JS.Int e) b = true <-> s < e) /\
  (e <= s ->
   forall details schedule daySchedule daySlots,
     bookingDetails st = Some details ->
     activeSchedule st = Some schedule ->
     scheduleOfDay schedule (JS.getDay d) = Some daySchedule ->
     slots daySchedule = Some daySlots ->
     existsb (slotCovers (JS.Int e)) daySlots = true ->
     (forall b', In b' (bookings st) ->
                 bookingBlocks d (JS.Int e) b' = true -> b' = b) ->
     isSlotAvailable st d (JS.Int e) = true).
Proof.
  intros Hin Es Ee d.
  assert (Hd : JS.isSameDay d (start_time b) = true)
    by (rewrite Es; cbn; apply Z.eqb_refl).
  assert (Hs : JS.getHours (start_time b) = JS.Int s) by now rewrite Es.
  assert (He : JS.getHours (end_time b) = JS.Int e) by now rewrite Ee.
  pose proof (fun h => bookingBlocks_hours d b s e h Hd Hs He) as Hb.
  split; [intros h; now apply coversHour_same_day|].
  repeat split.
  - intros h Hh. apply (isSlotAvailable_blocked st d _ b Hin).
    apply Hb; auto.
  - intros Hlt. apply (isSlotAvailable_blocked st d _ b Hin).
    apply Hb; auto.
  - intros H. apply Hb in H; auto. lia.
  - intros H. apply Hb; auto.
  - intros Hle details schedule daySchedule daySlots E1 E2 E3 E4 Hin' Hothers.
    unfold isSlotAvailable. rewrite E1, E2, E3, E4, Hin'. cbn.
    apply negb_true_iff. apply not_true_is_false. intros Hex.
    apply existsb_exists in Hex as (b' & Hb' & Hblocks).
    rewrite (Hothers b' Hb' Hblocks) in Hblocks.
    apply Hb in Hblocks; auto. lia.
Qed.

Lemma isSlotAvailable_booking_scenario_B :
  In (mondayBooking 11 12) (bookings scenarioB) /\
  isSlotAvailable scenarioB monday (JS.Int 11) = false /\
  isSlotAvailable scenarioB monday (JS.Int 12) = false.
Proof.
  assert (Hin : In (mondayBooking 11 12) (bookings scenarioB)) by (left; reflexivity).
  pose proof (isSlotAvailable_booking scenarioB 19723 0 (mondayBooking 11 12)
                11 12 Hin eq_refl eq_refl) as (_ & H1 & H2 & _).
  split; [exact Hin|]. split.
  - apply H1. lia.
  - apply H2. lia.
Defined.

(** The end hour of a booking of length zero is unavailable when it lies
    outside the schedule: "exactly when e > s" fails.  And a booking from
    22:00 to midnight covers the hours 22 and 23 of its day, yet both stay
    available: its end hour is read as 0. *)
Lemma end_hour_unavailable_without_length :
  ~ (forall (st : PageState) (d : JS.Date) (b : Booking) (s e : Z),
        In b (bookings st) ->
        JS.isSameDay d (start_time b) = true ->
        JS.getHours (start_time b) = JS.Int s ->
        JS.getHours (end_time b) = JS.Int e ->
        (isSlotAvailable st d (JS.Int e) = false <-> s < e)) /\
  ~ (forall (st : PageState) (day hours : Z) (b : Booking) (h : Z),
        In b (bookings st) ->
        coversHour b day h = true ->
        isSlotAvailable st (JS.LocalTime day hours) (JS.Int h) = false).
Proof.
  split.
  - intros H.
    assert (Hin : In (mondayBooking 20 20) (bookings zeroLengthBooking))
      by (left; reflexivity).
    destruct (H zeroLengthBooking monday (mondayBooking 20 20) 20 20
                Hin eq_refl eq_refl eq_refl) as [Hlt _].
    specialize (Hlt eq_refl). lia.
  - intros H.
    assert (Hin : In untilMidnight (bookings midnightBooking))
      by (left; reflexivity).
    specialize (H midnightBooking 19723 0 untilMidnight 22 Hin eq_refl).
    vm_compute in H. discriminate.
Qed.

(** ** The resolver on an unchecked schedule *)

Lemma toString_inj (a b : Z) :
  JS.toString (JS.Int a) = JS.toString (JS.Int b) -> a = b.
Proof.
  intros E.
  assert (L : hourLabel (JS.Int a) = hourLabel (JS.Int b))
    by (unfold hourLabel; now rewrite E).
  apply (f_equal JS.parseInt) in L. rewrite !parseInt_hourLabel in L.
  congruence.
Qed.

Lemma toString_not_NaN (a : Z) : JS.toString (JS.Int a) <> "NaN".
Proof.
  intros E. pose proof (parseInt_hourLabel a) as P.
  unfold hourLabel in P. rewrite E in P. vm_compute in P. discriminate.
Qed.

(** The property of a day in the JSON of a typed schedule. *)
Lemma lookup_entries (l : list (Z * DaySchedule)) (d : Z) :
  NoDup (l.*1) ->
  (forall day, (d, day) ∈ l ->
     Raw.lookup (JS.toString (JS.Int d))
       (List.map (fun entry => (JS.toString (JS.Int (fst entry)),
                                jsonOfDay (snd entry))) l) =
     Some (jsonOfDay day)) /\
  (d ∉ l.*1 ->
     Raw.lookup (JS.toString (JS.Int d))
       (List.map (fun entry => (JS.toString (JS.Int (fst entry)),
                                jsonOfDay (snd entry))) l) = None).
Proof.
  induction l as [|[k v] l IH]; intros Hnd.
  - split; [intros day Hin; inversion Hin | reflexivity].
  - cbn in Hnd. apply NoDup_cons in Hnd as [Hk Hnd].
    destruct (IH Hnd) as [IH1 IH2]. cbn [List.map Raw.lookup fst snd].
    destruct (String.eqb_spec (JS.toString (JS.Int k)) (JS.toString (JS.Int d)))
      as [E|N].
    + apply toString_inj in E. subst k. split.
      * intros day Hin. apply elem_of_cons in Hin as [Hin|Hin].
        -- congruence.
        -- exfalso. apply Hk. apply list_elem_of_fmap. exists (d, day). auto.
      * intros Hout. exfalso. apply Hout. cbn. left.
    + split.
      * intros day Hin. apply elem_of_cons in Hin as [Hin|Hin].
        -- inversion Hin. congruence.
        -- now apply IH1.
      * intros Hout. apply IH2. intros Hin. apply Hout. cbn. now right.
Qed.

Lemma lookup_entries_NaN (l : list (Z * DaySchedule)) :
  Raw.lookup "NaN"
    (List.map (fun entry => (JS.toString (JS.Int (fst entry)),
                             jsonOfDay (snd entry))) l) = None.
Proof.
  induction l as [|[k v] l IH]; [reflexivity|].
  cbn [List.map Raw.lookup fst snd].
  destruct (String.eqb_spec (JS.toString (JS.Int k)) "NaN") as [E|_].
  - now apply toString_not_NaN in E.
  - exact IH.
Qed.

Lemma lookup_jsonOfSchedule (days : gmap Z DaySchedule) (d : Z) :
  Raw.lookup (JS.toString (JS.Int d))
    (List.map (fun entry => (JS.toString (JS.Int (fst entry)),
                             jsonOfDay (snd entry))) (map_to_list days)) =
  jsonOfDay <$> days !! d.
Proof.
  destruct (lookup_entries (map_to_list days) d (NoDup_fst_map_to_list days))
    as [H1 H2].
  destruct (days !! d) as [day|] eqn:E.
  - apply H1. now apply elem_of_map_to_list.
  - apply H2. intros Hin. apply list_elem_of_fmap in Hin as ([k v] & Ek & Hin).
    cbn in Ek. subst k. apply elem_of_map_to_list in Hin. congruence.
Qed.

(** On slots of the declared type the callback does not throw. *)
Lemma slotCovers_jsonOfSlot (hour : JS.num) (slot : TimeSlot) :
  Raw.slotCovers hour (jsonOfSlot slot) = JS.Return (slotCovers hour slot).
Proof. reflexivity. Qed.

Lemma some_jsonOfSlot (hour : JS.num) (daySlots : list TimeSlot) :
  Raw.some (Raw.slotCovers hour) (List.map jsonOfSlot daySlots) =
  JS.Return (existsb (slotCovers hour) daySlots).
Proof.
  induction daySlots as [|slot daySlots IH]; [reflexivity|].
  cbn [List.map Raw.some existsb]. rewrite slotCovers_jsonOfSlot. cbn.
  destruct (slotCovers hour slot); [reflexivity | exact IH].
Qed.

(** On a state of the declared types the resolver returns, and what it
    returns is [isSlotAvailable]. *)
Lemma isSlotAvailable_rawState (st : PageState) (d : JS.Date) (hour : JS.num) :
  Raw.isSlotAvailable (rawState st) d hour =
  JS.Return (isSlotAvailable st d hour).
Proof.
  unfold Raw.isSlotAvailable, isSlotAvailable, rawState.
  cbn [Raw.bookingDetails Raw.activeSchedule Raw.bookings].
  destruct (bookingDetails st); [|reflexivity].
  destruct (activeSchedule st) as [days|]; [|reflexivity].
  cbn [jsonOfSchedule Raw.truthy negb Raw.get_index].
  assert (L : Raw.lookup (JS.toString (JS.getDay d))
                (List.map (fun entry => (JS.toString (JS.Int (fst entry)),
                                         jsonOfDay (snd entry)))
                   (map_to_list days)) =
              jsonOfDay <$> scheduleOfDay days (JS.getDay d)).
  { destruct (JS.getDay d) as [|k]; cbn [scheduleOfDay].
    - apply lookup_entries_NaN.
    - apply lookup_jsonOfSchedule. }
  cbn -[JS.toString]. rewrite L.
  destruct (scheduleOfDay days (JS.getDay d)) as [daySchedule|]; [|reflexivity].
  cbn. unfold jsonOfDay.
  destruct (slots daySchedule) as [daySlots|]; [|reflexivity].
  cbn. rewrite some_jsonOfSlot. reflexivity.
Qed.

(** Whatever the schedule holds, the only exception is a TypeError. *)
Lemma bind_Throw {A B : Type} (c : JS.completion A) (k : A -> JS.completion B)
  (e : JS.error) :
  c ≫= k = JS.Throw e ->
  c = JS.Throw e \/ exists a, c = JS.Return a /\ k a = JS.Throw e.
Proof. destruct c as [a|e']; cbn; intros E; [right; eauto | left; congruence]. Qed.

Lemma get_TypeError (v : option Raw.json) (name : string) (e : JS.error) :
  Raw.get v name = JS.Throw e -> e = JS.TypeError.
Proof. destruct v as [[]|]; cbn; congruence. Qed.

Lemma hourOf_TypeError (v : option Raw.json) (e : JS.error) :
  Raw.hourOf v = JS.Throw e -> e = JS.TypeError.
Proof. destruct v as [[]|]; cbn; congruence. Qed.

Lemma slotCovers_TypeError (hour : JS.num) (slot : Raw.json) (e : JS.error) :
  Raw.slotCovers hour slot = JS.Throw e -> e = JS.TypeError.
Proof.
  unfold Raw.slotCovers. intros E.
  apply bind_Throw in E as [E|(s & _ & E)].
  { apply bind_Throw in E as [E|(v & _ & E)];
      [eapply get_TypeError | eapply hourOf_TypeError]; eassumption. }
  apply bind_Throw in E as [E|(s' & _ & E)]; [|discriminate].
  apply bind_Throw in E as [E|(v & _ & E)];
    [eapply get_TypeError | eapply hourOf_TypeError]; eassumption.
Qed.

Lemma some_TypeError (hour : JS.num) (items : list Raw.json) (e : JS.error) :
  Raw.some (Raw.slotCovers hour) items = JS.Throw e -> e = JS.TypeError.
Proof.
  induction items as [|slot items IH]; [discriminate|].
  cbn [Raw.some]. intros E.
  apply bind_Throw in E as [E|(found & _ & E)].
  - now apply slotCovers_TypeError in E.
  - destruct found; [discriminate | auto].
Qed.

Lemma isSlotAvailable_TypeError (st : Raw.State) (d : JS.Date) (hour : JS.num)
  (e : JS.error) :
  Raw.isSlotAvailable st d hour = JS.Throw e -> e = JS.TypeError.
Proof.
  unfold Raw.isSlotAvailable.
  destruct (Raw.bookingDetails st); [|discriminate].
  destruct (Raw.truthy (Some (Raw.activeSchedule st))); [|discriminate].
  cbn [negb]. intros E.
  apply bind_Throw in E as [E|(daySchedule & _ & E)].
  { destruct (Raw.activeSchedule st); cbn in E; congruence. }
  destruct (Raw.truthy daySchedule); [|discriminate]. cbn [negb] in E.
  apply bind_Throw in E as [E|(daySlots & _ & E)].
  { now apply get_TypeError in E. }
  destruct (Raw.truthy daySlots); [|discriminate]. cbn [negb] in E.
  apply bind_Throw in E as [E|(found & _ & E)]; [|discriminate].
  destruct daySlots as [[| | | |items|]|]; cbn in E; try congruence.
  now apply some_TypeError in E.
Qed.

(** On slots with string bounds the search returns. *)
Lemma some_slots_return (hour : JS.num) (items : list Raw.json) :
  forallb Raw.isSlot items = true ->
  exists found, Raw.some (Raw.slotCovers hour) items = JS.Return found.
Proof.
  induction items as [|slot items IH]; [eauto|].
  cbn [forallb Raw.some]. intros H. apply andb_true_iff in H as [Hslot H].
  unfold Raw.isSlot in Hslot. unfold Raw.slotCovers.
  destruct (Raw.get (Some slot) "start") as [[[| | |t| |]|]|]; try discriminate.
  destruct (Raw.get (Some slot) "end") as [[[| | |t'| |]|]|]; try discriminate.
  cbn. destruct (JS.geb hour (hourOf t) && JS.ltb hour (hourOf t')); eauto.
Qed.

(** A first slot that lacks a string bound makes the search throw. *)
Lemma some_first_slot_throws (hour : JS.num) (slot : Raw.json)
  (rest : list Raw.json) :
  Raw.isSlot slot = false ->
  Raw.some (Raw.slotCovers hour) (slot :: rest) = JS.Throw JS.TypeError.
Proof.
  intros Hslot. cbn [Raw.some]. unfold Raw.isSlot in Hslot.
  unfold Raw.slotCovers.
  destruct (Raw.get (Some slot) "start") as [v|e] eqn:S.
  2:{ apply get_TypeError in S. now subst e. }
  destruct v as [[| | |t| |]|]; try reflexivity.
  destruct (Raw.get (Some slot) "end") as [v'|e'] eqn:S'.
  2:{ apply get_TypeError in S'. now subst e'. }
  destruct v' as [[| | |t'| |]|]; try reflexivity.
  discriminate.
Qed.

(** The search throws at the first slot that lacks a string bound, unless a
    slot before it covers the hour. *)
Lemma some_reaches_slot (hour : JS.num) (before : list Raw.json)
  (slot : Raw.json) (rest : list Raw.json) :
  (forall x, In x before -> Raw.slotCovers hour x = JS.Return false) ->
  Raw.isSlot slot = false ->
  Raw.some (Raw.slotCovers hour) (before ++ slot :: rest) =
  JS.Throw JS.TypeError.
Proof.
  intros Hbefore Hslot. induction before as [|x before IH].
  - now apply some_first_slot_throws.
  - cbn [app Raw.some]. rewrite (Hbefore x) by now left. cbn.
    apply IH. intros y Hy. apply Hbefore. now right.
Qed.

(** C7, amended. [isSlotAvailable] answers false when the booking details or
    the weekly schedule are absent, when the schedule has nothing for the
    weekday, and when the weekday's entry has no slot list.  It throws a
    TypeError, and nothing else, when the slot list is not an array or when
    the search reaches a slot that lacks a string as its start or its end,
    no slot before it covering the hour; it returns when the slot list is an
    array of slots with string bounds, and on a schedule of the declared
    types it returns what the typed resolver returns.  A
    failed fetch of the bookings leaves the state as it is, and with an empty
    list of bookings the answer is the schedule's alone: once the schedule of
    scenario A has arrived and the bookings query has failed, 10:00 on a
    Monday is available. *)
Theorem isSlotAvailable_fail_closed :
  (forall (st : Raw.State) (d : JS.Date) (hour : JS.num),
      (Raw.bookingDetails st = None ->
       Raw.isSlotAvailable st d hour = JS.Return false) /\
      (Raw.truthy (Some (Raw.activeSchedule st)) = false ->
       Raw.isSlotAvailable st d hour = JS.Return false) /\
      (forall daySchedule,
          Raw.get_index (Raw.activeSchedule st) (JS.getDay d) =
            JS.Return daySchedule ->
          Raw.truthy daySchedule = false ->
          Raw.isSlotAvailable st d hour = JS.Return false) /\
      (forall daySchedule daySlots,
          Raw.get_index (Raw.activeSchedule st) (JS.getDay d) =
            JS.Return daySchedule ->
          Raw.get daySchedule "slots" = JS.Return daySlots ->
          Raw.truthy daySlots = false ->
          Raw.isSlotAvailable st d hour = JS.Return false) /\
      (forall details daySchedule daySlots,
          Raw.bookingDetails st = Some details ->
          Raw.truthy (Some (Raw.activeSchedule st)) = true ->
          Raw.get_index (Raw.activeSchedule st) (JS.getDay d) =
            JS.Return daySchedule ->
          Raw.truthy daySchedule = true ->
          Raw.get daySchedule "slots" = JS.Return daySlots ->
          Raw.truthy daySlots = true ->
          ((forall items, daySlots <> Some (Raw.JArray items)) ->
           Raw.isSlotAvailable st d hour = JS.Throw JS.TypeError) /\
          (forall before slot rest,
              daySlots = Some (Raw.JArray (before ++ slot :: rest)) ->
              (forall x, In x before ->
                         Raw.slotCovers hour x = JS.Return false) ->
              Raw.isSlot slot = false ->
              Raw.isSlotAvailable st d hour = JS.Throw JS.TypeError) /\
          (forall items,
              daySlots = Some (Raw.JArray items) ->
              forallb Raw.isSlot items = true ->
              exists answer,
                Raw.isSlotAvailable st d hour = JS.Return answer)) /\
      (forall e, Raw.isSlotAvailable st d hour = JS.Throw e ->
                 e = JS.TypeError)) /\
  (forall (st : PageState) (d : JS.Date) (hour : JS.num),
      Raw.isSlotAvailable (rawState st) d hour =
        JS.Return (isSlotAvailable st d hour) /\
      (daySlotsOf st d = None -> isSlotAvailable st d hour = false) /\
      (forall response : Response (list Booking),
          error response <> None -> fetchBookings response st = st) /\
      (forall daySlots,
          daySlotsOf st d = Some daySlots -> bookings st = [] ->
          isSlotAvailable st d hour = existsb (slotCovers hour) daySlots)) /\
  (bookings bookingsUnavailable = [] /\
   Raw.isSlotAvailable (rawState bookingsUnavailable) monday (JS.Int 10) =
     JS.Return true) /\
  Raw.isSlotAvailable malformedSchedule monday (JS.Int 10) =
    JS.Throw JS.TypeError.
Proof.
  split; [|split; [|split; [split; reflexivity | reflexivity]]].
  - intros st d hour. unfold Raw.isSlotAvailable.
    split; [intros ->; reflexivity|].
    split; [intros ->; now destruct (Raw.bookingDetails st)|].
    split; [|split; [|split]].
    + intros daySchedule G T. rewrite G. cbn [mbind completion_bind JS.bind].
      rewrite T.
      destruct (Raw.bookingDetails st); [|reflexivity].
      now destruct (Raw.truthy (Some (Raw.activeSchedule st))).
    + intros daySchedule daySlots G G' T. rewrite G.
      cbn [mbind completion_bind JS.bind]. rewrite G'.
      cbn [mbind completion_bind JS.bind]. rewrite T.
      destruct (Raw.bookingDetails st); [|reflexivity].
      destruct (Raw.truthy (Some (Raw.activeSchedule st))); [|reflexivity].
      now destruct (Raw.truthy daySchedule).
    + intros details daySchedule daySlots Hd T G T1 G' T2.
      rewrite Hd, T, G. cbn [mbind completion_bind JS.bind negb].
      rewrite T1. cbn [negb]. rewrite G'.
      cbn [mbind completion_bind JS.bind negb]. rewrite T2. cbn [negb].
      split; [|split].
      * intros Hshape.
        destruct daySlots as [[| | | |items|]|]; try reflexivity.
        now destruct (Hshape items).
      * intros before slot rest -> Hbefore Hslot. cbn [Raw.call_some].
        now rewrite some_reaches_slot.
      * intros items -> Hslots. cbn [Raw.call_some].
        destruct (some_slots_return hour items Hslots) as [found ->].
        cbn. eauto.
    + apply isSlotAvailable_TypeError.
  - intros st d hour. split; [apply isSlotAvailable_rawState|].
    unfold daySlotsOf, isSlotAvailable, fetchBookings.
    split; [|split].
    + destruct (bookingDetails st); [|reflexivity].
      destruct (activeSchedule st) as [schedule|]; [|reflexivity]. cbn.
      destruct (scheduleOfDay schedule (JS.getDay d)) as [day|]; [|reflexivity].
      cbn. intros ->. reflexivity.
    + intros response Herr. destruct (error response); [reflexivity | congruence].
    + intros daySlots Hs Hb. rewrite Hb.
      destruct (bookingDetails st); [|discriminate].
      destruct (activeSchedule st) as [schedule|]; [|discriminate]. cbn in Hs.
      destruct (scheduleOfDay schedule (JS.getDay d)) as [day|]; [|discriminate].
      cbn in Hs. rewrite Hs. cbn. apply andb_true_r.
Qed.

Lemma isSlotAvailable_fail_closed_initial :
  Raw.bookingDetails (rawState initialState) = None /\
  Raw.isSlotAvailable (rawState initialState) monday (JS.Int 10) =
    JS.Return false.
Proof.
  split; [reflexivity|].
  apply (proj1 isSlotAvailable_fail_closed (rawState initialState) monday
           (JS.Int 10)).
  reflexivity.
Defined.

(** After a failed fetch of the bookings the resolver still answers true for
    an hour of the schedule; and on a schedule whose slot bounds are numbers
    it does not answer at all. *)
Lemma bookings_unavailable_not_closed :
  ~ (forall (response : Response (list Booking)) (st : PageState)
            (d : JS.Date) (hour : JS.num),
        error response <> None ->
        isSlotAvailable (fetchBookings response st) d hour = false) /\
  ~ (forall (st : Raw.State) (d : JS.Date) (hour : JS.num),
        exists answer, Raw.isSlotAvailable st d hour = JS.Return answer).
Proof.
  split.
  - intros H.
    specialize (H {| data := None; error := Some "fetch failed" |}
                  (fetchActiveSchedule
                     {| data := Some (Parsed (activeSchedule scenarioA));
                        error := None |}
                     (setBookingDetails detailsA initialState))
                  monday (JS.Int 10) ltac:(discriminate)).
    vm_compute in H. discriminate.
  - intros H. destruct (H malformedSchedule monday (JS.Int 10)) as [answer E].
    vm_compute in E. discriminate.
Qed.

(** ** The payment-success handler *)

(** C8. When the second dash-separated segment of the order id does not read
    as a number, the body of the handler throws "Invalid booking ID format"
    before it touches anything: the handler returns with the notifications,
    the bookings and the routes as they were, and with the contact-support
    toast as the only new toast. *)
Theorem handlePaymentSuccess_malformed (be : Payment.Backend)
  (order_id : string) (w : Payment.World) :
  JS.isNaN (JS.parseInt10 (JS.at_ (JS.split "-" order_id) 1)) = true ->
  handlePaymentSuccess_try be order_id w = (JS.Throw invalidBookingId, w) /\
  fst (handlePaymentSuccess be order_id w) = JS.Return tt /\
  let w' := snd (handlePaymentSuccess be order_id w) in
  Payment.notifications w' = Payment.notifications w /\
  Payment.bookings w' = Payment.bookings w /\
  Payment.routes w' = Payment.routes w /\
  Payment.toasts w' = (Payment.toasts w ++ [contactSupport])%list.
Proof.
  intros Hnan.
  assert (E : handlePaymentSuccess_try be order_id w =
              (JS.Throw invalidBookingId, w)).
  { unfold handlePaymentSuccess_try. rewrite Hnan. reflexivity. }
  split; [exact E|].
  unfold handlePaymentSuccess, Payment.try_catch. rewrite E.
  repeat split.
Qed.

Lemma handlePaymentSuccess_malformed_scenario_E :
  JS.isNaN (JS.parseInt10 (JS.at_ (JS.split "-" "order-abc-12") 1)) = true /\
  Payment.bookings (snd (handlePaymentSuccess backendE "order-abc-12" worldE)) =
    Payment.bookings worldE /\
  Payment.notifications (snd (handlePaymentSuccess backendE "order-abc-12" worldE)) =
    [] /\
  Payment.toasts (snd (handlePaymentSuccess backendE "order-abc-12" worldE)) =
    [contactSupport].
Proof.
  split; [reflexivity|].
  pose proof (handlePaymentSuccess_malformed backendE "order-abc-12" worldE
                eq_refl) as (_ & _ & Hn & Hb & _ & Ht).
  split; [exact Hb|]. split; [exact Hn | exact Ht].
Defined.

(** ** The price breakdown *)

(** C5. For every price and hour count: [subtotal] is the price times the
    count, [platformFee] is the subtotal times 0.30, [tax] is subtotal plus
    fee times 0.11, and [total] is [Math.round] of the sum of the three, all
    in binary64 arithmetic and with nothing rounded in between.  A price of
    100000 for 2 hours gives 200000, 60000, 28600 and 288600; a price of 500
    for one hour keeps the tax 71.5 and rounds 721.5 up to 722. *)
Theorem price_breakdown :
  (forall (price : float) (hourCount : nat),
      subtotal price hourCount = (price * Number_of_length hourCount)%float /\
      platformFee price hourCount = (subtotal price hourCount * 0.30)%float /\
      tax price hourCount =
        ((subtotal price hourCount + platformFee price hourCount) * 0.11)%float /\
      total price hourCount =
        Math_round (subtotal price hourCount + platformFee price hourCount +
                    tax price hourCount)%float) /\
  (subtotal 100000 2 = 200000 /\ platformFee 100000 2 = 60000 /\
   tax 100000 2 = 28600 /\ total 100000 2 = 288600)%float /\
  (platformFee 500 1 = 150 /\ tax 500 1 = 71.5 /\ total 500 1 = 722 /\
   platformFee 5 1 = 1.5 /\ total 5 1 = 7)%float.
Proof.
  split; [|split]; [intros; repeat split | repeat split ..].
Qed.

(** ** Sorting hourLabels *)

Lemma twoDigit_In (h : Z) : twoDigit h -> In h (seqZ 0 100).
Proof.
  intros H. apply list_elem_of_In, elem_of_seqZ. unfold twoDigit in H. lia.
Qed.

Lemma hourLabel_leb (a b : Z) :
  twoDigit a -> twoDigit b ->
  String.leb (hourLabel (JS.Int a)) (hourLabel (JS.Int b)) = (a <=? b).
Proof.
  intros Ha Hb.
  assert (C : labelOrderChecked = true) by (vm_compute; reflexivity).
  unfold labelOrderChecked in C. rewrite forallb_forall in C.
  specialize (C a (twoDigit_In a Ha)). rewrite forallb_forall in C.
  specialize (C b (twoDigit_In b Hb)). now apply Bool.eqb_prop in C.
Qed.

Lemma hourLabel_inj (a b : Z) :
  hourLabel (JS.Int a) = hourLabel (JS.Int b) -> a = b.
Proof.
  intros E. apply (f_equal JS.parseInt) in E.
  rewrite !parseInt_hourLabel in E. congruence.
Qed.


Lemma hourLabels_cons (x : Z) (l : list Z) :
  hourLabels (x :: l) = hourLabel (JS.Int x) :: hourLabels l.
Proof. reflexivity. Qed.

Lemma sort_insert_labels (x : Z) (l : list Z) :
  twoDigit x -> Forall twoDigit l ->
  JS.sort_insert (hourLabel (JS.Int x)) (hourLabels l) = hourLabels (insertHour x l).
Proof.
  intros Hx Hl. induction Hl as [|y l Hy Hl IH]; [reflexivity|].
  rewrite hourLabels_cons. cbn [JS.sort_insert insertHour].
  rewrite hourLabel_leb by assumption.
  destruct (x <=? y); rewrite ?hourLabels_cons; [reflexivity | now rewrite IH].
Qed.

Lemma insertHour_twoDigit (x : Z) (l : list Z) :
  twoDigit x -> Forall twoDigit l -> Forall twoDigit (insertHour x l).
Proof.
  intros Hx Hl. induction Hl as [|y l Hy Hl IH]; cbn.
  - constructor; [assumption | constructor].
  - destruct (x <=? y); repeat (constructor; try assumption).
Qed.

Lemma sortHours_twoDigit (l : list Z) :
  Forall twoDigit l -> Forall twoDigit (sortHours l).
Proof.
  induction 1 as [|x l Hx Hl IH]; cbn; [constructor|].
  now apply insertHour_twoDigit.
Qed.

Lemma sort_labels (l : list Z) :
  Forall twoDigit l -> JS.sort (hourLabels l) = hourLabels (sortHours l).
Proof.
  induction 1 as [|x l Hx Hl IH]; [reflexivity|].
  rewrite hourLabels_cons. cbn [JS.sort sortHours].
  rewrite IH. apply sort_insert_labels; [assumption|].
  now apply sortHours_twoDigit.
Qed.

(** *** Sorted hours: the first is the least, the last the greatest *)

Lemma insertHour_In (a x : Z) (l : list Z) :
  In a (insertHour x l) <-> a = x \/ In a l.
Proof.
  induction l as [|y l IH]; cbn; [intuition|].
  destruct (x <=? y); cbn; rewrite ?IH; intuition.
Qed.

Lemma sortHours_In (a : Z) (l : list Z) : In a (sortHours l) <-> In a l.
Proof.
  induction l as [|x l IH]; cbn; [tauto|].
  rewrite insertHour_In, IH. intuition.
Qed.

Lemma insertHour_length (x : Z) (l : list Z) :
  length (insertHour x l) = S (length l).
Proof.
  induction l as [|y l IH]; cbn; [reflexivity|].
  destruct (x <=? y); cbn; [reflexivity | now rewrite IH].
Qed.

Lemma sortHours_length (l : list Z) : length (sortHours l) = length l.
Proof.
  induction l as [|x l IH]; cbn; [reflexivity|].
  now rewrite insertHour_length, IH.
Qed.

Lemma insertHour_sorted (x : Z) (l : list Z) :
  StronglySorted Z.le l -> StronglySorted Z.le (insertHour x l).
Proof.
  induction 1 as [|y l Hs IH Hy]; cbn.
  - repeat constructor.
  - destruct (Z.leb_spec x y).
    + constructor; [now constructor|].
      constructor; [assumption|].
      eapply Forall_impl; [exact Hy|]. cbn. intros; lia.
    + constructor; [assumption|].
      apply List.Forall_forall. intros a Ha. apply insertHour_In in Ha as [->|Ha].
      * lia.
      * rewrite List.Forall_forall in Hy. now apply Hy.
Qed.

Lemma sortHours_sorted (l : list Z) : StronglySorted Z.le (sortHours l).
Proof.
  induction l as [|x l IH]; cbn; [constructor | now apply insertHour_sorted].
Qed.

Lemma sorted_hd_least (l : list Z) (d : Z) :
  StronglySorted Z.le l -> forall a, In a l -> hd d l <= a.
Proof.
  intros Hs a Ha. destruct Hs as [|x l Hs Hx]; [contradiction|].
  cbn. destruct Ha as [->|Ha]; [lia|].
  rewrite List.Forall_forall in Hx. now apply Hx.
Qed.

Lemma sorted_last_greatest (l : list Z) (d : Z) :
  StronglySorted Z.le l -> forall a, In a l -> a <= List.last l d.
Proof.
  induction 1 as [|x l Hs IH Hx]; intros a Ha; [contradiction|].
  destruct l as [|y l].
  - destruct Ha as [->|[]]. cbn. lia.
  - change (List.last (x :: y :: l) d) with (List.last (y :: l) d).
    destruct Ha as [<-|Ha]; [|now apply IH].
    assert (x <= y) by (rewrite List.Forall_forall in Hx; apply Hx; now left).
    specialize (IH y ltac:(now left)). lia.
Qed.

Lemma minimum_spec (x : Z) (l : list Z) :
  In (minimum x l) (x :: l) /\ forall a, In a (x :: l) -> minimum x l <= a.
Proof.
  revert x. induction l as [|y l IH]; intros x.
  - cbn. split; [now left|]. intros a [->|[]]. lia.
  - destruct (IH y) as [Hin Hle]. cbn [minimum]. split.
    + destruct (Z.min_spec x (minimum y l)) as [[_ ->]|[_ ->]];
        [now left | now right].
    + intros a [->|Ha]; [lia|]. specialize (Hle a Ha). lia.
Qed.

Lemma maximum_spec (x : Z) (l : list Z) :
  In (maximum x l) (x :: l) /\ forall a, In a (x :: l) -> a <= maximum x l.
Proof.
  revert x. induction l as [|y l IH]; intros x.
  - cbn. split; [now left|]. intros a [->|[]]. lia.
  - destruct (IH y) as [Hin Hle]. cbn [maximum]. split.
    + destruct (Z.max_spec x (maximum y l)) as [[_ ->]|[_ ->]];
        [now right | now left].
    + intros a [->|Ha]; [lia|]. specialize (Hle a Ha). lia.
Qed.

(** The span of two-digit hours is a length that [Array.from] accepts. *)
Lemma span_fits (h : Z) (hs : list Z) :
  twoDigit h -> Forall twoDigit hs ->
  maximum h hs - minimum h hs + 1 <= JS.maxArrayLength.
Proof.
  intros Hh Hhs.
  assert (Hall : forall x, In x (h :: hs) -> twoDigit x).
  { intros x [<-|Hin]; [exact Hh|].
    rewrite List.Forall_forall in Hhs. auto. }
  destruct (minimum_spec h hs) as [Hmin _].
  destruct (maximum_spec h hs) as [Hmax _].
  apply Hall in Hmin, Hmax. unfold twoDigit in Hmin, Hmax.
  unfold JS.maxArrayLength. lia.
Qed.

Lemma In_hd {A : Type} (l : list A) (d : A) : l <> [] -> In (hd d l) l.
Proof. destruct l; [congruence | now left]. Qed.

Lemma In_last {A : Type} (l : list A) (d : A) : l <> [] -> In (List.last l d) l.
Proof.
  induction l as [|x l IH]; [congruence|]. intros _.
  destruct l as [|y l]; [now left|].
  right. apply IH. discriminate.
Qed.

Lemma In_app_single {A : Type} (a h : A) (hs : list A) :
  In a (hs ++ [h])%list <-> In a (h :: hs).
Proof. rewrite in_app_iff. cbn. tauto. Qed.

(** The first and the last of the sorted hours [hs ++ [h]]. *)
Lemma sortHours_hd (h : Z) (hs : list Z) (d : Z) :
  hd d (sortHours (hs ++ [h])) = minimum h hs.
Proof.
  set (l := (hs ++ [h])%list).
  assert (Hne : sortHours l <> []).
  { intros E. apply (f_equal (@length Z)) in E.
    rewrite sortHours_length in E. unfold l in E.
    rewrite length_app in E. cbn in E. lia. }
  destruct (minimum_spec h hs) as [Hin Hle].
  pose proof (In_hd (sortHours l) d Hne) as Hhd.
  apply Z.le_antisymm.
  - apply sorted_hd_least; [apply sortHours_sorted|].
    apply sortHours_In. now apply In_app_single.
  - apply Hle. apply In_app_single. now apply sortHours_In.
Qed.

Lemma sortHours_last (h : Z) (hs : list Z) (d : Z) :
  List.last (sortHours (hs ++ [h])) d = maximum h hs.
Proof.
  set (l := (hs ++ [h])%list).
  assert (Hne : sortHours l <> []).
  { intros E. apply (f_equal (@length Z)) in E.
    rewrite sortHours_length in E. unfold l in E.
    rewrite length_app in E. cbn in E. lia. }
  destruct (maximum_spec h hs) as [Hin Hle].
  pose proof (In_last (sortHours l) d Hne) as Hlast.
  apply Z.le_antisymm.
  - apply Hle. apply In_app_single. now apply sortHours_In.
  - apply sorted_last_greatest; [apply sortHours_sorted|].
    apply sortHours_In. now apply In_app_single.
Qed.

(** ** The toggler *)

Lemma filter_never_throws {A : Type} (p : A -> bool) (a : list A) :
  JS.filter (fun x => JS.Return (p x)) a = JS.Return (List.filter p a).
Proof.
  induction a as [|x a IH]; [reflexivity|].
  cbn. rewrite IH. cbn. now destruct (p x).
Qed.

Lemma at_first (a : list string) : JS.at_ a 0 = hd "undefined" a.
Proof. now destruct a. Qed.

Lemma at_last (a : list string) :
  JS.at_ a (length a - 1) = List.last a "undefined".
Proof.
  unfold JS.at_. induction a as [|x a IH]; [reflexivity|].
  destruct a as [|y a]; [reflexivity|].
  replace (length (x :: y :: a) - 1)%nat with (S (length (y :: a) - 1))
    by (cbn [length]; lia).
  change (List.last (x :: y :: a) "undefined")
    with (List.last (y :: a) "undefined").
  rewrite <- IH. reflexivity.
Qed.

Lemma hd_hourLabels (l : list Z) (d : Z) :
  l <> [] -> hd "undefined" (hourLabels l) = hourLabel (JS.Int (hd d l)).
Proof. destruct l; [congruence | reflexivity]. Qed.

Lemma last_hourLabels (l : list Z) (d : Z) :
  l <> [] ->
  List.last (hourLabels l) "undefined" = hourLabel (JS.Int (List.last l d)).
Proof.
  induction l as [|x l IH]; [congruence|]. intros _.
  destruct l as [|y l]; [reflexivity|].
  rewrite hourLabels_cons.
  change (List.last (x :: y :: l) d) with (List.last (y :: l) d).
  rewrite <- IH by discriminate. reflexivity.
Qed.

Lemma includes_hourLabels (h : Z) (hs : list Z) :
  JS.includes (hourLabels hs) (hourLabel (JS.Int h)) = true <-> In h hs.
Proof.
  unfold JS.includes, hourLabels. rewrite existsb_exists. split.
  - intros (x & Hx & E). apply in_map_iff in Hx as (y & <- & Hy).
    apply String.eqb_eq, hourLabel_inj in E. now subst.
  - intros Hin. exists (hourLabel (JS.Int h)). split.
    + apply in_map_iff. now exists h.
    + apply String.eqb_refl.
Qed.

Lemma hourLabels_app (l1 l2 : list Z) :
  hourLabels (l1 ++ l2) = (hourLabels l1 ++ hourLabels l2)%list.
Proof. apply List.map_app. Qed.

Lemma hourLabels_length (l : list Z) : length (hourLabels l) = length l.
Proof. apply List.length_map. Qed.

(** Adding a new hour to a selection that is not empty: the span between the
    least and the greatest hour, filtered by availability. *)
Lemma handleHourSelection_add (st : PageState) (details : BookingDetails)
  (h : Z) (hs : list Z) :
  bookingDetails st = Some details ->
  hs <> [] -> twoDigit h -> Forall twoDigit hs -> ~ In h hs ->
  handleHourSelection st (hourLabel (JS.Int h)) (hourLabels hs) =
  JS.Return
    (hourLabels
       (spanSelection (fun x => isSlotAvailable st (date details) (JS.Int x))
          h hs)).
Proof.
  intros Hd Hne Hh Hhs Hnew. unfold handleHourSelection.
  destruct (JS.includes (hourLabels hs) (hourLabel (JS.Int h))) eqn:E.
  { apply includes_hourLabels in E. contradiction. }
  clear E.
  assert (Hall : Forall twoDigit (hs ++ [h])).
  { apply Forall_app. split; [assumption|]. now constructor. }
  change [hourLabel (JS.Int h)] with (hourLabels [h]).
  rewrite <- hourLabels_app, sort_labels by assumption.
  set (sorted := sortHours (hs ++ [h])).
  assert (Hlen : length sorted = S (length hs)).
  { unfold sorted. rewrite sortHours_length, length_app. cbn. lia. }
  assert (Hsorted : sorted <> []) by (intros E; rewrite E in Hlen; discriminate).
  rewrite hourLabels_length, Hlen.
  destruct (Z.ltb_spec 1 (Z.of_nat (S (length hs)))) as [_|Hshort].
  2:{ destruct hs; [congruence | cbn in Hshort; lia]. }
  rewrite <- Hlen, <- (hourLabels_length sorted), at_first, at_last.
  rewrite (hd_hourLabels sorted 0), (last_hourLabels sorted 0) by assumption.
  rewrite !parseInt_hourLabel. unfold sorted.
  rewrite sortHours_hd, sortHours_last.
  change (JS.add (JS.sub (JS.Int (maximum h hs)) (JS.Int (minimum h hs)))
            (JS.Int 1))
    with (JS.Int (maximum h hs - minimum h hs + 1)).
  rewrite Array_from_labels, Hd by now apply span_fits.
  cbn [mbind completion_bind JS.bind].
  change (fun h0 : string =>
            nonNull (Some details) ≫= _) with
    (fun h0 : string =>
       JS.Return (isSlotAvailable st (date details) (JS.parseInt h0))).
  rewrite filter_never_throws, filter_available_labels.
  reflexivity.
Qed.

Lemma handleHourSelection_first (st : PageState) (hour : string) :
  handleHourSelection st hour [] = JS.Return [hour].
Proof. reflexivity. Qed.

Lemma handleHourSelection_remove (st : PageState) (hour : string)
  (sel : list string) :
  JS.includes sel hour = true ->
  handleHourSelection st hour sel =
  JS.Return (List.filter (fun h => negb (String.eqb h hour)) sel).
Proof. intros E. unfold handleHourSelection. now rewrite E. Qed.

(** C1, amended. For a selection of two-digit hours that is not empty and a
    new two-digit hour, [handleHourSelection] returns the labels of the
    inclusive span from the least to the greatest of these hours, in ascending
    order, restricted to the hours that [isSlotAvailable] accepts.  On the
    empty selection it returns the new hour alone, without asking the
    resolver.  In scenario D (11:00 unavailable, 12:00 available) toggling
    12:00 on the selection 10:00 gives 10:00 and 12:00. *)
Theorem handleHourSelection_adds_span :
  (forall (st : PageState) (details : BookingDetails) (h : Z) (hs : list Z),
      bookingDetails st = Some details ->
      hs <> [] -> twoDigit h -> Forall twoDigit hs -> ~ In h hs ->
      handleHourSelection st (hourLabel (JS.Int h)) (hourLabels hs) =
      JS.Return
        (hourLabels
           (spanSelection
              (fun x => isSlotAvailable st (date details) (JS.Int x)) h hs))) /\
  (forall (st : PageState) (hour : string),
      handleHourSelection st hour [] = JS.Return [hour]) /\
  (isSlotAvailable scenarioD monday (JS.Int 11) = false /\
   isSlotAvailable scenarioD monday (JS.Int 12) = true /\
   handleHourSelection scenarioD "12:00" ["10:00"] =
     JS.Return ["10:00"; "12:00"]).
Proof.
  split; [exact handleHourSelection_add|].
  split; [exact handleHourSelection_first|].
  repeat split.
Qed.

Lemma handleHourSelection_scenario_D :
  bookingDetails scenarioD = Some detailsA /\
  [10] <> [] /\ twoDigit 12 /\ Forall twoDigit [10] /\ ~ In 12 [10] /\
  handleHourSelection scenarioD "12:00" ["10:00"] =
    JS.Return ["10:00"; "12:00"].
Proof.
  assert (H10 : twoDigit 10) by (unfold twoDigit; lia).
  assert (H12 : twoDigit 12) by (unfold twoDigit; lia).
  assert (Hnew : ~ In 12 [10]) by (intros [E|[]]; discriminate).
  assert (Hall : Forall twoDigit [10]) by (constructor; [exact H10 | constructor]).
  split; [reflexivity|]. split; [discriminate|]. split; [exact H12|].
  split; [exact Hall|]. split; [exact Hnew|].
  change (handleHourSelection scenarioD (hourLabel (JS.Int 12)) (hourLabels [10]) =
          JS.Return ["10:00"; "12:00"]).
  rewrite (proj1 handleHourSelection_adds_span scenarioD detailsA 12 [10]
             eq_refl ltac:(discriminate) H12 Hall Hnew).
  vm_compute. reflexivity.
Defined.

(** On the empty selection the new hour is kept without asking the resolver. *)
Lemma first_hour_is_not_filtered :
  ~ (forall (st : PageState) (details : BookingDetails) (h : Z) (hs : list Z),
        bookingDetails st = Some details ->
        twoDigit h -> Forall twoDigit hs -> ~ In h hs ->
        handleHourSelection st (hourLabel (JS.Int h)) (hourLabels hs) =
        JS.Return
          (hourLabels
             (spanSelection
                (fun x => isSlotAvailable st (date details) (JS.Int x)) h hs))).
Proof.
  intros H.
  specialize (H scenarioD detailsA 11 [] eq_refl ltac:(unfold twoDigit; lia)
                ltac:(constructor) ltac:(intros [])).
  vm_compute in H. discriminate.
Qed.

(** *** Runs of hours *)

Lemma seqZ_In (x m n : Z) : In x (seqZ m n) <-> m <= x < m + n.
Proof. rewrite <- list_elem_of_In. apply elem_of_seqZ. Qed.

Lemma seqZ_ascending (n : nat) :
  forall m, StronglySorted Z.lt (seqZ m (Z.of_nat n)).
Proof.
  induction n as [|n IH]; intros m.
  - rewrite seqZ_nil by lia. constructor.
  - rewrite seqZ_cons by lia.
    replace (Z.pred (Z.of_nat (S n))) with (Z.of_nat n) by lia.
    constructor; [apply IH|].
    apply List.Forall_forall. intros x Hx. apply seqZ_In in Hx. lia.
Qed.

Lemma filter_ascending (p : Z -> bool) (l : list Z) :
  StronglySorted Z.lt l -> StronglySorted Z.lt (List.filter p l).
Proof.
  induction 1 as [|x l Hs IH Hx]; cbn; [constructor|].
  destruct (p x); [|assumption].
  constructor; [assumption|].
  rewrite List.Forall_forall in *. intros a Ha.
  apply filter_In in Ha as [Ha _]. now apply Hx.
Qed.

Lemma filter_all {A : Type} (p : A -> bool) (l : list A) :
  (forall x, In x l -> p x = true) -> List.filter p l = l.
Proof.
  induction l as [|x l IH]; intros H; cbn; [reflexivity|].
  rewrite (H x) by now left. f_equal. apply IH. intros; apply H; now right.
Qed.







(** *** Toggling twice *)

Lemma filter_out_last (h : Z) (hs : list Z) :
  ~ In h hs ->
  List.filter (fun x => negb (String.eqb x (hourLabel (JS.Int h))))
    (hourLabels (hs ++ [h])) = hourLabels hs.
Proof.
  intros Hnew. rewrite hourLabels_app, List.filter_app.
  change (hourLabels [h]) with [hourLabel (JS.Int h)]. cbn [List.filter].
  rewrite String.eqb_refl. cbn [negb]. rewrite app_nil_r.
  apply filter_all. intros x Hx. unfold hourLabels in Hx.
  apply in_map_iff in Hx as (y & <- & Hy).
  apply negb_true_iff, String.eqb_neq. intros E.
  apply hourLabel_inj in E. now subst.
Qed.

Lemma seqZ_snoc (m : Z) (n : Z) :
  0 <= n -> seqZ m (n + 1) = (seqZ m n ++ [m + n])%list.
Proof. intros Hn. rewrite seqZ_app by lia. f_equal. Qed.

Lemma minimum_run (lo n : Z) :
  0 < n -> minimum (lo + n) (seqZ lo n) = lo.
Proof.
  intros Hn. destruct (minimum_spec (lo + n) (seqZ lo n)) as [Hin Hle].
  apply Z.le_antisymm.
  - apply Hle. right. apply seqZ_In. lia.
  - destruct Hin as [<-|Hin]; [lia|]. apply seqZ_In in Hin. lia.
Qed.

Lemma maximum_run (lo n : Z) :
  0 < n -> maximum (lo + n) (seqZ lo n) = lo + n.
Proof.
  intros Hn. destruct (maximum_spec (lo + n) (seqZ lo n)) as [Hin Hle].
  apply Z.le_antisymm.
  - destruct Hin as [<-|Hin]; [lia|]. apply seqZ_In in Hin. lia.
  - apply Hle. now left.
Qed.

Lemma toggle_twice_empty (st : PageState) (hour : string) :
  handleHourSelection st hour [] ≫= handleHourSelection st hour = JS.Return [].
Proof.
  rewrite handleHourSelection_first.
  change (JS.Return ?a ≫= ?k) with (k a).
  rewrite handleHourSelection_remove.
  - cbn [List.filter]. now rewrite String.eqb_refl.
  - unfold JS.includes. cbn [existsb]. now rewrite String.eqb_refl.
Qed.

(** The least and the greatest of a set of hours given by its elements. *)
Lemma minimum_eq (h lo : Z) (l : list Z) :
  In lo (h :: l) -> (forall x, In x (h :: l) -> lo <= x) -> minimum h l = lo.
Proof.
  intros Hin Hle. destruct (minimum_spec h l) as [Hin' Hle'].
  apply Z.le_antisymm; [now apply Hle' | now apply Hle].
Qed.

Lemma maximum_eq (h hi : Z) (l : list Z) :
  In hi (h :: l) -> (forall x, In x (h :: l) -> x <= hi) -> maximum h l = hi.
Proof.
  intros Hin Hle. destruct (maximum_spec h l) as [Hin' Hle'].
  apply Z.le_antisymm; [now apply Hle | now apply Hle'].
Qed.

Section Run.

Variables (st : PageState) (details : BookingDetails).
Hypothesis Hdetails : bookingDetails st = Some details.

(** The run of [n] hours from [lo] on, all of them available. *)
Variables lo n : Z.
Hypothesis Hn : 0 < n.
Hypothesis Hlo : twoDigit lo.
Hypothesis Hhi : twoDigit (lo + n - 1).
Hypothesis Hrun :
  forall x, lo <= x < lo + n ->
            isSlotAvailable st (date details) (JS.Int x) = true.

Let toggle (hour : string) (sel : list string) :=
  handleHourSelection st hour sel.

Lemma run_twoDigit : Forall twoDigit (seqZ lo n).
Proof using Hlo Hhi.
  apply List.Forall_forall. intros x Hx. apply seqZ_In in Hx.
  unfold twoDigit in *. lia.
Qed.

(** The hour after the run. *)
Lemma toggle_twice_after :
  twoDigit (lo + n) ->
  isSlotAvailable st (date details) (JS.Int (lo + n)) = true ->
  toggle (hourLabel (JS.Int (lo + n))) (hourLabels (seqZ lo n))
    ≫= toggle (hourLabel (JS.Int (lo + n))) =
  JS.Return (hourLabels (seqZ lo n)).
Proof using Hdetails Hn Hlo Hhi Hrun.
  intros Hh Ha. unfold toggle.
  assert (Hnew : ~ In (lo + n) (seqZ lo n)) by (rewrite seqZ_In; lia).
  assert (Hne : seqZ lo n <> []) by (rewrite seqZ_cons by lia; discriminate).
  rewrite (handleHourSelection_add st details (lo + n) (seqZ lo n))
    by (assumption || apply run_twoDigit).
  unfold spanSelection. rewrite minimum_run, maximum_run by lia.
  replace (lo + n - lo + 1) with (n + 1) by lia.
  rewrite filter_all.
  2:{ intros x Hx. apply seqZ_In in Hx.
      destruct (Z.eq_dec x (lo + n)) as [->|]; [assumption | apply Hrun; lia]. }
  rewrite seqZ_snoc by lia.
  change (JS.Return ?a ≫= ?k) with (k a).
  rewrite handleHourSelection_remove.
  - now rewrite filter_out_last.
  - apply includes_hourLabels, in_app_iff. right. now left.
Qed.

(** The hour before the run. *)
Lemma toggle_twice_before :
  twoDigit (lo - 1) ->
  isSlotAvailable st (date details) (JS.Int (lo - 1)) = true ->
  toggle (hourLabel (JS.Int (lo - 1))) (hourLabels (seqZ lo n))
    ≫= toggle (hourLabel (JS.Int (lo - 1))) =
  JS.Return (hourLabels (seqZ lo n)).
Proof using Hdetails Hn Hlo Hhi Hrun.
  intros Hh Ha. unfold toggle.
  assert (Hnew : ~ In (lo - 1) (seqZ lo n)) by (rewrite seqZ_In; lia).
  assert (Hne : seqZ lo n <> []) by (rewrite seqZ_cons by lia; discriminate).
  rewrite (handleHourSelection_add st details (lo - 1) (seqZ lo n))
    by (assumption || apply run_twoDigit).
  unfold spanSelection.
  rewrite (minimum_eq (lo - 1) (lo - 1)), (maximum_eq (lo - 1) (lo + n - 1)).
  2:{ right. apply seqZ_In. lia. }
  2:{ intros x [<-|Hx]; [lia | apply seqZ_In in Hx; lia]. }
  2:{ now left. }
  2:{ intros x [<-|Hx]; [lia | apply seqZ_In in Hx; lia]. }
  replace (lo + n - 1 - (lo - 1) + 1) with (n + 1) by lia.
  rewrite filter_all.
  2:{ intros x Hx. apply seqZ_In in Hx.
      destruct (Z.eq_dec x (lo - 1)) as [->|]; [assumption | apply Hrun; lia]. }
  rewrite seqZ_cons by lia.
  replace (Z.succ (lo - 1)) with lo by lia.
  replace (Z.pred (n + 1)) with n by lia.
  change (JS.Return ?a ≫= ?k) with (k a).
  rewrite handleHourSelection_remove.
  - rewrite hourLabels_cons. cbn [List.filter].
    rewrite String.eqb_refl. cbn [negb]. f_equal.
    apply filter_all. intros x Hx. unfold hourLabels in Hx.
    apply in_map_iff in Hx as (y & <- & Hy).
    apply negb_true_iff, String.eqb_neq. intros E.
    apply hourLabel_inj in E. now subst.
  - apply includes_hourLabels. now left.
Qed.

(** An hour of the run. *)
Lemma toggle_twice_inside (h : Z) :
  lo <= h < lo + n ->
  toggle (hourLabel (JS.Int h)) (hourLabels (seqZ lo n))
    ≫= toggle (hourLabel (JS.Int h)) =
  JS.Return (hourLabels (seqZ lo n)).
Proof using Hdetails Hn Hlo Hhi Hrun.
  intros Hh. unfold toggle.
  assert (Hin : In h (seqZ lo n)) by (apply seqZ_In; lia).
  rewrite handleHourSelection_remove by now apply includes_hourLabels.
  change (JS.Return ?a ≫= ?k) with (k a).
  set (rest := List.filter (fun x => negb (x =? h)) (seqZ lo n)).
  assert (Erest :
            List.filter (fun x => negb (String.eqb x (hourLabel (JS.Int h))))
              (hourLabels (seqZ lo n)) = hourLabels rest).
  { unfold hourLabels, rest. rewrite filter_map_comm. f_equal.
    apply List.filter_ext. intros x. f_equal.
    destruct (Z.eqb_spec x h) as [->|Hne]; [apply String.eqb_refl|].
    apply String.eqb_neq. intros E. now apply hourLabel_inj in E. }
  rewrite Erest.
  assert (Hrest : forall x, In x rest <-> (lo <= x < lo + n /\ x <> h)).
  { intros x. unfold rest. rewrite filter_In, seqZ_In, negb_true_iff, Z.eqb_neq.
    reflexivity. }
  assert (Hh2 : twoDigit h) by (unfold twoDigit in *; lia).
  destruct (Z.eq_dec n 1) as [->|Hn1].
  - (* the run was the hour alone *)
    assert (rest = []) as ->.
    { destruct rest as [|x r] eqn:E; [reflexivity|].
      assert (In x (x :: r)) as Hx by now left.
      apply Hrest in Hx. lia. }
    cbn [hourLabels List.map]. rewrite handleHourSelection_first.
    replace h with lo by lia. reflexivity.
  - assert (Hnew : ~ In h rest) by (rewrite Hrest; lia).
    assert (Hne : rest <> []).
    { intros E. destruct (Z.eq_dec h lo) as [->|].
      - assert (In (lo + 1) rest) as Hx by (apply Hrest; lia).
        now rewrite E in Hx.
      - assert (In lo rest) as Hx by (apply Hrest; lia). now rewrite E in Hx. }
    assert (Hall : Forall twoDigit rest).
    { apply List.Forall_forall. intros x Hx. apply Hrest in Hx.
      unfold twoDigit in *. lia. }
    rewrite (handleHourSelection_add st details h rest) by assumption.
    unfold spanSelection.
    rewrite (minimum_eq h lo), (maximum_eq h (lo + n - 1)).
    2:{ destruct (Z.eq_dec h (lo + n - 1)) as [->|]; [now left|].
        right. apply Hrest. lia. }
    2:{ intros x [<-|Hx]; [lia | apply Hrest in Hx; lia]. }
    2:{ destruct (Z.eq_dec h lo) as [->|]; [now left|].
        right. apply Hrest. lia. }
    2:{ intros x [<-|Hx]; [lia | apply Hrest in Hx; lia]. }
    replace (lo + n - 1 - lo + 1) with n by lia.
    rewrite filter_all; [reflexivity|].
    intros x Hx. apply seqZ_In in Hx. now apply Hrun.
Qed.

End Run.

(** C4, amended. Toggling the same hour twice gives the selection back when
    the selection is a run of consecutive available hours and the hour is one
    of the run or the available hour right before or right after it, and when
    the selection is empty. *)
Theorem toggle_twice_on_run :
  (forall (st : PageState) (details : BookingDetails) (lo n h : Z),
      bookingDetails st = Some details ->
      0 < n -> twoDigit lo -> twoDigit (lo + n - 1) ->
      lo - 1 <= h <= lo + n -> twoDigit h ->
      (forall x, Z.min lo h <= x <= Z.max (lo + n - 1) h ->
                 isSlotAvailable st (date details) (JS.Int x) = true) ->
      let hour := hourLabel (JS.Int h) in
      let sel := hourLabels (seqZ lo n) in
      handleHourSelection st hour sel ≫= handleHourSelection st hour =
      JS.Return sel) /\
  (forall (st : PageState) (hour : string),
      handleHourSelection st hour [] ≫= handleHourSelection st hour =
      JS.Return []).
Proof.
  split; [|exact toggle_twice_empty].
  intros st details lo n h Hd Hn Hlo Hhi Hh Hh2 Hall hour sel.
  assert (Hrun : forall x, lo <= x < lo + n ->
                           isSlotAvailable st (date details) (JS.Int x) = true)
    by (intros x Hx; apply Hall; lia).
  unfold hour, sel.
  destruct (Z.eq_dec h (lo + n)) as [->|Hne1];
    [|destruct (Z.eq_dec h (lo - 1)) as [->|Hne2]].
  - apply (toggle_twice_after st details Hd lo n); try assumption.
    apply Hall. lia.
  - apply (toggle_twice_before st details Hd lo n); try assumption.
    apply Hall. lia.
  - apply (toggle_twice_inside st details Hd lo n); try assumption. lia.
Qed.

Lemma toggle_twice_scenario_A :
  bookingDetails scenarioA = Some detailsA /\
  twoDigit 10 /\ twoDigit (10 + 2 - 1) /\ twoDigit 12 /\
  handleHourSelection scenarioA "12:00" ["10:00"; "11:00"]
    ≫= handleHourSelection scenarioA "12:00" =
  JS.Return ["10:00"; "11:00"].
Proof.
  assert (H10 : twoDigit 10) by (unfold twoDigit; lia).
  assert (H11 : twoDigit (10 + 2 - 1)) by (unfold twoDigit; lia).
  assert (H12 : twoDigit 12) by (unfold twoDigit; lia).
  split; [reflexivity|]. split; [exact H10|]. split; [exact H11|].
  split; [exact H12|].
  apply (proj1 toggle_twice_on_run scenarioA detailsA 10 2 12 eq_refl
           ltac:(lia) H10 H11 ltac:(lia) H12).
  intros x Hx.
  assert (C : x = 10 \/ x = 11 \/ x = 12) by lia.
  destruct C as [C|[C|C]]; subst x; reflexivity.
Defined.

(** The hours filled in by the first toggle stay after the second. *)
Lemma toggle_twice_not_restored :
  ~ (forall (st : PageState) (hour : string) (sel : list string),
        handleHourSelection st hour sel ≫= handleHourSelection st hour =
        JS.Return sel).
Proof.
  intros H. specialize (H scenarioA "12:00" ["10:00"]).
  vm_compute in H. discriminate.
Qed.

(** ** The initial selection *)

(** What a toggle that adds to a selection returns is available. *)
Lemma hourLabels_available (st : PageState) (d : JS.Date) (l : list Z) :
  forallb (fun t => isSlotAvailable st d (JS.parseInt t))
    (hourLabels (List.filter (fun x => isSlotAvailable st d (JS.Int x)) l)) =
  true.
Proof.
  apply forallb_forall. intros t Hin. unfold hourLabels in Hin.
  apply List.in_map_iff in Hin as (x & <- & Hin).
  apply List.filter_In in Hin as [_ Hx]. now rewrite parseInt_hourLabel.
Qed.

(** C10, amended. On load, when the URL has a [startTime] and an [endTime]
    that read as the hours [s] and [e], safe integers with no more than
    2^32 - 1 hours from [s] to [e], the selection becomes the labels of every
    whole hour of [s, e): the computation does not see the page state, so
    nothing is filtered.  Such a selection can hold an hour that a booking
    blocks (11:00 in scenario B) or that lies outside the schedule (08:00 in
    scenario A).  The resolver is asked only by a toggle that adds an hour to
    a selection that is not empty: what such a toggle returns holds available
    hours only.  A toggle that removes an hour returns the other hours as
    they are: in scenario B, removing 10:00 from the loaded selection leaves
    11:00 selected although it is booked. *)
Theorem selectedHoursOnLoad_unfiltered :
  (forall (startTime endTime : string) (s e : Z) (prev : list string),
      startTime <> "" -> endTime <> "" ->
      hourOf startTime = JS.Int s -> hourOf endTime = JS.Int e ->
      safeInteger s -> safeInteger e -> e - s <= JS.maxArrayLength ->
      selectedHoursOnLoad (Some startTime) (Some endTime) prev =
      JS.Return (hourLabels (seqZ s (e - s)))) /\
  (selectedHoursOnLoad (Some "10:00") (Some "13:00") [] =
     JS.Return ["10:00"; "11:00"; "12:00"] /\
   isSlotAvailable scenarioB monday (JS.parseInt "11:00") = false /\
   selectedHoursOnLoad (Some "08:00") (Some "10:00") [] =
     JS.Return ["08:00"; "09:00"] /\
   isSlotAvailable scenarioA monday (JS.parseInt "08:00") = false) /\
  (forall (st : PageState) (details : BookingDetails) (h : Z) (hs : list Z),
      bookingDetails st = Some details ->
      hs <> [] -> twoDigit h -> Forall twoDigit hs -> ~ In h hs ->
      exists selected,
        handleHourSelection st (hourLabel (JS.Int h)) (hourLabels hs) =
          JS.Return selected /\
        forallb (fun t => isSlotAvailable st (date details) (JS.parseInt t))
          selected = true) /\
  (forall (st : PageState) (hour : string) (prev : list string),
      JS.includes prev hour = true ->
      handleHourSelection st hour prev =
      JS.Return (List.filter (fun t => negb (String.eqb t hour)) prev)) /\
  (handleHourSelection scenarioB "13:00" ["10:00"; "11:00"; "12:00"] =
     JS.Return ["10:00"; "13:00"] /\
   handleHourSelection scenarioB "10:00" ["10:00"; "11:00"; "12:00"] =
     JS.Return ["11:00"; "12:00"]).
Proof.
  split; [|split; [repeat split; vm_compute; reflexivity|]].
  { intros startTime endTime s e prev Hs He Es Ee _ _ Hn.
    unfold selectedHoursOnLoad, truthy.
    change (default "" (Some startTime)) with startTime.
    change (default "" (Some endTime)) with endTime.
    apply String.eqb_neq in Hs, He. rewrite Hs, He, Es, Ee.
    cbn [negb andb JS.sub]. now apply Array_from_labels. }
  split; [|split; [exact handleHourSelection_remove |
                   split; vm_compute; reflexivity]].
  intros st details h hs Hd Hne Hh Hhs Hnew.
  rewrite (handleHourSelection_add st details h hs Hd Hne Hh Hhs Hnew).
  eexists. split; [reflexivity|]. apply hourLabels_available.
Qed.

Lemma selectedHoursOnLoad_scenario :
  "08:00" <> "" /\ "11:00" <> "" /\
  selectedHoursOnLoad (Some "08:00") (Some "11:00") [] =
    JS.Return ["08:00"; "09:00"; "10:00"].
Proof.
  split; [discriminate|]. split; [discriminate|].
  rewrite (proj1 selectedHoursOnLoad_unfiltered "08:00" "11:00" 8 11 []
             ltac:(discriminate) ltac:(discriminate) eq_refl eq_refl
             ltac:(unfold safeInteger; lia) ltac:(unfold safeInteger; lia)
             ltac:(unfold JS.maxArrayLength; lia)).
  vm_compute. reflexivity.
Defined.

(** A window of 2^32 hours makes the load effect throw before it sets the
    selection; and after a toggle that removes an hour a booked hour can
    still be selected. *)
Lemma selectedHoursOnLoad_long_window :
  ~ (forall (startTime endTime : string) (s e : Z) (prev : list string),
        startTime <> "" -> endTime <> "" ->
        hourOf startTime = JS.Int s -> hourOf endTime = JS.Int e ->
        exists selected,
          selectedHoursOnLoad (Some startTime) (Some endTime) prev =
          JS.Return selected) /\
  ~ (forall (st : PageState) (details : BookingDetails) (hour : string)
            (prev selected : list string),
        bookingDetails st = Some details ->
        handleHourSelection st hour prev = JS.Return selected ->
        forallb (fun t => isSlotAvailable st (date details) (JS.parseInt t))
          selected = true).
Proof.
  split.
  - intros H.
    destruct (H "0:00" "4294967296:00" 0 4294967296 []
                ltac:(discriminate) ltac:(discriminate) eq_refl eq_refl)
      as [selected E].
    unfold selectedHoursOnLoad in E.
    change (default "" (Some "0:00")) with "0:00" in E.
    change (default "" (Some "4294967296:00")) with "4294967296:00" in E.
    change (truthy "0:00" && truthy "4294967296:00") with true in E.
    change (hourOf "0:00") with (JS.Int 0) in E.
    change (hourOf "4294967296:00") with (JS.Int 4294967296) in E.
    cbn [JS.sub] in E. rewrite Array_from_refused in E by reflexivity.
    discriminate.
  - intros H.
    specialize (H scenarioB detailsA "10:00" ["10:00"; "11:00"; "12:00"]
                  ["11:00"; "12:00"] eq_refl eq_refl).
    vm_compute in H. discriminate.
Qed.

(** ** Binary64 arithmetic *)

Lemma fexp_64 (x : Z) : fexp prec emax x = Z.max (x - 53) (-1074).
Proof. reflexivity. Qed.

Lemma digits2_log2 (m : positive) :
  Z.pos (digits2_pos m) = Z.log2 (Z.pos m) + 1.
Proof.
  induction m as [m IH|m IH|]; cbn [digits2_pos].
  - rewrite Pos2Z.inj_succ, IH, Pos2Z.inj_xI, Z.log2_succ_double by lia. lia.
  - rewrite Pos2Z.inj_succ, IH, Pos2Z.inj_xO, Z.log2_double by lia. lia.
  - reflexivity.
Qed.

(** *** Shifting right with a round bit and a sticky bit *)

Lemma shr_1_spec (m : Z) (r s : bool) :
  0 <= m ->
  shr_1 {| shr_m := m; shr_r := r; shr_s := s |} =
  {| shr_m := m / 2; shr_r := Z.odd m; shr_s := r || s |}.
Proof.
  intros Hm. destruct m as [|[p|p|]|p]; try lia; cbn [shr_1].
  - reflexivity.
  - f_equal. rewrite Pos2Z.inj_xI.
    apply (Z.div_unique _ _ _ 1); lia.
  - f_equal. rewrite Pos2Z.inj_xO.
    apply (Z.div_unique _ _ _ 0); lia.
  - reflexivity.
Qed.

Lemma iter_pos_nat {A : Type} (f : A -> A) (p : positive) (x : A) :
  SpecFloat.iter_pos f p x = Nat.iter (Pos.to_nat p) f x.
Proof.
  revert x. induction p as [p IH|p IH|]; intros x; cbn [SpecFloat.iter_pos].
  - rewrite !IH, Pos2Nat.inj_xI.
    replace (S (2 * Pos.to_nat p))%nat
      with (Pos.to_nat p + (Pos.to_nat p + 1))%nat by lia.
    rewrite !Nat.iter_add. reflexivity.
  - rewrite !IH, Pos2Nat.inj_xO.
    replace (2 * Pos.to_nat p)%nat with (Pos.to_nat p + Pos.to_nat p)%nat by lia.
    rewrite Nat.iter_add. reflexivity.
  - reflexivity.
Qed.

Lemma shr_nat (m : Z) (k : nat) :
  0 <= m ->
  Nat.iter (S k) shr_1 {| shr_m := m; shr_r := false; shr_s := false |} =
  {| shr_m := m / 2 ^ Z.of_nat (S k);
     shr_r := Z.odd (m / 2 ^ Z.of_nat k);
     shr_s := negb (m mod 2 ^ Z.of_nat k =? 0) |}.
Proof.
  intros Hm. induction k as [|k IH].
  - cbn [Nat.iter]. rewrite shr_1_spec by assumption.
    change (2 ^ Z.of_nat 1) with 2. change (2 ^ Z.of_nat 0) with 1.
    rewrite Z.div_1_r, Z.mod_1_r. reflexivity.
  - change (Nat.iter (S (S k)) shr_1 ?x) with (shr_1 (Nat.iter (S k) shr_1 x)).
    rewrite IH, shr_1_spec by (apply Z.div_pos; lia).
    assert (P : 0 < 2 ^ Z.of_nat k) by (apply Z.pow_pos_nonneg; lia).
    assert (E1 : 2 ^ Z.of_nat (S k) = 2 ^ Z.of_nat k * 2)
      by (rewrite Nat2Z.inj_succ, Z.pow_succ_r by lia; lia).
    assert (E2 : 2 ^ Z.of_nat (S (S k)) = 2 ^ Z.of_nat (S k) * 2)
      by (rewrite (Nat2Z.inj_succ (S k)), Z.pow_succ_r by lia; lia).
    f_equal.
    + rewrite E2, Z.div_div by lia. reflexivity.
    + (* the sticky bit: the remainder modulo 2^(k+1) is zero *)
      rewrite E1, Z.rem_mul_r by lia.
      set (q := m / 2 ^ Z.of_nat k). set (t := m mod 2 ^ Z.of_nat k).
      assert (Ht : 0 <= t < 2 ^ Z.of_nat k) by (apply Z.mod_pos_bound; lia).
      rewrite (Zmod_odd q).
      destruct (Z.odd q); destruct (Z.eqb_spec t 0) as [Et|Et]; cbn;
        symmetry; first [apply negb_true_iff, Z.eqb_neq
                        | apply negb_false_iff, Z.eqb_eq]; nia.
Qed.

Lemma shr_pos (m : Z) (p : positive) :
  0 <= m ->
  SpecFloat.iter_pos shr_1 p {| shr_m := m; shr_r := false; shr_s := false |} =
  {| shr_m := m / 2 ^ Z.pos p;
     shr_r := Z.odd (m / 2 ^ (Z.pos p - 1));
     shr_s := negb (m mod 2 ^ (Z.pos p - 1) =? 0) |}.
Proof.
  intros Hm. rewrite iter_pos_nat.
  destruct (Pos2Nat.is_succ p) as [k Hk]. rewrite Hk, shr_nat by assumption.
  replace (Z.of_nat (S k)) with (Z.pos p) by lia.
  replace (Z.of_nat k) with (Z.pos p - 1) by lia. reflexivity.
Qed.

(** *** Rounding to nearest, ties to even *)

Lemma rne_div_bounds (v u : Z) : v / u <= rne_div v u <= v / u + 1.
Proof.
  unfold rne_div. destruct (2 * (v mod u) <? u); [lia|].
  destruct (2 * (v mod u) =? u); [|lia].
  destruct (Z.even (v / u)); lia.
Qed.

Lemma rne_div_exact (a u : Z) : 0 < u -> rne_div (a * u) u = a.
Proof.
  intros Hu. unfold rne_div.
  rewrite Z.mod_mul, Z.div_mul by lia.
  destruct (Z.ltb_spec (2 * 0) u); [reflexivity | lia].
Qed.

Lemma rne_div_mono (v1 v2 u : Z) :
  0 < u -> v1 <= v2 -> rne_div v1 u <= rne_div v2 u.
Proof.
  intros Hu Hv.
  assert (Ha : v1 / u <= v2 / u) by (apply Z.div_le_mono; lia).
  destruct (Z.eq_dec (v1 / u) (v2 / u)) as [E|NE].
  - assert (Hr : v1 mod u <= v2 mod u).
    { rewrite !Z.mod_eq by lia. rewrite E. lia. }
    unfold rne_div. rewrite E.
    destruct (Z.ltb_spec (2 * (v1 mod u)) u), (Z.ltb_spec (2 * (v2 mod u)) u);
      destruct (Z.eqb_spec (2 * (v1 mod u)) u), (Z.eqb_spec (2 * (v2 mod u)) u);
      destruct (Z.even (v2 / u)); lia.
  - pose proof (rne_div_bounds v1 u). pose proof (rne_div_bounds v2 u). lia.
Qed.

Lemma rne_div_scale (v u c : Z) :
  0 < u -> 0 < c -> rne_div (v * c) (u * c) = rne_div v u.
Proof.
  intros Hu Hc. unfold rne_div.
  rewrite Z.div_mul_cancel_r, Z.mul_mod_distr_r by lia.
  destruct (Z.ltb_spec (2 * (v mod u * c)) (u * c)), (Z.ltb_spec (2 * (v mod u)) u);
    destruct (Z.eqb_spec (2 * (v mod u * c)) (u * c)), (Z.eqb_spec (2 * (v mod u)) u);
    try reflexivity; nia.
Qed.

Lemma rne_shr (m : Z) (p : positive) :
  0 <= m ->
  let mrs :=
    SpecFloat.iter_pos shr_1 p
      {| shr_m := m; shr_r := false; shr_s := false |} in
  round_nearest_even (shr_m mrs) (loc_of_shr_record mrs) =
  rne_div m (2 ^ Z.pos p).
Proof.
  intros Hm mrs. unfold mrs. rewrite shr_pos by assumption. clear mrs.
  set (h := 2 ^ (Z.pos p - 1)).
  assert (Hh : 0 < h) by (apply Z.pow_pos_nonneg; lia).
  assert (Eu : 2 ^ Z.pos p = h * 2).
  { unfold h. replace (Z.pos p) with (Z.succ (Z.pos p - 1)) at 1 by lia.
    rewrite Z.pow_succ_r by lia. lia. }
  rewrite Eu. unfold rne_div.
  rewrite Z.rem_mul_r, <- Z.div_div by lia.
  set (q := m / h). set (t := m mod h).
  assert (Ht : 0 <= t < h) by (apply Z.mod_pos_bound; lia).
  pose proof (Zmod_odd q) as Hq. pose proof (Z.div_mod q 2 ltac:(lia)) as Dq.
  cbn [shr_m loc_of_shr_record].
  destruct (Z.odd q); rewrite Hq.
  - destruct (Z.eqb_spec t 0) as [Et|Et]; cbn [negb round_nearest_even].
    + destruct (Z.ltb_spec (2 * (t + h * 1)) (h * 2)); [lia|].
      destruct (Z.eqb_spec (2 * (t + h * 1)) (h * 2)); [reflexivity | lia].
    + destruct (Z.ltb_spec (2 * (t + h * 1)) (h * 2)); [lia|].
      destruct (Z.eqb_spec (2 * (t + h * 1)) (h * 2)); [lia | reflexivity].
  - destruct (Z.ltb_spec (2 * (t + h * 0)) (h * 2)); [|lia].
    destruct (negb (t =? 0)); reflexivity.
Qed.

(** *** [binary_round_aux] on a positive mantissa *)

Lemma pow2_pos (k : Z) : 0 <= k -> 0 < 2 ^ k.
Proof. intros. apply Z.pow_pos_nonneg; lia. Qed.

Lemma log2_bounds (v : Z) :
  0 < v -> 2 ^ Z.log2 v <= v < 2 ^ (Z.log2 v + 1).
Proof. intros Hv. apply Z.log2_spec in Hv. now rewrite <- Z.add_1_r in Hv. Qed.

Lemma div_pow2_upper (v a b : Z) :
  0 <= a -> 0 <= b -> v < 2 ^ (a + b) -> v / 2 ^ a < 2 ^ b.
Proof.
  intros Ha Hb Hv. apply Z.div_lt_upper_bound; [now apply pow2_pos|].
  now rewrite <- Z.pow_add_r.
Qed.

Lemma div_pow2_lower (v a b : Z) :
  0 <= a -> 0 <= b -> 2 ^ (a + b) <= v -> 2 ^ b <= v / 2 ^ a.
Proof.
  intros Ha Hb Hv. apply Z.div_le_lower_bound; [now apply pow2_pos|].
  now rewrite <- Z.pow_add_r.
Qed.

Lemma shr_round (m e n : Z) :
  0 <= m -> 0 <= n ->
  forall mrs e',
    shr {| shr_m := m; shr_r := false; shr_s := false |} e n = (mrs, e') ->
    round_nearest_even (shr_m mrs) (loc_of_shr_record mrs) = rne_div m (2 ^ n) /\
    e' = e + n.
Proof.
  intros Hm Hn mrs e' E. unfold shr in E. destruct n as [|p|p]; [| |lia].
  - inversion E; subst. cbn [shr_m loc_of_shr_record round_nearest_even].
    split; [|lia]. change (2 ^ 0) with 1.
    rewrite <- (Z.mul_1_r m) at 2. now rewrite rne_div_exact.
  - inversion E; subst. split; [|reflexivity]. now apply rne_shr.
Qed.

Lemma binary_round_aux_pack (m : positive) (e n : Z) :
  n = fexp prec emax (Z.pos (digits2_pos m) + e) - e ->
  0 <= n ->
  binary_round_aux prec emax false (Z.pos m) e loc_Exact =
  pack (rne_div (Z.pos m) (2 ^ n)) (e + n).
Proof.
  intros En Hn. unfold binary_round_aux.
  (* the first shift *)
  assert (E1 : shr_fexp prec emax (Z.pos m) e loc_Exact =
               shr {| shr_m := Z.pos m; shr_r := false; shr_s := false |} e n)
    by (rewrite En; reflexivity).
  rewrite E1. clear E1.
  set (M := rne_div (Z.pos m) (2 ^ n)).
  pose proof (shr_round (Z.pos m) e n ltac:(lia) Hn) as HM. fold M in HM.
  destruct (shr _ e n) as [mrs e'].
  destruct (HM mrs e' eq_refl) as [-> ->]. clear HM.
  (* the mantissa after rounding has at most 54 bits *)
  pose proof (digits2_log2 m) as Hd. pose proof (log2_bounds (Z.pos m) ltac:(lia)) as Hl.
  assert (HE : -1074 <= e + n /\ Z.log2 (Z.pos m) + 1 - 53 <= n).
  { rewrite fexp_64 in En. lia. }
  assert (HM : 0 <= M <= 2 ^ 53).
  { pose proof (rne_div_bounds (Z.pos m) (2 ^ n)) as Hb. fold M in Hb.
    assert (0 <= Z.pos m / 2 ^ n) by (apply Z.div_pos; [lia | now apply pow2_pos]).
    assert (Z.pos m / 2 ^ n < 2 ^ 53).
    { apply div_pow2_upper; [lia | lia |].
      eapply Z.lt_le_trans; [apply Hl|]. apply Z.pow_le_mono_r; lia. }
    lia. }
  unfold pack. set (E := e + n) in *.
  destruct (Z.eqb_spec M (2 ^ 53)) as [EM|NM].
  - (* a carry into the 54th bit: one more shift *)
    rewrite EM.
    assert (E2 : shr_fexp prec emax (2 ^ 53) E loc_Exact =
                 ({| shr_m := 2 ^ 52; shr_r := false; shr_s := false |}, E + 1)).
    { unfold shr_fexp.
      replace (fexp prec emax (Zdigits2 (2 ^ 53) + E) - E) with 1
        by (change (Zdigits2 (2 ^ 53)) with 54; rewrite fexp_64; lia).
      reflexivity. }
    rewrite E2. reflexivity.
  - assert (E2 : shr_fexp prec emax M E loc_Exact =
                 ({| shr_m := M; shr_r := false; shr_s := false |}, E)).
    { unfold shr_fexp, shr. cbn [shr_record_of_loc].
      destruct M as [|pM|pM]; [| |lia].
      - cbn [Zdigits2]. rewrite fexp_64.
        destruct (Z.max (0 + E - 53) (-1074) - E) eqn:X; try reflexivity; lia.
      - cbn [Zdigits2]. rewrite digits2_log2, fexp_64.
        pose proof (log2_bounds (Z.pos pM) ltac:(lia)) as HlM.
        assert (Z.log2 (Z.pos pM) < 53).
        { apply Z.log2_lt_pow2; lia. }
        destruct (Z.max (Z.log2 (Z.pos pM) + 1 + E - 53) (-1074) - E) eqn:X;
          try reflexivity; lia. }
    rewrite E2. cbn [shr_m]. reflexivity.
Qed.

(** *** Floats as rounded values *)

Lemma SFleb_finite (m1 m2 : positive) (e1 e2 : Z) :
  SFleb (S754_finite false m1 e1) (S754_finite false m2 e2) = true <->
  e1 < e2 \/ (e1 = e2 /\ Z.pos m1 <= Z.pos m2).
Proof.
  unfold SFleb, SFcompare. rewrite Pos.compare_cont_spec. cbn [Pos.switch_Eq].
  destruct (Z.compare_spec e1 e2) as [E|L|G];
    [destruct (Pos.compare_spec m1 m2) as [E'|L'|G'] | |];
    cbn; split; intros H; try discriminate; try reflexivity; lia.
Qed.

Lemma SFleb_zero_l (s : bool) (x : spec_float) :
  nonneg x -> SFleb (S754_zero s) x = true.
Proof. destruct x as [s'|[|]| |[|] m e]; cbn; easy. Qed.

Lemma SFleb_infinity_r (x : spec_float) :
  nonneg x -> SFleb x (S754_infinity false) = true.
Proof. destruct x as [s'|[|]| |[|] m e]; cbn; easy. Qed.

Lemma pack_nonneg (M E : Z) : 0 <= M -> nonneg (pack M E).
Proof.
  intros HM. unfold pack. destruct (M =? 2 ^ 53).
  - cbn. now destruct (E + 1 <=? 971).
  - destruct M as [|p|p]; [exact I | | lia]. now destruct (E <=? 971).
Qed.

(** Two packed floats compare as their exponents, then their mantissas. *)
Lemma pack_le (M1 E1 M2 E2 : Z) :
  0 <= M1 <= 2 ^ 53 -> 0 <= M2 <= 2 ^ 53 ->
  (E1 = E2 /\ M1 <= M2) \/ (E1 < E2 /\ 2 ^ 52 <= M2) ->
  SFleb (pack M1 E1) (pack M2 E2) = true.
Proof.
  intros H1 H2 H.
  assert (P53 : 2 ^ 53 = 9007199254740992) by reflexivity.
  assert (P52 : 2 ^ 52 = 4503599627370496) by reflexivity.
  unfold pack.
  destruct (Z.eqb_spec M1 (2 ^ 53)) as [C1|C1];
    destruct (Z.eqb_spec M2 (2 ^ 53)) as [C2|C2].
  - (* both carry *)
    change (2 ^ 52) with (Z.pos 4503599627370496).
    destruct (Z.leb_spec (E1 + 1) 971), (Z.leb_spec (E2 + 1) 971);
      try reflexivity; try lia.
    apply SFleb_finite. lia.
  - (* only the first carries: its exponent had to be smaller *)
    change (2 ^ 52) with (Z.pos 4503599627370496).
    destruct M2 as [|p2|p2]; [lia | | lia].
    destruct (Z.leb_spec (E1 + 1) 971), (Z.leb_spec E2 971);
      try reflexivity; try lia.
    apply SFleb_finite. lia.
  - change (2 ^ 52) with (Z.pos 4503599627370496).
    destruct M1 as [|p1|p1]; [| | lia].
    + apply SFleb_zero_l. now destruct (E2 + 1 <=? 971).
    + destruct (Z.leb_spec E1 971), (Z.leb_spec (E2 + 1) 971);
        try reflexivity; try lia.
      apply SFleb_finite. lia.
  - destruct M1 as [|p1|p1]; [| | lia].
    + apply SFleb_zero_l. destruct M2 as [|p2|p2]; [exact I | | lia]. now destruct (E2 <=? 971).
    + destruct M2 as [|p2|p2]; [lia | | lia].
      destruct (Z.leb_spec E1 971), (Z.leb_spec E2 971);
        try reflexivity; try lia.
      apply SFleb_finite. lia.
Qed.

Section Rounding.

Variable B : Z.
Hypothesis HB : 1074 <= B.

Lemma val_pos (m : positive) (e : Z) : 0 <= e + B -> 0 < val B m e.
Proof. intros He. unfold val. pose proof (pow2_pos (e + B) He). nia. Qed.

Lemma log2_val (m : positive) (e : Z) :
  0 <= e + B ->
  Z.log2 (val B m e) + 1 - B = Z.pos (digits2_pos m) + e.
Proof.
  intros He. unfold val. rewrite Z.log2_mul_pow2, digits2_log2 by lia. lia.
Qed.

Lemma RN_nonneg (v : Z) : nonneg (RN B v).
Proof.
  unfold RN. destruct (Z.leb_spec v 0) as [Hv|Hv]; [exact I|].
  apply pack_nonneg.
  assert (Hf : 0 <= fexp prec emax (Z.log2 v + 1 - B) + B)
    by (rewrite fexp_64; lia).
  pose proof (rne_div_bounds v (2 ^ (fexp prec emax (Z.log2 v + 1 - B) + B))).
  assert (0 <= v / 2 ^ (fexp prec emax (Z.log2 v + 1 - B) + B))
    by (apply Z.div_pos; [lia | now apply pow2_pos]).
  lia.
Qed.

(** The mantissa that [RN] packs has at most 54 bits, and 53 significant
    ones above the least exponent. *)
Lemma RN_mantissa (v : Z) :
  0 < v ->
  let f := fexp prec emax (Z.log2 v + 1 - B) in
  let M := rne_div v (2 ^ (f + B)) in
  0 <= M <= 2 ^ 53 /\ (-1074 < f -> 2 ^ 52 <= M).
Proof.
  intros Hv f M.
  assert (Hf : 0 <= f + B /\ Z.log2 v + 1 - B - 53 <= f)
    by (unfold f; rewrite fexp_64; lia).
  pose proof (log2_bounds v Hv) as Hl.
  pose proof (Z.log2_nonneg v) as Hl0.
  pose proof (rne_div_bounds v (2 ^ (f + B))) as Hb. fold M in Hb.
  assert (0 <= v / 2 ^ (f + B)) by (apply Z.div_pos; [lia | apply pow2_pos; lia]).
  assert (v / 2 ^ (f + B) < 2 ^ 53).
  { apply div_pow2_upper; [lia | lia |].
    eapply Z.lt_le_trans; [apply Hl|]. apply Z.pow_le_mono_r; lia. }
  split; [lia|]. intros Hmin.
  assert (Ef : f = Z.log2 v + 1 - B - 53) by (unfold f in *; rewrite fexp_64 in *; lia).
  assert (2 ^ 52 <= v / 2 ^ (f + B)).
  { apply div_pow2_lower; [lia | lia |].
    replace (f + B + 52) with (Z.log2 v) by lia. apply Hl. }
  lia.
Qed.

Lemma RN_mono (v1 v2 : Z) : v1 <= v2 -> SFleb (RN B v1) (RN B v2) = true.
Proof.
  intros Hv. unfold RN at 1. destruct (Z.leb_spec v1 0) as [H1|H1].
  { apply SFleb_zero_l, RN_nonneg. }
  unfold RN. destruct (Z.leb_spec v2 0) as [H2|H2]; [lia|].
  destruct (RN_mantissa v1 H1) as [Hm1 _].
  destruct (RN_mantissa v2 H2) as [Hm2 Hn2].
  set (f1 := fexp prec emax (Z.log2 v1 + 1 - B)) in *.
  set (f2 := fexp prec emax (Z.log2 v2 + 1 - B)) in *.
  assert (Hf : f1 <= f2).
  { unfold f1, f2. rewrite !fexp_64.
    pose proof (Z.log2_le_mono v1 v2 Hv). lia. }
  apply pack_le; [assumption | assumption |].
  destruct (Z.eq_dec f1 f2) as [E|NE].
  - left. split; [assumption|]. rewrite E.
    apply rne_div_mono; [|assumption].
    apply pow2_pos. unfold f2. rewrite fexp_64. lia.
  - right. split; [lia|]. apply Hn2.
    assert (-1074 <= f1) by (unfold f1; rewrite fexp_64; lia). lia.
Qed.

(** [binary_round_aux] computes [RN] of the value it is given. *)
Lemma binary_round_aux_RN (m : positive) (e : Z) :
  0 <= e + B ->
  0 <= fexp prec emax (Z.pos (digits2_pos m) + e) - e ->
  binary_round_aux prec emax false (Z.pos m) e loc_Exact = RN B (val B m e).
Proof.
  intros He Hn.
  remember (fexp prec emax (Z.pos (digits2_pos m) + e) - e) as n eqn:En.
  rewrite (binary_round_aux_pack m e n En Hn).
  pose proof (val_pos m e He) as Hv.
  unfold RN. destruct (Z.leb_spec (val B m e) 0) as [H0|_]; [lia|].
  rewrite log2_val by assumption.
  replace (fexp prec emax (Z.pos (digits2_pos m) + e)) with (e + n)
    by (rewrite En; ring).
  f_equal. unfold val.
  replace (e + n + B) with (n + (e + B)) by lia.
  rewrite (Z.pow_add_r 2 n (e + B)) by lia.
  symmetry. apply rne_div_scale; apply pow2_pos; lia.
Qed.

Lemma iter_xO (m d : positive) :
  Z.pos (Pos.iter xO m d) = Z.pos m * 2 ^ Z.pos d.
Proof.
  induction d as [|d IH] using Pos.peano_ind.
  - cbn [Pos.iter]. rewrite Pos2Z.inj_xO. change (2 ^ 1) with 2. lia.
  - rewrite Pos.iter_succ, Pos2Z.inj_xO, IH, Pos2Z.inj_succ, Z.pow_succ_r by lia.
    lia.
Qed.

Lemma shl_align_val (m : positive) (e e' : Z) :
  e' <= e ->
  Z.pos (fst (shl_align m e e')) = Z.pos m * 2 ^ (e - e') /\
  snd (shl_align m e e') = e'.
Proof.
  intros He. unfold shl_align. destruct (e' - e) as [|d|d] eqn:D; try lia.
  - cbn [fst snd]. replace (e - e') with 0 by lia. cbn. lia.
  - cbn [fst snd]. rewrite iter_xO. split; [|reflexivity].
    f_equal. f_equal. lia.
Qed.

Lemma shl_align_keep (m : positive) (e e' : Z) :
  e <= e' -> shl_align m e e' = (m, e).
Proof.
  intros He. unfold shl_align. destruct (e' - e) as [|d|d] eqn:D; try lia;
    reflexivity.
Qed.

(** [binary_round] computes [RN] of the value it is given. *)
Lemma binary_round_RN (m : positive) (e : Z) :
  0 <= e + B -> binary_round prec emax false m e = RN B (val B m e).
Proof.
  intros He. unfold binary_round.
  set (f := fexp prec emax (Z.pos (digits2_pos m) + e)).
  destruct (Z.le_gt_cases e f) as [Hle|Hgt].
  - rewrite shl_align_keep by assumption.
    apply binary_round_aux_RN; [assumption | fold f; lia].
  - destruct (shl_align_val m e f ltac:(lia)) as [Hm Hs].
    destruct (shl_align m e f) as [mz ez]. cbn [fst snd] in Hm, Hs. subst ez.
    assert (Hf : 0 <= f + B) by (unfold f; rewrite fexp_64; lia).
    assert (Ed : Z.pos (digits2_pos mz) + f = Z.pos (digits2_pos m) + e).
    { rewrite !digits2_log2, Hm, Z.log2_mul_pow2 by lia. lia. }
    rewrite binary_round_aux_RN; [| assumption | rewrite Ed; fold f; lia].
    f_equal. unfold val. rewrite Hm, <- Z.mul_assoc, <- Z.pow_add_r by lia.
    f_equal. f_equal. lia.
Qed.

(** A valid float is the rounding of its own value. *)
Lemma RN_val (m : positive) (e : Z) :
  bounded prec emax m e = true ->
  0 <= e + B /\ RN B (val B m e) = S754_finite false m e.
Proof.
  unfold bounded, canonical_mantissa. intros Hb.
  apply andb_true_iff in Hb as [Hc Hmax].
  apply Z.eqb_eq in Hc. apply Z.leb_le in Hmax.
  assert (He : 0 <= e + B) by (rewrite fexp_64 in Hc; lia).
  split; [assumption|].
  rewrite <- binary_round_aux_RN by (assumption || lia).
  rewrite (binary_round_aux_pack m e 0) by lia.
  change (2 ^ 0) with 1. rewrite <- (Z.mul_1_r (Z.pos m)) at 1.
  rewrite rne_div_exact, Z.add_0_r by lia.
  unfold pack.
  assert (Hlt : Z.pos m < 2 ^ 53).
  { pose proof (log2_bounds (Z.pos m) ltac:(lia)) as Hl.
    rewrite digits2_log2, fexp_64 in Hc.
    eapply Z.lt_le_trans; [apply Hl|]. apply Z.pow_le_mono_r; lia. }
  destruct (Z.eqb_spec (Z.pos m) (2 ^ 53)); [lia|].
  change (emax - prec) with 971 in Hmax.
  destruct (Z.leb_spec e 971); [reflexivity | lia].
Qed.

End Rounding.

(** *** Order and values *)

Section Values.

Variable B : Z.
Hypothesis HB : 1074 <= B.

Lemma rounds_to_nonneg (x : spec_float) (v : Z) :
  rounds_to B x v -> nonneg x.
Proof.
  intros [[_ [s ->]]|[_ ->]]; [exact I | apply RN_nonneg; assumption].
Qed.

Lemma rounds_to_le (x x' : spec_float) (v v' : Z) :
  rounds_to B x v -> rounds_to B x' v' -> v <= v' -> SFleb x x' = true.
Proof.
  intros [[-> [s ->]]|[Hv ->]] H' Hle.
  - apply SFleb_zero_l. now apply (rounds_to_nonneg x' v').
  - destruct H' as [[-> _]|[Hv' ->]]; [lia|]. now apply RN_mono.
Qed.

(** A valid float that has a value is the rounding of that value. *)
Lemma value_rounds_to (x : spec_float) (v : Z) :
  valid_binary x = true -> value B x = Some v -> 0 <= v /\ rounds_to B x v.
Proof.
  intros Hx Hv. destruct x as [s| | |[|] m e]; try discriminate.
  - inversion Hv; subst. split; [lia|]. left. eauto.
  - cbn in Hv. inversion Hv; subst. cbn in Hx.
    destruct (RN_val B HB m e Hx) as [He E].
    pose proof (val_pos B HB m e He). split; [lia|]. right. now split.
Qed.

(** Among valid floats, a smaller exponent means a smaller value. *)
Lemma val_le (m m' : positive) (e e' : Z) :
  bounded prec emax m e = true -> bounded prec emax m' e' = true ->
  e < e' \/ (e = e' /\ Z.pos m <= Z.pos m') ->
  val B m e <= val B m' e'.
Proof.
  unfold bounded, canonical_mantissa. intros Hb Hb' H.
  apply andb_true_iff in Hb as [Hc _]. apply andb_true_iff in Hb' as [Hc' _].
  apply Z.eqb_eq in Hc, Hc'. rewrite digits2_log2, fexp_64 in Hc, Hc'.
  pose proof (log2_bounds (Z.pos m) ltac:(lia)) as Hl.
  pose proof (log2_bounds (Z.pos m') ltac:(lia)) as Hl'.
  unfold val. destruct H as [Hlt|[-> Hm]].
  - assert (P : 0 < 2 ^ (e + B)) by (apply pow2_pos; lia).
    assert (E' : 2 ^ (e' + B) = 2 ^ (e' - e) * 2 ^ (e + B))
      by (rewrite <- Z.pow_add_r by lia; f_equal; lia).
    rewrite E'.
    assert (H1 : Z.pos m < 2 ^ 53).
    { eapply Z.lt_le_trans; [apply Hl|]. apply Z.pow_le_mono_r; lia. }
    assert (H2 : 2 ^ 52 <= Z.pos m').
    { eapply Z.le_trans; [|apply Hl']. apply Z.pow_le_mono_r; lia. }
    assert (H3 : 2 ^ 1 <= 2 ^ (e' - e)) by (apply Z.pow_le_mono_r; lia).
    change (2 ^ 1) with 2 in H3. change (2 ^ 53) with (2 * 2 ^ 52) in H1.
    assert (P52 : 0 < 2 ^ 52) by reflexivity.
    nia.
  - apply Z.mul_le_mono_nonneg_r; [|assumption].
    apply Z.pow_nonneg. lia.
Qed.

(** What [SFleb] says about values. *)
Lemma SFleb_value (x x' : spec_float) (v' : Z) :
  valid_binary x = true -> valid_binary x' = true ->
  nonneg x -> SFleb x x' = true -> value B x' = Some v' ->
  exists v, value B x = Some v /\ v <= v'.
Proof.
  intros Hx Hx' Hn Hle Hv'.
  destruct x' as [s'| | |[|] m' e']; try discriminate; cbn in Hv';
    inversion Hv'; subst; clear Hv';
    destruct x as [s|[|]| |[|] m e]; try contradiction; try discriminate.
  - exists 0. now split.
  - exists 0. split; [reflexivity|].
    cbn in Hx'. destruct (RN_val B HB m' e' Hx') as [He _].
    pose proof (val_pos B HB m' e' He). lia.
  - exists (val B m e). split; [reflexivity|].
    apply SFleb_finite in Hle. now apply val_le.
Qed.

(** *** The operations *)

Lemma digits2_mul (m1 m2 : positive) :
  Z.pos (digits2_pos m1) + Z.pos (digits2_pos m2) - 1 <=
  Z.pos (digits2_pos (m1 * m2)).
Proof.
  rewrite !digits2_log2.
  pose proof (log2_bounds (Z.pos m1) ltac:(lia)) as H1.
  pose proof (log2_bounds (Z.pos m2) ltac:(lia)) as H2.
  pose proof (Z.log2_nonneg (Z.pos m1)). pose proof (Z.log2_nonneg (Z.pos m2)).
  assert (Hm : Z.log2 (Z.pos m1) + Z.log2 (Z.pos m2) <= Z.log2 (Z.pos (m1 * m2))).
  { apply Z.log2_le_pow2; [lia|]. rewrite Z.pow_add_r, Pos2Z.inj_mul by lia.
    apply Z.mul_le_mono_nonneg; try apply Z.pow_nonneg; lia. }
  lia.
Qed.

End Values.

Section Operations.

Variable B : Z.
Hypothesis HB : 1074 <= B.

Lemma bounded_exponent (m : positive) (e : Z) :
  bounded prec emax m e = true ->
  -1074 <= e /\ Z.pos (digits2_pos m) <= 53 /\
  (e = -1074 \/ Z.pos (digits2_pos m) = 53).
Proof.
  unfold bounded, canonical_mantissa. intros Hb.
  apply andb_true_iff in Hb as [Hc _]. apply Z.eqb_eq in Hc.
  rewrite fexp_64 in Hc. lia.
Qed.

(** The product of two values, rounded once. *)
Lemma SFmul_rounds (x y : spec_float) (a b : Z) :
  valid_binary x = true -> valid_binary y = true ->
  value B x = Some a -> value B y = Some b ->
  rounds_to (B + B) (SFmul prec emax x y) (a * b).
Proof.
  intros Hx Hy Ha Hb.
  destruct x as [sx| | |[|] mx ex]; try discriminate;
    destruct y as [sy| | |[|] my ey]; try discriminate;
    cbn in Ha, Hb; inversion Ha; inversion Hb; subst; clear Ha Hb;
    cbn [SFmul xorb].
  - left. split; [lia | eauto].
  - left. split; [lia | eauto].
  - left. split; [lia | eauto].
  - cbn in Hx, Hy.
    destruct (bounded_exponent mx ex Hx) as (Hex & Hdx & Hcx).
    destruct (bounded_exponent my ey Hy) as (Hey & Hdy & Hcy).
    pose proof (digits2_mul mx my) as Hd.
    assert (E : val (B + B) (mx * my) (ex + ey) = val B mx ex * val B my ey).
    { unfold val. rewrite Pos2Z.inj_mul.
      replace (ex + ey + (B + B)) with ((ex + B) + (ey + B)) by lia.
      rewrite Z.pow_add_r by lia. ring. }
    right. split.
    + pose proof (val_pos B HB mx ex ltac:(lia)).
      pose proof (val_pos B HB my ey ltac:(lia)). nia.
    + rewrite <- E. apply binary_round_aux_RN; [lia | lia |].
      rewrite fexp_64. lia.
Qed.

(** The sum of two values, rounded once. *)
Lemma SFadd_rounds (x y : spec_float) (a b : Z) :
  valid_binary x = true -> valid_binary y = true ->
  value B x = Some a -> value B y = Some b ->
  rounds_to B (SFadd prec emax x y) (a + b).
Proof.
  intros Hx Hy Ha Hb.
  destruct x as [sx| | |[|] mx ex]; try discriminate;
    destruct y as [sy| | |[|] my ey]; try discriminate;
    cbn in Ha, Hb; inversion Ha; inversion Hb; subst; clear Ha Hb;
    cbn [SFadd].
  - left. split; [lia|]. destruct sx, sy; eauto.
  - cbn in Hy. destruct (RN_val B HB my ey Hy) as [He E].
    pose proof (val_pos B HB my ey He). right. split; [lia | now rewrite Z.add_0_l].
  - cbn in Hx. destruct (RN_val B HB mx ex Hx) as [He E].
    pose proof (val_pos B HB mx ex He). right. split; [lia | now rewrite Z.add_0_r].
  - cbn in Hx, Hy.
    destruct (bounded_exponent mx ex Hx) as (Hex & _).
    destruct (bounded_exponent my ey Hy) as (Hey & _).
    set (ez := IntDef.Z.min ex ey).
    assert (Hz : ez = Z.min ex ey) by reflexivity.
    destruct (shl_align_val mx ex ez ltac:(lia)) as [Hmx _].
    destruct (shl_align_val my ey ez ltac:(lia)) as [Hmy _].
    cbn [cond_Zopp].
    set (px := fst (shl_align mx ex ez)) in *.
    set (py := fst (shl_align my ey ez)) in *.
    change (Z.pos px + Z.pos py) with (Z.pos (px + py)).
    cbn [binary_normalize].
    rewrite (binary_round_RN B HB) by lia.
    assert (E : val B (px + py) ez = val B mx ex + val B my ey).
    { unfold val. rewrite Pos2Z.inj_add, Hmx, Hmy.
      rewrite Z.mul_add_distr_r, <- !Z.mul_assoc, <- !Z.pow_add_r by lia.
      f_equal; f_equal; f_equal; lia. }
    rewrite E. right. split; [|reflexivity].
    pose proof (val_pos B HB mx ex ltac:(lia)).
    pose proof (val_pos B HB my ey ltac:(lia)). lia.
Qed.

End Operations.

(** *** Monotonicity of the operations on floats that are not negative *)

Section Monotone.

Variable B : Z.
Hypothesis HB : 1074 <= B.

Lemma nonneg_cases (x : spec_float) :
  nonneg x -> (exists v, value B x = Some v) \/ x = S754_infinity false.
Proof.
  destruct x as [s|[|]| |[|] m e]; cbn; intros H; try contradiction; eauto.
Qed.

Lemma value_nonneg (x : spec_float) (v : Z) : value B x = Some v -> nonneg x.
Proof. destruct x as [s|[|]| |[|] m e]; cbn; intros H; try discriminate; exact I. Qed.

Lemma value_positive (x : spec_float) (v : Z) :
  value B x = Some v -> 0 < v -> exists m e, x = S754_finite false m e.
Proof.
  destruct x as [s|[|]| |[|] m e]; cbn; intros H Hv; try discriminate; eauto.
  inversion H; lia.
Qed.

Lemma SFmul_nonneg_finite (x c : spec_float) (vc : Z) :
  valid_binary x = true -> valid_binary c = true ->
  nonneg x -> value B c = Some vc -> 0 < vc ->
  nonneg (SFmul prec emax x c) /\
  (x = S754_infinity false -> SFmul prec emax x c = S754_infinity false).
Proof.
  intros Hx Hc Hn Hv Hpos.
  destruct (nonneg_cases x Hn) as [[v Hxv]| ->].
  - split.
    + eapply rounds_to_nonneg; [|apply (SFmul_rounds B HB x c v vc); assumption].
      lia.
    + intros ->. discriminate.
  - destruct (value_positive c vc Hv Hpos) as (m & e & ->). split; [exact I | reflexivity].
Qed.

(** Multiplying by a positive finite constant. *)
Lemma SFmul_mono_const (x x' c : spec_float) (vc : Z) :
  valid_binary x = true -> valid_binary x' = true -> valid_binary c = true ->
  nonneg x -> nonneg x' -> value B c = Some vc -> 0 < vc ->
  SFleb x x' = true ->
  SFleb (SFmul prec emax x c) (SFmul prec emax x' c) = true.
Proof.
  intros Hx Hx' Hc Hn Hn' Hv Hpos Hle.
  destruct (SFmul_nonneg_finite x c vc Hx Hc Hn Hv Hpos) as [Nx _].
  destruct (nonneg_cases x' Hn') as [[v' Hv']|E'].
  - destruct (SFleb_value B HB x x' v' Hx Hx' Hn Hle Hv') as (v & Hxv & Hvv).
    apply (rounds_to_le (B + B) ltac:(lia) _ _ (v * vc) (v' * vc)).
    + now apply SFmul_rounds.
    + now apply SFmul_rounds.
    + nia.
  - destruct (SFmul_nonneg_finite x' c vc Hx' Hc Hn' Hv Hpos) as [_ I'].
    rewrite (I' E'). now apply SFleb_infinity_r.
Qed.

(** Multiplying a finite float by a count. *)
Lemma SFmul_mono_count (p n n' : spec_float) (vp vn vn' : Z) :
  valid_binary p = true -> valid_binary n = true -> valid_binary n' = true ->
  value B p = Some vp -> value B n = Some vn -> value B n' = Some vn' ->
  vn <= vn' ->
  nonneg (SFmul prec emax p n) /\ nonneg (SFmul prec emax p n') /\
  SFleb (SFmul prec emax p n) (SFmul prec emax p n') = true.
Proof.
  intros Hp Hn Hn' Vp Vn Vn' Hle.
  pose proof (SFmul_rounds B HB p n vp vn Hp Hn Vp Vn) as R.
  pose proof (SFmul_rounds B HB p n' vp vn' Hp Hn' Vp Vn') as R'.
  destruct (value_rounds_to B HB p vp Hp Vp) as [Hvp _].
  split; [|split].
  - eapply rounds_to_nonneg; [|exact R]. lia.
  - eapply rounds_to_nonneg; [|exact R']. lia.
  - apply (rounds_to_le (B + B) ltac:(lia) _ _ _ _ R R'). nia.
Qed.

Lemma SFadd_nonneg (x y : spec_float) :
  valid_binary x = true -> valid_binary y = true ->
  nonneg x -> nonneg y ->
  nonneg (SFadd prec emax x y) /\
  (x = S754_infinity false \/ y = S754_infinity false ->
   SFadd prec emax x y = S754_infinity false).
Proof.
  intros Hx Hy Nx Ny.
  destruct (nonneg_cases x Nx) as [[a Ha]| ->];
    destruct (nonneg_cases y Ny) as [[b Hb]| ->].
  - split.
    + eapply rounds_to_nonneg; [|apply (SFadd_rounds B HB x y a b); assumption].
      assumption.
    + intros [->| ->]; discriminate.
  - destruct x as [s|[|]| |[|] m e]; try contradiction; try discriminate;
      split; (exact I || reflexivity).
  - destruct y as [s|[|]| |[|] m e]; try contradiction; try discriminate;
      split; (exact I || reflexivity).
  - split; [exact I | reflexivity].
Qed.

Lemma SFadd_mono (x x' y y' : spec_float) :
  valid_binary x = true -> valid_binary x' = true ->
  valid_binary y = true -> valid_binary y' = true ->
  nonneg x -> nonneg x' -> nonneg y -> nonneg y' ->
  SFleb x x' = true -> SFleb y y' = true ->
  SFleb (SFadd prec emax x y) (SFadd prec emax x' y') = true.
Proof.
  intros Hx Hx' Hy Hy' Nx Nx' Ny Ny' Lx Ly.
  destruct (SFadd_nonneg x y Hx Hy Nx Ny) as [N _].
  destruct (SFadd_nonneg x' y' Hx' Hy' Nx' Ny') as [_ I'].
  destruct (nonneg_cases x' Nx') as [[a' Ha']|Ex'].
  2:{ rewrite I' by now left. now apply SFleb_infinity_r. }
  destruct (nonneg_cases y' Ny') as [[b' Hb']|Ey'].
  2:{ rewrite I' by now right. now apply SFleb_infinity_r. }
  destruct (SFleb_value B HB x x' a' Hx Hx' Nx Lx Ha') as (a & Ha & Haa).
  destruct (SFleb_value B HB y y' b' Hy Hy' Ny Ly Hb') as (b & Hb & Hbb).
  apply (rounds_to_le B HB _ _ (a + b) (a' + b')).
  - now apply SFadd_rounds.
  - now apply SFadd_rounds.
  - lia.
Qed.

(** [RN] of a value below 2^1000 is finite. *)
Lemma RN_finite (v : Z) :
  v < 2 ^ (B + 1000) -> exists w, value B (RN B v) = Some w.
Proof.
  intros Hv. unfold RN. destruct (Z.leb_spec v 0) as [H0|H0]; [cbn; eauto|].
  destruct (RN_mantissa B HB v H0) as [HM _].
  set (f := fexp prec emax (Z.log2 v + 1 - B)) in *.
  set (M := rne_div v (2 ^ (f + B))) in *.
  assert (Hf : f <= 947).
  { assert (Z.log2 v < B + 1000) by (apply Z.log2_lt_pow2; lia).
    unfold f. rewrite fexp_64. lia. }
  unfold pack. destruct (Z.eqb_spec M (2 ^ 53)).
  - change (2 ^ 52) with (Z.pos 4503599627370496).
    destruct (Z.leb_spec (f + 1) 971); [cbn; eauto | lia].
  - destruct M as [|pM|pM]; [cbn; eauto | | lia].
    destruct (Z.leb_spec f 971); [cbn; eauto | lia].
Qed.

End Monotone.

(** *** [Math.round] *)

Section Round.

Variable B : Z.
Hypothesis HB : 1074 <= B.

(** The value [v], rounded to the nearest multiple of the unit 2^B, ties up. *)
Lemma nearest_mono (v v' : Z) :
  v <= v' ->
  (2 * v + 2 ^ B) / 2 ^ (B + 1) * 2 ^ B <= (2 * v' + 2 ^ B) / 2 ^ (B + 1) * 2 ^ B.
Proof.
  intros Hv. apply Z.mul_le_mono_nonneg_r; [apply Z.pow_nonneg; lia|].
  apply Z.div_le_mono; [apply pow2_pos; lia | lia].
Qed.

Lemma nearest_integer (m : positive) (e : Z) :
  0 <= e ->
  (2 * val B m e + 2 ^ B) / 2 ^ (B + 1) * 2 ^ B = val B m e.
Proof.
  intros He. unfold val. rewrite Z.pow_add_r by lia.
  assert (P : 0 < 2 ^ B) by (apply pow2_pos; lia).
  assert (Q : 0 <= 2 ^ e) by (apply Z.pow_nonneg; lia).
  replace (2 ^ (B + 1)) with (2 * 2 ^ B)
    by (rewrite Z.pow_add_r by lia; change (2 ^ 1) with 2; lia).
  replace (2 * (Z.pos m * (2 ^ e * 2 ^ B)) + 2 ^ B)
    with ((2 * (Z.pos m * 2 ^ e) + 1) * 2 ^ B) by ring.
  rewrite Z.div_mul_cancel_r by lia.
  replace ((2 * (Z.pos m * 2 ^ e) + 1) / 2) with (Z.pos m * 2 ^ e).
  - ring.
  - apply (Z.div_unique _ _ _ 1); lia.
Qed.

Lemma nearest_fraction (m : positive) (e : Z) :
  e < 0 -> 0 <= e + B ->
  (2 * val B m e + 2 ^ B) / 2 ^ (B + 1) =
  (2 * Z.pos m + 2 ^ (- e)) / 2 ^ (1 - e).
Proof.
  intros He HeB. unfold val.
  assert (P : 0 < 2 ^ (e + B)) by (apply pow2_pos; lia).
  assert (E1 : 2 ^ B = 2 ^ (- e) * 2 ^ (e + B))
    by (rewrite <- Z.pow_add_r by lia; f_equal; lia).
  assert (E2 : 2 ^ (B + 1) = 2 ^ (1 - e) * 2 ^ (e + B))
    by (rewrite <- Z.pow_add_r by lia; f_equal; lia).
  rewrite E2. rewrite E1 at 1.
  replace (2 * (Z.pos m * 2 ^ (e + B)) + 2 ^ (- e) * 2 ^ (e + B))
    with ((2 * Z.pos m + 2 ^ (- e)) * 2 ^ (e + B)) by ring.
  apply Z.div_mul_cancel_r; [|lia].
  pose proof (pow2_pos (1 - e) ltac:(lia)). lia.
Qed.

Lemma of_uint63_rounds (q : Z) :
  0 <= q < 2 ^ 63 ->
  rounds_to B (Prim2SF (of_uint63 (Uint63.of_Z q))) (q * 2 ^ B).
Proof.
  intros Hq. rewrite of_uint63_spec, Uint63.of_Z_spec.
  change wB with (2 ^ 63). rewrite Z.mod_small by assumption.
  destruct q as [|p|p]; [| |lia].
  - left. split; [reflexivity | cbn; eauto].
  - right. cbn [binary_normalize]. split.
    + pose proof (pow2_pos B ltac:(lia)). lia.
    + rewrite (binary_round_RN B HB) by lia. unfold val.
      now rewrite Z.add_0_l.
Qed.

(** [Math.round] of a float that has a value: that value rounded to the
    nearest integer, then to a float. *)
Lemma Math_round_rounds (x : float) (v : Z) :
  value B (Prim2SF x) = Some v ->
  rounds_to B (Prim2SF (Math_round x))
    ((2 * v + 2 ^ B) / 2 ^ (B + 1) * 2 ^ B).
Proof.
  intros Hv. pose proof (Prim2SF_valid x) as Hx. unfold Math_round.
  destruct (Prim2SF x) as [s| | |[|] m e] eqn:E; try discriminate;
    cbn in Hv; inversion Hv; subst; clear Hv.
  - rewrite E. left. split; [|eauto].
    rewrite Z.mul_0_r, Z.add_0_l, Z.div_small; [reflexivity|].
    pose proof (pow2_pos B ltac:(lia)).
    rewrite Z.pow_add_r by lia. change (2 ^ 1) with 2. lia.
  - cbn in Hx. destruct (RN_val B HB m e Hx) as [HeB ERN].
    destruct (Z.leb_spec 0 e) as [He|He].
    + rewrite E, nearest_integer by assumption. right. split.
      * now apply val_pos.
      * now rewrite ERN.
    + rewrite nearest_fraction by lia. cbn [cond_Zopp].
      set (q := (2 * Z.pos m + 2 ^ (- e)) / 2 ^ (1 - e)).
      assert (Hq : 0 <= q < 2 ^ 63).
      { destruct (bounded_exponent m e Hx) as (_ & Hd & _).
        rewrite digits2_log2 in Hd.
        pose proof (log2_bounds (Z.pos m) ltac:(lia)) as Hl.
        assert (Z.pos m < 2 ^ 53).
        { eapply Z.lt_le_trans; [apply Hl|]. apply Z.pow_le_mono_r; lia. }
        pose proof (pow2_pos (- e) ltac:(lia)) as P.
        assert (E2 : 2 ^ (1 - e) = 2 * 2 ^ (- e)).
        { replace (1 - e) with (Z.succ (- e)) by lia.
          now rewrite Z.pow_succ_r by lia. }
        unfold q. rewrite E2. split.
        - apply Z.div_pos; lia.
        - apply Z.div_lt_upper_bound; [lia|].
          change (2 ^ 53) with 9007199254740992 in *.
          change (2 ^ 63) with 9223372036854775808. nia. }
      destruct (Z.eqb_spec q 0) as [Eq|Nq].
      * rewrite Eq. left. split; [reflexivity|]. cbn. eauto.
      * unfold Number_of_Z. destruct (Z.ltb_spec q 0); [lia|].
        now apply of_uint63_rounds.
Qed.

Lemma Math_round_infinity (x : float) :
  Prim2SF x = S754_infinity false -> Math_round x = x.
Proof. intros E. unfold Math_round. now rewrite E. Qed.

Lemma Math_round_mono (x x' : float) :
  nonneg (Prim2SF x) -> nonneg (Prim2SF x') ->
  SFleb (Prim2SF x) (Prim2SF x') = true ->
  SFleb (Prim2SF (Math_round x)) (Prim2SF (Math_round x')) = true.
Proof.
  intros Nx Nx' Hle.
  destruct (nonneg_cases B (Prim2SF x') Nx') as [[v' Hv']|E'].
  - destruct (SFleb_value B HB _ _ v' (Prim2SF_valid x) (Prim2SF_valid x')
                Nx Hle Hv') as (v & Hv & Hvv).
    apply (rounds_to_le B HB _ _ _ _ (Math_round_rounds x v Hv)
             (Math_round_rounds x' v' Hv')).
    now apply nearest_mono.
  - rewrite (Math_round_infinity x' E'), E'. apply SFleb_infinity_r.
    destruct (nonneg_cases B (Prim2SF x) Nx) as [[v Hv]|E].
    + apply (rounds_to_nonneg B HB _ _ (Math_round_rounds x v Hv)).
    + now rewrite (Math_round_infinity x E), E.
Qed.

End Round.

(** *** The price functions *)

Lemma leb_zero_nonneg (x : float) :
  (0 <=? x)%float = true <-> nonneg (Prim2SF x).
Proof.
  rewrite FloatAxioms.leb_spec. change (Prim2SF 0) with (S754_zero false).
  destruct (Prim2SF x) as [s|[|]| |[|] m e]; cbn; intuition discriminate.
Qed.

Lemma mul_const_mono (x x' c : float) :
  (0 <=? x)%float = true -> (0 <=? x')%float = true ->
  (exists m e, Prim2SF c = S754_finite false m e) ->
  (x <=? x')%float = true ->
  (0 <=? x * c)%float = true /\ (0 <=? x' * c)%float = true /\
  (x * c <=? x' * c)%float = true.
Proof.
  rewrite !leb_zero_nonneg, !FloatAxioms.leb_spec, !FloatAxioms.mul_spec. unfold SF64mul.
  intros Nx Nx' (m & e & Ec) Hle.
  pose proof (Prim2SF_valid x) as Vx. pose proof (Prim2SF_valid x') as Vx'.
  pose proof (Prim2SF_valid c) as Vc.
  assert (HB : 1074 <= 1074) by lia.
  assert (Hv : value 1074 (Prim2SF c) = Some (val 1074 m e))
    by (rewrite Ec; reflexivity).
  assert (Hpos : 0 < val 1074 m e).
  { rewrite Ec in Vc. cbn in Vc.
    destruct (bounded_exponent m e Vc) as (He & _). apply val_pos; lia. }
  split; [|split].
  - now apply (SFmul_nonneg_finite 1074 HB _ _ _ Vx Vc Nx Hv Hpos).
  - now apply (SFmul_nonneg_finite 1074 HB _ _ _ Vx' Vc Nx' Hv Hpos).
  - now apply (SFmul_mono_const 1074 HB _ _ _ _ Vx Vx' Vc Nx Nx' Hv Hpos).
Qed.

Lemma add_mono (x x' y y' : float) :
  (0 <=? x)%float = true -> (0 <=? x')%float = true ->
  (0 <=? y)%float = true -> (0 <=? y')%float = true ->
  (x <=? x')%float = true -> (y <=? y')%float = true ->
  (0 <=? x + y)%float = true /\ (0 <=? x' + y')%float = true /\
  (x + y <=? x' + y')%float = true.
Proof.
  rewrite !leb_zero_nonneg, !FloatAxioms.leb_spec, !FloatAxioms.add_spec. unfold SF64add.
  intros Nx Nx' Ny Ny' Lx Ly.
  pose proof (Prim2SF_valid x) as Vx. pose proof (Prim2SF_valid x') as Vx'.
  pose proof (Prim2SF_valid y) as Vy. pose proof (Prim2SF_valid y') as Vy'.
  assert (HB : 1074 <= 1074) by lia.
  split; [|split].
  - now apply (SFadd_nonneg 1074 HB).
  - now apply (SFadd_nonneg 1074 HB).
  - now apply (SFadd_mono 1074 HB).
Qed.

Lemma round_mono (x x' : float) :
  (0 <=? x)%float = true -> (0 <=? x')%float = true ->
  (x <=? x')%float = true ->
  (Math_round x <=? Math_round x')%float = true.
Proof.
  rewrite !leb_zero_nonneg, !FloatAxioms.leb_spec.
  apply (Math_round_mono 1074); lia.
Qed.

(** The count of hours as a float: exact order, and finite. *)
Lemma Number_of_length_mono (n1 n2 : nat) :
  (n1 <= n2)%nat -> Z.of_nat n2 < 2 ^ 32 ->
  exists v1 v2,
    value 1074 (Prim2SF (Number_of_length n1)) = Some v1 /\
    value 1074 (Prim2SF (Number_of_length n2)) = Some v2 /\
    v1 <= v2.
Proof.
  intros Hn Hlt. assert (HB : 1074 <= 1074) by lia.
  assert (P : 0 < 2 ^ 1074) by (apply pow2_pos; lia).
  assert (H63 : 2 ^ 32 < 2 ^ 63) by reflexivity.
  pose proof (of_uint63_rounds 1074 HB (Z.of_nat n1) ltac:(lia)) as R1.
  pose proof (of_uint63_rounds 1074 HB (Z.of_nat n2) ltac:(lia)) as R2.
  fold (Number_of_length n1) in R1. fold (Number_of_length n2) in R2.
  assert (F2 : exists v2, value 1074 (Prim2SF (Number_of_length n2)) = Some v2).
  { destruct R2 as [[_ [s ->]]|[_ ->]]; [cbn; eauto|].
    apply (RN_finite 1074 HB).
    replace (1074 + 1000) with (32 + 1042 + 1000) by lia.
    rewrite (Z.pow_add_r 2 (32 + 1042) 1000), (Z.pow_add_r 2 32 1042) by lia.
    assert (P1 : 0 < 2 ^ 1000) by (apply pow2_pos; lia).
    assert (P2 : 0 < 2 ^ 1042) by (apply pow2_pos; lia).
    replace (2 ^ 1074) with (2 ^ 32 * 2 ^ 1042)
      by (rewrite <- Z.pow_add_r by lia; reflexivity).
    nia. }
  destruct F2 as [v2 Hv2].
  destruct (SFleb_value 1074 HB _ _ v2 (Prim2SF_valid _) (Prim2SF_valid _)
              (rounds_to_nonneg 1074 HB _ _ R1)
              (rounds_to_le 1074 HB _ _ _ _ R1 R2 ltac:(nia)) Hv2)
    as (v1 & Hv1 & Hle).
  eauto.
Qed.

Lemma subtotal_mono (price : float) (n1 n2 : nat) :
  (0 <=? price)%float = true -> (price <? infinity)%float = true ->
  (n1 <= n2)%nat -> Z.of_nat n2 < 2 ^ 32 ->
  (0 <=? subtotal price n1)%float = true /\
  (0 <=? subtotal price n2)%float = true /\
  (subtotal price n1 <=? subtotal price n2)%float = true.
Proof.
  intros Hp Hfin Hn Hlt. unfold subtotal.
  rewrite !leb_zero_nonneg in *.
  rewrite FloatAxioms.leb_spec, !FloatAxioms.mul_spec. unfold SF64mul.
  rewrite FloatAxioms.ltb_spec in Hfin.
  change (Prim2SF infinity) with (S754_infinity false) in Hfin.
  assert (HB : 1074 <= 1074) by lia.
  destruct (nonneg_cases 1074 _ Hp) as [[vp Hvp]|E].
  2:{ rewrite E in Hfin. discriminate. }
  destruct (Number_of_length_mono n1 n2 Hn Hlt) as (v1 & v2 & H1 & H2 & Hle).
  apply (SFmul_mono_count 1074 HB _ _ _ vp v1 v2);
    try apply Prim2SF_valid; assumption.
Qed.

(** C9, amended. For a price that is a finite number, zero or positive, the
    total is non-decreasing in the number of hours; the hours are the length of an
    array, hence fewer than 2^32.  The statement is about the binary64
    arithmetic of the page: every product, sum and the final [Math.round]
    are monotone. *)
Theorem total_monotone (price : float) (hourCount1 hourCount2 : nat) :
  (0 <=? price)%float = true -> (price <? infinity)%float = true ->
  (hourCount1 <= hourCount2)%nat -> Z.of_nat hourCount2 < 2 ^ 32 ->
  (total price hourCount1 <=? total price hourCount2)%float = true.
Proof.
  intros Hp Hfin Hn Hlt.
  destruct (subtotal_mono price hourCount1 hourCount2 Hp Hfin Hn Hlt)
    as (S1 & S2 & S12).
  assert (C30 : exists m e, Prim2SF 0.30 = S754_finite false m e)
    by (vm_compute; eauto).
  assert (C11 : exists m e, Prim2SF 0.11 = S754_finite false m e)
    by (vm_compute; eauto).
  unfold total, tax, subtotalWithPlatformFee, platformFee.
  set (s1 := subtotal price hourCount1) in *.
  set (s2 := subtotal price hourCount2) in *.
  destruct (mul_const_mono s1 s2 0.30 S1 S2 C30 S12) as (F1 & F2 & F12).
  destruct (add_mono s1 s2 _ _ S1 S2 F1 F2 S12 F12) as (W1 & W2 & W12).
  destruct (mul_const_mono _ _ 0.11 W1 W2 C11 W12) as (T1 & T2 & T12).
  destruct (add_mono _ _ _ _ W1 W2 T1 T2 W12 T12) as (A1 & A2 & A12).
  now apply round_mono.
Qed.

Lemma total_monotone_scenario_C :
  (0 <=? 100000)%float = true /\ (100000 <? infinity)%float = true /\
  (1 <= 2)%nat /\ Z.of_nat 2 < 2 ^ 32 /\
  (total 100000 1 <=? total 100000 2)%float = true.
Proof.
  split; [reflexivity|]. split; [reflexivity|].
  split; [lia|]. split; [reflexivity|].
  apply total_monotone; [reflexivity | reflexivity | lia | reflexivity].
Defined.

(** At the price Infinity the total of no hours is NaN, the product of
    Infinity and 0, and NaN is not below any total. *)
Lemma total_not_monotone_at_infinity :
  ~ (forall (price : float) (hourCount1 hourCount2 : nat),
        (0 <=? price)%float = true ->
        (hourCount1 <= hourCount2)%nat -> Z.of_nat hourCount2 < 2 ^ 32 ->
        (total price hourCount1 <=? total price hourCount2)%float = true).
Proof.
  intros H.
  specialize (H infinity 0%nat 1%nat eq_refl ltac:(lia) eq_refl).
  vm_compute in H. discriminate.
Qed.

(** ** Further properties *)

(** X1. An hour that no slot of the weekday covers is unavailable, whatever
    the bookings. *)
Theorem isSlotAvailable_outside_schedule (st : PageState) (d : JS.Date)
  (hour : JS.num) (daySlots : list TimeSlot) :
  daySlotsOf st d = Some daySlots ->
  (forall slot, In slot daySlots -> slotCovers hour slot = false) ->
  isSlotAvailable st d hour = false.
Proof.
  unfold daySlotsOf, isSlotAvailable. intros Hs Hout.
  destruct (bookingDetails st); [|discriminate].
  destruct (activeSchedule st) as [schedule|]; [|discriminate]. cbn in Hs.
  destruct (scheduleOfDay schedule (JS.getDay d)) as [day|]; [|discriminate].
  cbn in Hs. rewrite Hs.
  assert (E : existsb (slotCovers hour) daySlots = false).
  { apply not_true_is_false. intros Hex.
    apply existsb_exists in Hex as (slot & Hin & Hc).
    rewrite (Hout slot Hin) in Hc. discriminate. }
  now rewrite E.
Qed.

Lemma isSlotAvailable_outside_schedule_scenario_A :
  daySlotsOf scenarioA monday =
    Some [ {| start := "09:00"; end_ := "17:00" |} ] /\
  isSlotAvailable scenarioA monday (JS.Int 17) = false.
Proof.
  split; [reflexivity|].
  apply (isSlotAvailable_outside_schedule scenarioA monday (JS.Int 17)
           [ {| start := "09:00"; end_ := "17:00" |} ] eq_refl).
  intros slot [<-|[]]. reflexivity.
Defined.

(** X2. Labels and hours: [parseInt] reads the label of every safe integer
    back as that hour; a two-digit hour is labelled with its two digits and
    [:00]; and on two-digit hours the order of the labels is the order of the
    hours, so that the default sort of the labels sorts the hours. *)
Theorem hourLabel_round_trip :
  (forall k : Z,
      safeInteger k -> JS.parseInt (hourLabel (JS.Int k)) = JS.Int k) /\
  (forall h : Z, twoDigit h -> hourLabel (JS.Int h) = HH00 h) /\
  (forall a b : Z,
      twoDigit a -> twoDigit b ->
      String.leb (hourLabel (JS.Int a)) (hourLabel (JS.Int b)) = (a <=? b)) /\
  (forall l : list Z,
      Forall twoDigit l -> JS.sort (hourLabels l) = hourLabels (sortHours l)).
Proof.
  split; [intros k _; apply parseInt_hourLabel|].
  split; [exact hourLabel_HH00|].
  split; [exact hourLabel_leb | exact sort_labels].
Qed.

Lemma hourLabel_round_trip_example :
  safeInteger 9 /\
  JS.parseInt (hourLabel (JS.Int 9)) = JS.Int 9 /\
  hourLabel (JS.Int 9) = "09:00" /\
  JS.sort ["12:00"; "09:00"; "10:00"] = ["09:00"; "10:00"; "12:00"].
Proof.
  assert (H9 : safeInteger 9) by (unfold safeInteger; lia).
  split; [exact H9|].
  split; [apply (proj1 hourLabel_round_trip 9 H9)|].
  split; reflexivity.
Defined.

(** X3. When the order id names, by a safe integer, a booking that the query
    returns with its streamer, the handler shows the success toast and goes
    to the client's bookings, whether or not the notifications could be
    inserted and whether or not the update was accepted: it looks at neither
    answer.  The booking is set to pending unless the update is refused, and
    the two notifications are inserted unless the insert is refused. *)
Theorem handlePaymentSuccess_commits (be : Payment.Backend)
  (order_id : string) (w : Payment.World) (bookingId : Z)
  (booking : Payment.BookingRow) (streamer : Payment.Streamer) :
  JS.parseInt10 (JS.at_ (JS.split "-" order_id) 1) = JS.Int bookingId ->
  safeInteger bookingId ->
  Payment.select_fails be = false ->
  Payment.bookings w !! bookingId = Some booking ->
  Payment.streamer booking = Some streamer ->
  let w' := snd (handlePaymentSuccess be order_id w) in
  fst (handlePaymentSuccess be order_id w) = JS.Return tt /\
  Payment.bookings w' =
    (if Payment.update_refused be then Payment.bookings w
     else <[bookingId := Payment.set_status "pending" booking]>
            (Payment.bookings w)) /\
  Payment.toasts w' = (Payment.toasts w ++ [paymentSuccessful])%list /\
  Payment.routes w' = (Payment.routes w ++ ["/client-bookings"])%list /\
  Payment.notifications w' =
    (if Payment.insert_refused be then Payment.notifications w
     else Payment.notifications w ++
          notificationsFor be (JS.Int bookingId) booking streamer)%list.
Proof.
  intros Hid _ Hsel Hrow Hs.
  unfold handlePaymentSuccess, Payment.try_catch, handlePaymentSuccess_try.
  rewrite Hid. cbn [JS.isNaN].
  unfold mbind, handler_bind, Payment.bind, Payment.select_booking.
  rewrite Hsel. cbn [Payment.row_of]. rewrite Hrow.
  unfold Payment.lift. rewrite Hs. cbn [nonNull].
  unfold Payment.insert_notifications, Payment.update_status.
  assert (Ealter : alter (Payment.set_status "pending") bookingId
                     (Payment.bookings w) =
                   <[bookingId := Payment.set_status "pending" booking]>
                     (Payment.bookings w)).
  { apply map_eq. intros i. destruct (decide (bookingId = i)) as [->|Hne].
    - now rewrite lookup_alter_eq, lookup_insert_eq, Hrow.
    - now rewrite lookup_alter_ne, lookup_insert_ne. }
  destruct (Payment.insert_refused be), (Payment.update_refused be); cbn;
    rewrite ?Ealter; repeat split.
Qed.

Lemma handlePaymentSuccess_commits_scenario :
  JS.parseInt10 (JS.at_ (JS.split "-" "order-12-1704078000") 1) = JS.Int 12 /\
  Payment.status
    <$> Payment.bookings
          (snd (handlePaymentSuccess backendE "order-12-1704078000" worldE))
        !! 12 = Some "pending" /\
  length
    (Payment.notifications
       (snd (handlePaymentSuccess backendE "order-12-1704078000" worldE))) =
  2%nat.
Proof.
  split; [reflexivity|].
  destruct (handlePaymentSuccess_commits backendE "order-12-1704078000" worldE
              12 _ _ eq_refl ltac:(unfold safeInteger; lia) eq_refl eq_refl
              eq_refl) as (_ & Hb & _ & _ & Hn).
  rewrite Hb, Hn. split; reflexivity.
Defined.

(** ** More on the availability resolver *)

Lemma existsb_incl {A : Type} (p : A -> bool) (l l' : list A) :
  (forall x, In x l -> In x l') -> existsb p l = true -> existsb p l' = true.
Proof.
  intros Hincl Hex. apply existsb_exists in Hex as (x & Hx & Hp).
  apply existsb_exists. eauto.
Qed.

(** X4. Bookings only ever take hours away: when two states have the same
    booking details and schedule and every booking of the first is a booking
    of the second, an hour that is available in the second is available in
    the first.  So the answer depends on which bookings there are, not on
    their order or on how often a row is listed. *)
Theorem isSlotAvailable_more_bookings (st st' : PageState) (d : JS.Date)
  (hour : JS.num) :
  bookingDetails st' = bookingDetails st ->
  activeSchedule st' = activeSchedule st ->
  (forall b, In b (bookings st) -> In b (bookings st')) ->
  isSlotAvailable st' d hour = true -> isSlotAvailable st d hour = true.
Proof.
  unfold isSlotAvailable. intros -> -> Hincl.
  destruct (bookingDetails st); [|easy].
  destruct (activeSchedule st) as [schedule|]; [|easy].
  destruct (scheduleOfDay schedule (JS.getDay d)) as [day|]; [|easy].
  destruct (slots day) as [daySlots|]; [|easy].
  rewrite !andb_true_iff, !negb_true_iff. intros [Hs Hb]. split; [exact Hs|].
  apply not_true_is_false. intros Hex.
  rewrite (existsb_incl _ _ _ Hincl Hex) in Hb. discriminate.
Qed.

Lemma isSlotAvailable_more_bookings_scenario :
  (forall b, In b (bookings scenarioA) -> In b (bookings scenarioB)) /\
  isSlotAvailable scenarioB monday (JS.Int 10) = true /\
  isSlotAvailable scenarioA monday (JS.Int 10) = true.
Proof.
  assert (Hincl : forall b, In b (bookings scenarioA) -> In b (bookings scenarioB))
    by (intros b []).
  split; [exact Hincl|]. split; [reflexivity|].
  apply (isSlotAvailable_more_bookings scenarioA scenarioB monday (JS.Int 10)
           eq_refl eq_refl Hincl eq_refl).
Defined.

Lemma slotCovers_NaN (slot : TimeSlot) : slotCovers JS.NaN slot = false.
Proof. reflexivity. Qed.

Lemma existsb_none {A : Type} (p : A -> bool) (l : list A) :
  (forall x, p x = false) -> existsb p l = false.
Proof.
  intros H. induction l as [|x l IH]; [reflexivity|].
  cbn. now rewrite H, IH.
Qed.

Lemma isSlotAvailable_NaN (st : PageState) (d : JS.Date) :
  isSlotAvailable st d JS.NaN = false.
Proof.
  unfold isSlotAvailable.
  destruct (bookingDetails st); [|reflexivity].
  destruct (activeSchedule st) as [schedule|]; [|reflexivity].
  destruct (scheduleOfDay schedule (JS.getDay d)) as [day|]; [|reflexivity].
  destruct (slots day) as [daySlots|]; [|reflexivity].
  now rewrite (existsb_none _ _ slotCovers_NaN).
Qed.

Lemma isSlotAvailable_InvalidDate (st : PageState) (hour : JS.num) :
  isSlotAvailable st JS.InvalidDate hour = false.
Proof.
  unfold isSlotAvailable.
  destruct (bookingDetails st); [|reflexivity].
  now destruct (activeSchedule st).
Qed.

Lemma filter_none {A : Type} (p : A -> bool) (l : list A) :
  (forall x, p x = false) -> List.filter p l = [].
Proof.
  intros H. induction l as [|x l IH]; [reflexivity|].
  cbn. now rewrite H.
Qed.

Lemma sort_insert_length (x : string) (a : list string) :
  length (JS.sort_insert x a) = S (length a).
Proof.
  induction a as [|y a IH]; [reflexivity|].
  cbn. destruct (String.leb x y); cbn; [reflexivity | now rewrite IH].
Qed.

Lemma sort_length (a : list string) : length (JS.sort a) = length a.
Proof.
  induction a as [|x a IH]; [reflexivity|].
  cbn. now rewrite sort_insert_length, IH.
Qed.

(** [a.filter(p)] throws only what [p] throws. *)
Lemma filter_Throw {A : Type} (p : A -> JS.completion bool) (a : list A)
  (e : JS.error) :
  JS.filter p a = JS.Throw e -> exists x, In x a /\ p x = JS.Throw e.
Proof.
  induction a as [|x a IH]; [discriminate|].
  cbn [JS.filter]. destruct (p x) as [keep|e'] eqn:E.
  - cbn. destruct (JS.filter p a) as [r|e'']; [discriminate|].
    cbn. intros [= ->]. destruct (IH eq_refl) as (y & Hy & Ey).
    exists y. split; [now right | exact Ey].
  - cbn. intros [= ->]. exists x. split; [now left | exact E].
Qed.

(** [Array.from] either builds the array or refuses the length. *)
Lemma Array_from_cases {A : Type} (len : JS.num) (f : Z -> A) :
  (exists a, JS.Array_from len f = JS.Return a) \/
  JS.Array_from len f = JS.Throw JS.RangeError.
Proof.
  unfold JS.Array_from. destruct len as [|n]; [eauto|].
  destruct (JS.maxArrayLength <? n); eauto.
Qed.

(** X5. What does not read as a time is never available: an hour that is NaN
    (a label [parseInt] cannot read) and every hour of an invalid Date.  With
    booking details whose date is invalid, [generateTimeOptions] offers
    nothing, and adding an hour to a selection that is not empty leaves
    nothing selected: each returns the empty list, unless the span of hours
    is longer than an array can be and a RangeError is thrown.  The empty
    list is returned for a window between safe integers that spans at most
    2^32 - 1 hours, and for a selection of two-digit hours. *)
Theorem isSlotAvailable_not_a_time (st : PageState) :
  (forall d, isSlotAvailable st d JS.NaN = false) /\
  (forall hour, isSlotAvailable st JS.InvalidDate hour = false) /\
  (forall details,
      bookingDetails st = Some details -> date details = JS.InvalidDate ->
      (generateTimeOptions st = JS.Return [] \/
       generateTimeOptions st = JS.Throw JS.RangeError) /\
      (forall s e,
          hourOf (startTime details) = JS.Int s ->
          hourOf (endTime details) = JS.Int e ->
          safeInteger s -> safeInteger e -> e - s <= JS.maxArrayLength ->
          generateTimeOptions st = JS.Return []) /\
      (forall hour prevSelected,
          prevSelected <> [] -> JS.includes prevSelected hour = false ->
          handleHourSelection st hour prevSelected = JS.Return [] \/
          handleHourSelection st hour prevSelected = JS.Throw JS.RangeError) /\
      (forall h hs,
          hs <> [] -> twoDigit h -> Forall twoDigit hs -> ~ In h hs ->
          handleHourSelection st (hourLabel (JS.Int h)) (hourLabels hs) =
          JS.Return [])).
Proof.
  split; [apply isSlotAvailable_NaN|].
  split; [apply isSlotAvailable_InvalidDate|].
  intros details Hd Hdate.
  assert (Hnone : forall l : list string,
             List.filter
               (fun hour => isSlotAvailable st JS.InvalidDate (JS.parseInt hour))
               l = []).
  { intros l. apply filter_none. intros x. apply isSlotAvailable_InvalidDate. }
  split; [|split; [|split]].
  - unfold generateTimeOptions. rewrite Hd, Hdate.
    destruct (Array_from_cases
                (JS.sub (hourOf (endTime details)) (hourOf (startTime details)))
                (fun i => hourLabel (JS.add (hourOf (startTime details))
                                       (JS.Int i)))) as [[a ->]| ->].
    + left. cbn. now rewrite Hnone.
    + right. reflexivity.
  - intros s e Hs He _ _ Hn.
    rewrite (generateTimeOptions_labels st details s e Hd Hs He Hn), Hdate.
    f_equal. rewrite filter_none; [reflexivity|].
    intros x. apply isSlotAvailable_InvalidDate.
  - intros hour prev Hne Hnew. unfold handleHourSelection.
    rewrite Hnew, sort_length, length_app, Hd. cbn [length].
    destruct (Z.ltb_spec 1 (Z.of_nat (length prev + 1))) as [_|Hshort].
    2:{ destruct prev; [congruence | cbn [length] in Hshort; lia]. }
    match goal with
    | |- context [JS.Array_from ?len ?f] =>
        destruct (Array_from_cases len f) as [[a ->]| ->]
    end.
    + left. cbn [mbind completion_bind JS.bind].
      change (fun h : string => nonNull (Some details) ≫= _) with
        (fun h : string =>
           JS.Return (isSlotAvailable st (date details) (JS.parseInt h))).
      rewrite filter_never_throws, Hdate. now rewrite Hnone.
    + right. reflexivity.
  - intros h hs Hne Hh Hhs Hnew.
    rewrite (handleHourSelection_add st details h hs Hd Hne Hh Hhs Hnew).
    f_equal. unfold spanSelection. rewrite Hdate, filter_none; [reflexivity|].
    intros x. apply isSlotAvailable_InvalidDate.
Qed.

Lemma isSlotAvailable_not_a_time_undated :
  generateTimeOptions undated = JS.Return [] /\
  handleHourSelection undated "12:00" ["10:00"] = JS.Return [].
Proof.
  destruct (isSlotAvailable_not_a_time undated) as (_ & _ & H).
  destruct (H _ eq_refl eq_refl) as (_ & Hopts & _ & Htoggle).
  split.
  - apply (Hopts 10 13); try reflexivity;
      unfold safeInteger, JS.maxArrayLength; lia.
  - apply (Htoggle 12 [10]).
    + discriminate.
    + unfold twoDigit. lia.
    + repeat constructor; unfold twoDigit; lia.
    + intros [E|[]]. discriminate.
Defined.

(** X6. A booking blocks the hours from its start hour to its end hour, both
    included, on the calendar day it starts on, and only when its end hour is
    later than its start hour: the day of [end_time] is never read.  A booking
    whose end hour is not later than its start hour, as one that runs past
    midnight, blocks no hour of any day. *)
Theorem bookingBlocks_start_day :
  (forall (day hours sday s eday e h : Z) (st : string),
      bookingBlocks (JS.LocalTime day hours) (JS.Int h)
        {| start_time := JS.LocalTime sday s;
           end_time := JS.LocalTime eday e;
           status := st |} =
      (day =? sday) && (s <? e) && (s <=? h) && (h <=? e)) /\
  (forall (b : Booking),
      JS.ltb (JS.getHours (start_time b)) (JS.getHours (end_time b)) = false ->
      forall d hour, bookingBlocks d hour b = false).
Proof.
  split.
  - intros day hours sday s eday e h st. unfold bookingBlocks. cbn.
    destruct (Z.eqb_spec day sday); [|reflexivity]. cbn.
    destruct (Z.ltb_spec s e), (Z.leb_spec s h), (Z.leb_spec h e),
      (Z.ltb_spec h e), (Z.eqb_spec h e); cbn; try reflexivity; lia.
  - intros b Hlt d hour. unfold bookingBlocks.
    destruct (JS.isSameDay d (start_time b)); [|reflexivity]. cbn.
    destruct hour as [|h], (JS.getHours (start_time b)) as [|s],
      (JS.getHours (end_time b)) as [|e]; cbn in *; try reflexivity.
    all: try apply Z.ltb_ge in Hlt.
    all: apply not_true_is_false.
    all: rewrite ?orb_true_iff, ?andb_true_iff, ?Z.leb_le, ?Z.ltb_lt, ?Z.eqb_eq.
    all: intuition (try discriminate; try lia).
Qed.

Lemma bookingBlocks_overnight :
  JS.ltb (JS.Int 22) (JS.Int 1) = false /\
  bookingBlocks monday (JS.Int 23)
    {| start_time := JS.LocalTime 19723 22;
       end_time := JS.LocalTime 19724 1;
       status := "accepted" |} = false.
Proof.
  split; [reflexivity|].
  apply (proj2 bookingBlocks_start_day
           {| start_time := JS.LocalTime 19723 22;
              end_time := JS.LocalTime 19724 1;
              status := "accepted" |} eq_refl).
Defined.

(** ** More on the toggler *)

Lemma span_bounds (h : Z) (hs : list Z) :
  In (minimum h hs) (h :: hs) /\ In (maximum h hs) (h :: hs) /\
  minimum h hs <= h <= maximum h hs.
Proof.
  destruct (minimum_spec h hs) as [Hin Hle].
  destruct (maximum_spec h hs) as [Hin' Hle'].
  split; [exact Hin|]. split; [exact Hin'|].
  split; [apply Hle | apply Hle']; now left.
Qed.

(** Adding a new hour to a selection that is not empty, whatever the state:
    the filter that runs over the span. *)
Lemma handleHourSelection_span (st : PageState) (h : Z) (hs : list Z) :
  hs <> [] -> twoDigit h -> Forall twoDigit hs -> ~ In h hs ->
  handleHourSelection st (hourLabel (JS.Int h)) (hourLabels hs) =
  JS.filter
    (fun x =>
       details ← nonNull (bookingDetails st);
       mret (isSlotAvailable st (date details) (JS.parseInt x)))
    (hourLabels (seqZ (minimum h hs) (maximum h hs - minimum h hs + 1))).
Proof.
  intros Hne Hh Hhs Hnew. unfold handleHourSelection.
  destruct (JS.includes (hourLabels hs) (hourLabel (JS.Int h))) eqn:E.
  { apply includes_hourLabels in E. contradiction. }
  clear E.
  assert (Hall : Forall twoDigit (hs ++ [h])).
  { apply Forall_app. split; [assumption|]. now constructor. }
  change [hourLabel (JS.Int h)] with (hourLabels [h]).
  rewrite <- hourLabels_app, sort_labels by assumption.
  set (sorted := sortHours (hs ++ [h])).
  assert (Hlen : length sorted = S (length hs)).
  { unfold sorted. rewrite sortHours_length, length_app. cbn. lia. }
  assert (Hsorted : sorted <> []) by (intros E; rewrite E in Hlen; discriminate).
  rewrite hourLabels_length, Hlen.
  destruct (Z.ltb_spec 1 (Z.of_nat (S (length hs)))) as [_|Hshort].
  2:{ destruct hs; [congruence | cbn in Hshort; lia]. }
  rewrite <- Hlen, <- (hourLabels_length sorted), at_first, at_last.
  rewrite (hd_hourLabels sorted 0), (last_hourLabels sorted 0) by assumption.
  rewrite !parseInt_hourLabel. unfold sorted.
  rewrite sortHours_hd, sortHours_last.
  change (JS.add (JS.sub (JS.Int (maximum h hs)) (JS.Int (minimum h hs)))
            (JS.Int 1))
    with (JS.Int (maximum h hs - minimum h hs + 1)).
  now rewrite Array_from_labels by now apply span_fits.
Qed.

Lemma seqZ_first (m n : Z) : 0 < n -> exists l, seqZ m n = m :: l.
Proof.
  intros Hn. replace n with (Z.succ (n - 1)) by lia.
  rewrite seqZ_cons by lia. eauto.
Qed.

(** X7. Whether the toggler throws.  It returns a selection when an hour is
    removed or added to the empty selection, in every state.  Without the
    booking details, adding a new two-digit hour to a selection of two-digit
    hours that is not empty throws a TypeError, which nothing in the page
    catches: the filter reads [bookingDetails!.date].  Whatever the state,
    the hour and the selection, the toggler throws nothing but a TypeError
    or the RangeError of a span that is longer than an array can be; the
    latter is thrown before the filter runs, so for the 2^32 hours from 00:00
    to 4294967295:00 in every state. *)
Theorem handleHourSelection_throws :
  (forall (st : PageState) (hour : string) (prevSelected : list string),
      prevSelected = [] \/ isHourSelected prevSelected hour = true ->
      exists selected,
        handleHourSelection st hour prevSelected = JS.Return selected) /\
  (forall (st : PageState) (h : Z) (hs : list Z),
      bookingDetails st = None ->
      hs <> [] -> twoDigit h -> Forall twoDigit hs -> ~ In h hs ->
      handleHourSelection st (hourLabel (JS.Int h)) (hourLabels hs) =
      JS.Throw JS.TypeError) /\
  (forall (st : PageState) (hour : string) (prevSelected : list string)
          (e : JS.error),
      handleHourSelection st hour prevSelected = JS.Throw e ->
      e = JS.RangeError \/ e = JS.TypeError) /\
  (forall st : PageState,
      handleHourSelection st "4294967295:00" ["00:00"] =
      JS.Throw JS.RangeError).
Proof.
  split; [|split; [|split]].
  - intros st hour prev [->|Hin].
    + eauto using handleHourSelection_first.
    + eauto using handleHourSelection_remove.
  - intros st h hs Hd Hne Hh Hhs Hnew.
    rewrite handleHourSelection_span by assumption. rewrite Hd.
    destruct (span_bounds h hs) as (_ & _ & Hb).
    destruct (seqZ_first (minimum h hs) (maximum h hs - minimum h hs + 1))
      as [l ->]; [lia|].
    reflexivity.
  - intros st hour prev e. unfold handleHourSelection.
    destruct (JS.includes prev hour); [discriminate|].
    destruct (1 <? _); [|discriminate].
    match goal with
    | |- context [JS.Array_from ?len ?f] =>
        destruct (Array_from_cases len f) as [[a ->]| ->]
    end.
    + cbn [mbind completion_bind JS.bind]. intros E.
      apply filter_Throw in E as (x & _ & E). right.
      destruct (bookingDetails st); [discriminate|].
      cbn in E. congruence.
    + cbn. intros [= <-]. now left.
  - intros st. reflexivity.
Qed.

Lemma handleHourSelection_throws_detailsMissing :
  bookingDetails detailsMissing = None /\
  handleHourSelection detailsMissing "12:00" ["10:00"] =
    JS.Throw JS.TypeError /\
  handleHourSelection detailsMissing "10:00" [] = JS.Return ["10:00"].
Proof.
  split; [reflexivity|]. split; [|reflexivity].
  apply (proj1 (proj2 handleHourSelection_throws) detailsMissing 12 [10]
           eq_refl).
  - discriminate.
  - unfold twoDigit. lia.
  - repeat constructor; unfold twoDigit; lia.
  - intros [E|[]]. discriminate.
Defined.

Lemma includes_filter_out (sel : list string) (hour h : string) :
  JS.includes
    (List.filter (fun x => negb (String.eqb x hour)) sel) h =
  JS.includes sel h && negb (String.eqb h hour).
Proof.
  unfold JS.includes. induction sel as [|x sel IH]; [reflexivity|].
  cbn [List.filter existsb].
  destruct (String.eqb_spec x hour) as [Ex|Hx]; cbn [negb].
  - rewrite IH, Ex. destruct (String.eqb h hour); cbn.
    + now rewrite !andb_false_r.
    + now rewrite andb_true_r.
  - cbn [existsb]. rewrite IH.
    destruct (String.eqb_spec h x) as [Ehx|Hhx]; cbn; [|reflexivity].
    rewrite Ehx. destruct (String.eqb_spec x hour); [contradiction | reflexivity].
Qed.

Lemma filter_out_shorter (sel : list string) (hour : string) :
  JS.includes sel hour = true ->
  (length (List.filter (fun x => negb (String.eqb x hour)) sel) <
   length sel)%nat.
Proof.
  unfold JS.includes. induction sel as [|x sel IH]; [discriminate|].
  cbn [existsb List.filter]. intros H.
  pose proof (List.filter_length_le (fun x => negb (String.eqb x hour)) sel).
  rewrite (String.eqb_sym hour x) in H.
  destruct (String.eqb x hour); cbn [negb length]; [lia|].
  cbn in H. specialize (IH H). lia.
Qed.

(** X8. Toggling a selected hour takes it out of the selection and nothing
    else: afterwards [isHourSelected] is false for that hour and unchanged
    for every other hour, and the selection is shorter.  The resolver is not
    asked, so this holds in every state. *)
Theorem handleHourSelection_deselects (st : PageState) (hour : string)
  (selectedHours : list string) :
  isHourSelected selectedHours hour = true ->
  exists selected,
    handleHourSelection st hour selectedHours = JS.Return selected /\
    isHourSelected selected hour = false /\
    (forall h, h <> hour ->
               isHourSelected selected h = isHourSelected selectedHours h) /\
    (length selected < length selectedHours)%nat.
Proof.
  intros Hin. eexists. split; [now apply handleHourSelection_remove|].
  unfold isHourSelected in *. split; [|split].
  - rewrite includes_filter_out, String.eqb_refl. apply andb_false_r.
  - intros h Hh. rewrite includes_filter_out.
    apply String.eqb_neq in Hh. rewrite Hh. apply andb_true_r.
  - now apply filter_out_shorter.
Qed.

Lemma handleHourSelection_deselects_scenario_A :
  isHourSelected ["10:00"; "11:00"; "12:00"] "11:00" = true /\
  handleHourSelection scenarioA "11:00" ["10:00"; "11:00"; "12:00"] =
    JS.Return ["10:00"; "12:00"].
Proof.
  split; [reflexivity|].
  destruct (handleHourSelection_deselects scenarioA "11:00"
              ["10:00"; "11:00"; "12:00"] eq_refl) as (sel & E & _).
  rewrite E. vm_compute in E. now injection E as <-.
Defined.

(** ** Sessions *)

Lemma filter_out_labels (h : Z) (r : list Z) :
  List.filter (fun x => negb (String.eqb x (hourLabel (JS.Int h))))
    (hourLabels r) =
  hourLabels (List.filter (fun x => negb (x =? h)) r).
Proof.
  unfold hourLabels. rewrite filter_map_comm. f_equal.
  apply List.filter_ext. intros x.
  destruct (String.eqb_spec (hourLabel (JS.Int x)) (hourLabel (JS.Int h)))
    as [E|N], (Z.eqb_spec x h) as [E'|N']; try reflexivity.
  - apply hourLabel_inj in E. contradiction.
  - subst x. contradiction.
Qed.

Lemma filter_twoDigit (p : Z -> bool) (l : list Z) :
  Forall twoDigit l -> Forall twoDigit (List.filter p l).
Proof.
  rewrite !List.Forall_forall. intros H x Hx.
  apply filter_In in Hx. now apply H.
Qed.

Lemma seqZ_sorted (m n : Z) : StronglySorted Z.lt (seqZ m n).
Proof.
  destruct (Z.le_gt_cases 0 n) as [Hn|Hn].
  - rewrite <- (Z2Nat.id n) by assumption. apply seqZ_ascending.
  - unfold seqZ. replace (Z.to_nat n) with O by lia. constructor.
Qed.

Lemma spanSelection_twoDigit (p : Z -> bool) (h : Z) (hs : list Z) :
  twoDigit h -> Forall twoDigit hs -> Forall twoDigit (spanSelection p h hs).
Proof.
  intros Hh Hhs.
  assert (Hall : forall x, In x (h :: hs) -> twoDigit x).
  { intros x [<-|Hx]; [assumption|].
    now apply (proj1 (List.Forall_forall _ _) Hhs). }
  destruct (span_bounds h hs) as (Hlo & Hhi & _).
  apply Hall in Hlo, Hhi. unfold twoDigit in *.
  apply List.Forall_forall. intros x Hx. unfold spanSelection in Hx.
  apply filter_In in Hx as [Hx _]. apply seqZ_In in Hx. lia.
Qed.

(** One toggle keeps a selection of two-digit hours in ascending order. *)
Lemma toggle_keeps_ascending (st : PageState) (details : BookingDetails)
  (h : Z) (r : list Z) :
  bookingDetails st = Some details ->
  twoDigit h -> Forall twoDigit r -> StronglySorted Z.lt r ->
  exists r',
    handleHourSelection st (hourLabel (JS.Int h)) (hourLabels r) =
      JS.Return (hourLabels r') /\
    Forall twoDigit r' /\ StronglySorted Z.lt r'.
Proof.
  intros Hd Hh Hr Hs.
  destruct (in_dec Z.eq_dec h r) as [Hin|Hnew].
  - exists (List.filter (fun x => negb (x =? h)) r). split; [|split].
    + rewrite handleHourSelection_remove by now apply includes_hourLabels.
      now rewrite filter_out_labels.
    + now apply filter_twoDigit.
    + now apply filter_ascending.
  - destruct r as [|x r].
    + exists [h]. split; [reflexivity|].
      split; [constructor; [assumption | constructor] | repeat constructor].
    + exists (spanSelection
                (fun y => isSlotAvailable st (date details) (JS.Int y)) h (x :: r)).
      split; [|split].
      * now apply handleHourSelection_add.
      * now apply spanSelection_twoDigit.
      * unfold spanSelection. apply filter_ascending, seqZ_sorted.
Qed.

(** X9. Through a session of toggles the selection stays in order.  With the
    booking details loaded, start from a selection of two-digit hours in
    ascending order without repetition (the empty one, or the one the load
    effect builds for a window of two-digit hours) and toggle any two-digit
    hours one after the other: no toggle throws, and the selection that
    results is again in ascending order without repetition.  So its first and its last element, which
    [handleConfirmBooking] takes for the start and the end of the booking, are
    the least and the greatest selected hour. *)
Theorem toggleAll_ascending (st : PageState) (details : BookingDetails)
  (hours selectedHours : list Z) :
  bookingDetails st = Some details ->
  Forall twoDigit hours ->
  Forall twoDigit selectedHours -> StronglySorted Z.lt selectedHours ->
  exists r,
    toggleAll st (hourLabels hours) (hourLabels selectedHours) =
      JS.Return (hourLabels r) /\
    Forall twoDigit r /\ StronglySorted Z.lt r.
Proof.
  intros Hd Hhours. revert selectedHours.
  induction Hhours as [|h hours Hh Hhours IH]; intros r Hr Hs.
  - exists r. now split.
  - destruct (toggle_keeps_ascending st details h r Hd Hh Hr Hs)
      as (r' & E & Hr' & Hs').
    destruct (IH r' Hr' Hs') as (r'' & E' & H'').
    exists r''. split; [|exact H''].
    rewrite hourLabels_cons. cbn [toggleAll]. rewrite E. exact E'.
Qed.

Lemma toggleAll_ascending_scenario_D :
  bookingDetails scenarioD = Some detailsA /\
  Forall twoDigit [16; 10; 12; 16] /\
  toggleAll scenarioD ["16:00"; "10:00"; "12:00"; "16:00"] [] =
    JS.Return ["10:00"; "13:00"; "14:00"; "15:00"].
Proof.
  assert (H : Forall twoDigit [16; 10; 12; 16])
    by (repeat constructor; unfold twoDigit; lia).
  split; [reflexivity|]. split; [exact H|].
  destruct (toggleAll_ascending scenarioD detailsA [16; 10; 12; 16] []
              eq_refl H ltac:(constructor) ltac:(constructor))
    as (r & E & _).
  vm_compute in E. vm_compute. exact eq_refl.
Defined.

(** ** Options and selection together *)

Lemma head_hourLabels (r : list Z) (first : string) :
  head (hourLabels r) = Some first ->
  exists a t, r = a :: t /\ first = hourLabel (JS.Int a).
Proof.
  destruct r as [|a t]; [discriminate|]. cbn. intros [= <-]. eauto.
Qed.

Lemma last_hourLabels_some (r : list Z) (l : string) :
  last (hourLabels r) = Some l ->
  exists b, last r = Some b /\ l = hourLabel (JS.Int b).
Proof.
  induction r as [|x r IH]; [discriminate|].
  destruct r as [|y r].
  - cbn. intros [= <-]. eauto.
  - intros H. apply IH in H as (b & Hb & ->). eauto.
Qed.

Lemma last_In {A : Type} (l : list A) (b : A) : last l = Some b -> In b l.
Proof.
  induction l as [|x l IH]; [discriminate|].
  destruct l as [|y l].
  - cbn. intros [= <-]. now left.
  - intros H. right. now apply IH.
Qed.

Lemma ascending_last_greatest (l : list Z) (b : Z) :
  StronglySorted Z.lt l -> last l = Some b -> forall x, In x l -> x <= b.
Proof.
  induction 1 as [|a l Hs IH Ha]; [discriminate|].
  intros Hlast x Hx. destruct l as [|y l].
  - cbn in Hlast. injection Hlast as <-. destruct Hx as [<-|[]]. lia.
  - specialize (IH Hlast). destruct Hx as [<-|Hx]; [|now apply IH].
    assert (Hb : In b (y :: l)) by now apply last_In.
    apply (proj1 (List.Forall_forall _ _) Ha) in Hb. lia.
Qed.

Lemma filter_nothing_In {A : Type} (p : A -> bool) (l : list A) :
  (forall x, In x l -> p x = false) -> List.filter p l = [].
Proof.
  induction l as [|x l IH]; [reflexivity|]. intros H.
  cbn. rewrite (H x) by now left. apply IH. intros y Hy. apply H. now right.
Qed.

(** The available hours of a window are those between the first and the last
    of them. *)
Lemma filter_window_trim (p : Z -> bool) (s n a b : Z) (t : list Z) :
  List.filter p (seqZ s n) = a :: t ->
  last (a :: t) = Some b ->
  List.filter p (seqZ a (b - a + 1)) = a :: t.
Proof.
  intros E Hlast.
  assert (Hsorted : StronglySorted Z.lt (a :: t)).
  { rewrite <- E. apply filter_ascending, seqZ_sorted. }
  assert (Hmem : forall x, In x (a :: t) <-> s <= x < s + n /\ p x = true).
  { intros x. rewrite <- E, filter_In, seqZ_In. reflexivity. }
  assert (Ha : s <= a < s + n) by (apply Hmem; now left).
  assert (Hb : s <= b < s + n) by (apply Hmem; now apply last_In).
  assert (Hab : a <= b).
  { apply (ascending_last_greatest _ _ Hsorted Hlast). now left. }
  assert (Hleast : forall x, In x (a :: t) -> a <= x).
  { inversion Hsorted as [|? ? _ Hall]; subst.
    intros x [<-|Hx]; [lia|].
    apply (proj1 (List.Forall_forall _ _) Hall) in Hx. lia. }
  rewrite <- E.
  replace n with ((a - s) + ((b - a + 1) + (s + n - b - 1))) by lia.
  rewrite (seqZ_app s) by lia. rewrite (seqZ_app (s + (a - s))) by lia.
  rewrite !List.filter_app.
  replace (s + (a - s)) with a by lia.
  rewrite (filter_nothing_In p (seqZ s (a - s))).
  2:{ intros x Hx. apply seqZ_In in Hx. apply not_true_is_false. intros Hp.
      assert (Hin : In x (a :: t)) by (apply Hmem; split; [lia | exact Hp]).
      apply Hleast in Hin. lia. }
  rewrite (filter_nothing_In p (seqZ (a + (b - a + 1)) _)).
  2:{ intros x Hx. apply seqZ_In in Hx. apply not_true_is_false. intros Hp.
      assert (Hin : In x (a :: t)) by (apply Hmem; split; [lia | exact Hp]).
      apply (ascending_last_greatest _ _ Hsorted Hlast) in Hin. lia. }
  now rewrite app_nil_r.
Qed.

(** X10. Options and toggles fit together: when the booking window lies within
    the two-digit hours, [generateTimeOptions] returns its options, and when
    these are at least two, toggling the first and then the last option on
    the empty selection selects exactly the options that
    [generateTimeOptions] offers. *)
Theorem toggle_first_and_last_option (st : PageState)
  (details : BookingDetails) (s e : Z) (first last_ : string) :
  bookingDetails st = Some details ->
  hourOf (startTime details) = JS.Int s ->
  hourOf (endTime details) = JS.Int e ->
  0 <= s -> e <= 100 ->
  exists options,
    generateTimeOptions st = JS.Return options /\
    (head options = Some first ->
     last options = Some last_ ->
     first <> last_ ->
     toggleAll st [first; last_] [] = generateTimeOptions st).
Proof.
  intros Hd Hs He Hlo Hhi.
  rewrite (generateTimeOptions_labels st details s e Hd Hs He)
    by (unfold JS.maxArrayLength; lia).
  eexists. split; [reflexivity|]. intros Hfirst Hlast Hne.
  set (available := fun h => isSlotAvailable st (date details) (JS.Int h)) in *.
  destruct (head_hourLabels _ _ Hfirst) as (a & t & E & ->).
  rewrite E in *.
  destruct (last_hourLabels_some _ _ Hlast) as (b & Hb & ->).
  assert (Hab : a <> b) by (intros ->; now apply Hne).
  assert (Hmem : forall x, In x (a :: t) -> twoDigit x).
  { intros x Hx. rewrite <- E in Hx. apply filter_In in Hx as [Hx _].
    apply seqZ_In in Hx. unfold twoDigit. lia. }
  assert (Hsorted : StronglySorted Z.lt (a :: t)).
  { rewrite <- E. apply filter_ascending, seqZ_sorted. }
  assert (Hle : a <= b).
  { apply (ascending_last_greatest _ _ Hsorted Hb). now left. }
  cbn [toggleAll]. rewrite handleHourSelection_first.
  change (JS.Return [hourLabel (JS.Int a)] ≫= _) with
    (handleHourSelection st (hourLabel (JS.Int b)) (hourLabels [a])
       ≫= toggleAll st []).
  rewrite (handleHourSelection_add st details b [a] Hd).
  - unfold spanSelection. cbn [minimum maximum].
    rewrite Z.min_r, Z.max_l by lia. fold available.
    now rewrite (filter_window_trim available s (e - s) a b t E Hb).
  - discriminate.
  - apply Hmem. now apply last_In.
  - constructor; [|constructor]. apply Hmem. now left.
  - intros [C|[]]. congruence.
Qed.

Lemma toggle_first_and_last_option_scenario_A :
  generateTimeOptions scenarioA = JS.Return ["10:00"; "11:00"; "12:00"] /\
  toggleAll scenarioA ["10:00"; "12:00"] [] =
    JS.Return ["10:00"; "11:00"; "12:00"].
Proof.
  split; [reflexivity|].
  destruct (toggle_first_and_last_option scenarioA detailsA 10 13
              "10:00" "12:00" eq_refl eq_refl eq_refl ltac:(lia) ltac:(lia))
    as (options & E & H).
  assert (Eo : options = ["10:00"; "11:00"; "12:00"]).
  { vm_compute in E. now injection E as <-. }
  subst options. rewrite H; [exact E | reflexivity | reflexivity | discriminate].
Defined.

(** ** The two fetches *)

(** X11. The two fetches of the load effect do not interfere.  Their state
    updates commute, so the order in which the two responses arrive does not
    matter; neither touches the booking details.  A schedule that is loaded
    survives a later response that is an error, that has no row, or whose
    schedule does not parse; a row whose schedule parses to null clears it.
    Of two responses for the bookings the later one decides wherever it
    carries no error. *)
Theorem fetches_commute (rb rb' : Response (list Booking))
  (rs : Response ScheduleRow) (st : PageState) :
  fetchBookings rb (fetchActiveSchedule rs st) =
    fetchActiveSchedule rs (fetchBookings rb st) /\
  bookingDetails (fetchBookings rb (fetchActiveSchedule rs st)) =
    bookingDetails st /\
  (error rs <> None \/ data rs = None \/ data rs = Some Unparsable ->
   fetchActiveSchedule rs st = st) /\
  (forall schedule,
      error rs = None -> data rs = Some (Parsed schedule) ->
      activeSchedule (fetchActiveSchedule rs st) = schedule) /\
  (error rb' = None ->
   fetchBookings rb' (fetchBookings rb st) = fetchBookings rb' st).
Proof.
  unfold fetchBookings, fetchActiveSchedule.
  destruct (error rb), (error rs), (data rs) as [[|schedule]|]; cbn;
    repeat split; try easy.
  all: try (intros [H|[H|H]]; congruence).
  all: try (intros ? _ [= <-]; reflexivity).
  all: intros ->; reflexivity.
Qed.

Lemma fetches_commute_scenario :
  activeSchedule
    (fetchActiveSchedule {| data := None; error := Some "timeout" |} scenarioA) =
  activeSchedule scenarioA /\
  activeSchedule
    (fetchActiveSchedule {| data := Some (Parsed None); error := None |}
       scenarioA) = None /\
  bookings
    (fetchBookings {| data := Some [mondayBooking 11 12]; error := None |}
       (fetchBookings {| data := None; error := None |} scenarioA)) =
  [mondayBooking 11 12].
Proof.
  destruct (fetches_commute {| data := None; error := None |}
              {| data := Some [mondayBooking 11 12]; error := None |}
              {| data := None; error := Some "timeout" |} scenarioA)
    as (_ & _ & Hkeep & _ & Hlater).
  split; [now rewrite Hkeep by (left; discriminate)|].
  split; [reflexivity|].
  now rewrite Hlater.
Defined.

(** ** More on the payment-success handler *)

(** X12. Whatever the order id and the tables hold, as long as the id that the
    order id names is a safe integer when it is a number at all,
    [handlePaymentSuccess] returns without throwing and shows exactly one
    toast.  Either it is the success toast, followed by the route to the
    client's bookings, and then the query has returned the booking the order
    id names, with its streamer; or it is the contact-support toast, and then
    the query has failed, or there is no such booking, or its streamer is
    missing, and the bookings, the notifications and the routes are as they
    were.  In both cases no booking other than the named one changes, and no
    booking row appears or disappears. *)
Theorem handlePaymentSuccess_outcomes (be : Payment.Backend)
  (order_id : string) (w : Payment.World) :
  let bookingId := JS.parseInt10 (JS.at_ (JS.split "-" order_id) 1) in
  (forall i, bookingId = JS.Int i -> safeInteger i) ->
  let w' := snd (handlePaymentSuccess be order_id w) in
  fst (handlePaymentSuccess be order_id w) = JS.Return tt /\
  (exists t,
      Payment.toasts w' = (Payment.toasts w ++ [t])%list /\
      ((t = paymentSuccessful /\
        Payment.routes w' = (Payment.routes w ++ ["/client-bookings"])%list /\
        Payment.select_fails be = false /\
        exists booking streamer,
          Payment.row_of bookingId (Payment.bookings w) = Some booking /\
          Payment.streamer booking = Some streamer) \/
       (t = contactSupport /\
        (Payment.select_fails be = true \/
         Payment.row_of bookingId (Payment.bookings w) ≫= Payment.streamer =
           None) /\
        Payment.routes w' = Payment.routes w /\
        Payment.bookings w' = Payment.bookings w /\
        Payment.notifications w' = Payment.notifications w))) /\
  (forall i, bookingId <> JS.Int i ->
             Payment.bookings w' !! i = Payment.bookings w !! i) /\
  (forall i, is_Some (Payment.bookings w' !! i) <->
             is_Some (Payment.bookings w !! i)).
Proof.
  intros bookingId _ w'. subst w'.
  unfold handlePaymentSuccess, Payment.try_catch, handlePaymentSuccess_try.
  fold bookingId.
  destruct bookingId as [|i] eqn:Eid; cbn [JS.isNaN].
  { cbn. split; [reflexivity|]. split; [|split; [reflexivity | reflexivity]].
    exists contactSupport. split; [reflexivity|]. right. repeat split.
    now right. }
  unfold mbind, handler_bind, Payment.bind, Payment.select_booking.
  destruct (Payment.select_fails be) eqn:Esel.
  { cbn. split; [reflexivity|]. split; [|split; [reflexivity | reflexivity]].
    exists contactSupport. split; [reflexivity|]. right. repeat split.
    now left. }
  cbn [Payment.row_of].
  destruct (Payment.bookings w !! i) as [booking|] eqn:Erow.
  2:{ cbn. split; [reflexivity|]. split; [|split; [reflexivity | reflexivity]].
      exists contactSupport. split; [reflexivity|]. right. repeat split.
      now right. }
  unfold Payment.lift.
  destruct (Payment.streamer booking) as [streamer|] eqn:Es; cbn [nonNull].
  2:{ cbn. split; [reflexivity|]. split; [|split; [reflexivity | reflexivity]].
      exists contactSupport. split; [reflexivity|]. right.
      rewrite Es. repeat split. now right. }
  unfold Payment.insert_notifications, Payment.update_status.
  assert (Hframe : forall j, JS.Int i <> JS.Int j ->
                     alter (Payment.set_status "pending") i (Payment.bookings w)
                       !! j = Payment.bookings w !! j).
  { intros j Hj. apply lookup_alter_ne. congruence. }
  assert (Hdom : forall j,
             is_Some (alter (Payment.set_status "pending") i (Payment.bookings w)
                        !! j) <-> is_Some (Payment.bookings w !! j)).
  { intros j. apply lookup_alter_is_Some. }
  destruct (Payment.insert_refused be), (Payment.update_refused be); cbn.
  all: split; [reflexivity|]; split;
    [|split; [first [exact Hframe | reflexivity]
             | first [exact Hdom | reflexivity]]].
  all: exists paymentSuccessful; split; [reflexivity|]; left.
  all: split; [reflexivity|]; split; [reflexivity|]; eauto.
Qed.

Lemma handlePaymentSuccess_outcomes_scenario_E :
  JS.parseInt10 (JS.at_ (JS.split "-" "order-12-1704078000") 1) <> JS.Int 7 /\
  Payment.bookings (snd (handlePaymentSuccess backendE "order-12-1704078000" worldE))
    !! 7 = None /\
  Payment.toasts (snd (handlePaymentSuccess backendE "order-99-1" worldE)) =
    [contactSupport].
Proof.
  assert (Hsafe : forall i,
             JS.parseInt10 (JS.at_ (JS.split "-" "order-12-1704078000") 1) =
               JS.Int i -> safeInteger i).
  { intros i E. vm_compute in E. injection E as <-. unfold safeInteger. lia. }
  destruct (handlePaymentSuccess_outcomes backendE "order-12-1704078000" worldE
              Hsafe) as (_ & _ & Hframe & _).
  split; [discriminate|]. split.
  - rewrite (Hframe 7) by discriminate. reflexivity.
  - reflexivity.
Defined.

(** *** Reading the booking id *)

Lemma split_single_app (sep : ascii) (p q : string) :
  JS.split sep p = [p] ->
  JS.split sep (String.append p (String sep q)) = p :: JS.split sep q.
Proof.
  induction p as [|c p IH]; intros H.
  - rewrite append_empty. cbn [JS.split]. now rewrite Ascii.eqb_refl.
  - rewrite append_String. cbn [JS.split] in *.
    destruct (Ascii.eqb c sep); [discriminate|].
    destruct (JS.split sep p) as [|x xs] eqn:E; [|injection H as -> ->].
    + rewrite IH; [reflexivity|]. destruct p; [discriminate|]. discriminate.
    + now rewrite IH.
Qed.

Lemma split_single_cons (sep c : ascii) (p : string) :
  Ascii.eqb c sep = false ->
  JS.split sep p = [p] -> JS.split sep (String c p) = [String c p].
Proof. intros Hc H. cbn [JS.split]. now rewrite Hc, H. Qed.

Lemma digit_char_not_dash (d : Z) :
  0 <= d <= 9 -> Ascii.eqb (JS.digit_char d) "-" = false.
Proof. intros H. each_digit d H; reflexivity. Qed.

Lemma split_digits_of (fuel : nat) :
  forall (n : Z) (acc : string),
    0 <= n -> JS.split "-" acc = [acc] ->
    JS.split "-" (JS.digits_of fuel n acc) = [JS.digits_of fuel n acc].
Proof.
  induction fuel as [|fuel IH]; intros n acc Hn Hacc; [exact Hacc|].
  cbn [JS.digits_of].
  assert (Hd : 0 <= n mod 10 <= 9) by (pose proof (Z.mod_pos_bound n 10); lia).
  pose proof (split_single_cons "-" _ acc (digit_char_not_dash _ Hd) Hacc).
  destruct (n <? 10); [assumption|].
  apply IH; [apply Z.div_pos; lia | assumption].
Qed.

Lemma parseInt10_digit (d : Z) (r : string) :
  0 <= d <= 9 ->
  JS.parseInt10 (String (JS.digit_char d) r) =
  match JS.parse_digits 10 None (String (JS.digit_char d) r) with
  | Some v => JS.Int v
  | None => JS.NaN
  end.
Proof. intros H. each_digit d H; reflexivity. Qed.

Lemma digits_of_first (fuel : nat) :
  forall (n : Z) (acc : string),
    0 <= n -> (1 <= fuel)%nat ->
    exists d rest, 0 <= d <= 9 /\
      JS.digits_of fuel n acc = String (JS.digit_char d) rest.
Proof.
  induction fuel as [|fuel IH]; intros n acc Hn Hf; [lia|].
  cbn [JS.digits_of].
  assert (Hd : 0 <= n mod 10 <= 9) by (pose proof (Z.mod_pos_bound n 10); lia).
  destruct (Z.ltb_spec n 10) as [Hlt|Hge]; [eauto|].
  destruct fuel as [|fuel']; [cbn; eauto|].
  apply IH; [apply Z.div_pos; lia | lia].
Qed.

(** A number that is not negative, written in decimal, reads back. *)
Lemma parseInt10_toString (k : Z) :
  0 <= k -> JS.parseInt10 (JS.toString (JS.Int k)) = JS.Int k.
Proof.
  intros Hk. unfold JS.toString.
  destruct (Z.ltb_spec k 0) as [|_]; [lia|].
  set (f := S (Z.to_nat k)).
  destruct (digits_of_first f k "" Hk ltac:(unfold f; lia))
    as (d & rest & Hd & E).
  rewrite E, parseInt10_digit by assumption. rewrite <- E.
  destruct (parse_digits_of f k "") as [p Hp]; [unfold f; lia | unfold f; lia |].
  assert (E0 : JS.parse_digits 10 None (JS.digits_of f k "") =
               JS.parse_digits 10 (Some 0) (JS.digits_of f k "")).
  { rewrite E. rewrite !parse_digits_digit by lia. reflexivity. }
  rewrite E0, Hp. reflexivity.
Qed.

Lemma split_toString (k : Z) :
  0 <= k -> JS.split "-" (JS.toString (JS.Int k)) = [JS.toString (JS.Int k)].
Proof.
  intros Hk. unfold JS.toString.
  destruct (Z.ltb_spec k 0) as [|_]; [lia|].
  now apply split_digits_of.
Qed.

(** X13. The booking id is the second dash-separated segment of the order id,
    read in base 10.  For every prefix without a dash and every id [k] that is
    a safe integer and not negative, the order ids [prefix-k] and
    [prefix-k-rest] give back [k], whatever follows the second dash; an order
    id without any dash gives NaN, the malformed case. *)
Theorem bookingId_of_order_id (prefix rest : string) (k : Z) :
  JS.split "-" prefix = [prefix] -> 0 <= k -> safeInteger k ->
  JS.parseInt10
    (JS.at_
       (JS.split "-"
          (String.append prefix
             (String "-"
                (String.append (JS.toString (JS.Int k)) (String "-" rest)))))
       1) = JS.Int k /\
  JS.parseInt10
    (JS.at_
       (JS.split "-" (String.append prefix (String "-" (JS.toString (JS.Int k)))))
       1) = JS.Int k /\
  JS.isNaN (JS.parseInt10 (JS.at_ (JS.split "-" prefix) 1)) = true.
Proof.
  intros Hp Hk _. pose proof (split_toString k Hk) as Hs.
  split; [|split].
  - rewrite (split_single_app "-" prefix _ Hp).
    rewrite (split_single_app "-" _ rest Hs).
    now apply parseInt10_toString.
  - rewrite (split_single_app "-" prefix _ Hp), Hs.
    now apply parseInt10_toString.
  - rewrite Hp. reflexivity.
Qed.

Lemma bookingId_of_order_id_example :
  JS.split "-" "order" = ["order"] /\
  JS.parseInt10 (JS.at_ (JS.split "-" "order-12-1704078000") 1) = JS.Int 12.
Proof.
  split; [reflexivity|].
  apply (proj1 (bookingId_of_order_id "order" "1704078000" 12 eq_refl
                  ltac:(lia) ltac:(unfold safeInteger; lia))).
Defined.

(** ** Confirming the booking *)


(** The handler as one case analysis: the guard, then who is signed in, the
    request, the response and its token. *)
Ltac confirm_step :=
  match goal with
  | |- context [Checkout.user ?env] =>
      destruct (Checkout.user env) as [user|] eqn:Huser
  | |- context [paymentRequest ?e ?s ?d ?u] =>
      destruct (paymentRequest e s d u) as [request|?] eqn:Hrequest
  | |- context [Checkout.fetch ?e ?r] =>
      destruct (Checkout.fetch e r) as [response|?] eqn:Hfetch
  | |- context [Checkout.ok ?r] =>
      destruct (Checkout.ok r) eqn:Hok
  | |- context [Checkout.json ?r] =>
      destruct (Checkout.json r) as [[[[t|]]|]|?] eqn:Hjson
  | |- context [truthy ?t] =>
      destruct (truthy t) eqn:Htruthy
  end;
  cbn -[total paymentRequest truthy].

Ltac confirm_cases st :=
  unfold handleConfirmBooking;
  destruct (Checkout.bookingDetails st) as [details|] eqn:Hdetails;
  [destruct (Checkout.isLoading st) eqn:Hloading;
   [|unfold Eff.try_finally, Eff.try_catch, handleConfirmBooking_try,
       mbind, eff_bind, Checkout.setIsLoading, Checkout.setPaymentToken,
       Checkout.toast, Checkout.console_error, Checkout.post,
       Eff.modify, Eff.lift, Eff.throw;
     cbn -[total paymentRequest truthy];
     repeat confirm_step]|].



(** X15. What a click on the button comes to, with the booking details there
    and the page not loading.  Either the payment token is set, and then the
    user is signed in, the request could be built, the endpoint answered it
    with a response that is ok, and the token is the one of that response
    and is not empty; no toast is shown.  Or the token is left as it was and
    exactly one error toast is shown: the sign-in notice when nobody is
    signed in, the failure notice otherwise. *)
Theorem handleConfirmBooking_token (env : Checkout.Env) (st : Checkout.Page)
  (details : BookingDetails) :
  Checkout.bookingDetails st = Some details ->
  Checkout.isLoading st = false ->
  let st' := snd (handleConfirmBooking env st) in
  (exists user request response t,
      Checkout.user env = Some user /\
      paymentRequest env st details user = JS.Return request /\
      Checkout.fetch env request = JS.Return response /\
      Checkout.ok response = true /\
      Checkout.json response =
        JS.Return (Some {| Checkout.token := Some t |}) /\
      t <> "" /\
      Checkout.paymentToken st' = Some t /\
      Checkout.toasts st' = Checkout.toasts st /\
      Checkout.console st' = Checkout.console st) \/
  (Checkout.paymentToken st' = Checkout.paymentToken st /\
   Checkout.toasts st' =
     (Checkout.toasts st ++
      [match Checkout.user env with
       | Some _ => failedToInitiate
       | None => mustBeLoggedIn
       end])%list).
Proof.
  intros Hd Hl st'. subst st'. rename details into booked.
  confirm_cases st; try congruence.
  all: injection Hd as ->.
  all: try (right; split; reflexivity).
  left. exists user, request, response, t. repeat split; try assumption.
  intros ->. discriminate.
Qed.

Lemma handleConfirmBooking_token_example :
  Checkout.paymentToken (snd (handleConfirmBooking checkoutEnv checkoutPage)) =
    Some "snap-token" /\
  Checkout.toasts (snd (handleConfirmBooking signedOutEnv checkoutPage)) =
    [mustBeLoggedIn].
Proof.
  destruct (handleConfirmBooking_token signedOutEnv checkoutPage detailsA
              eq_refl eq_refl) as [(user & _ & _ & _ & Hu & _)|[_ Ht]].
  - discriminate.
  - split; [reflexivity | exact Ht].
Defined.

(** One step of the page keeps the token well formed and the button free. *)
Lemma checkoutStep_invariant (event : CheckoutEvent) (st : Checkout.Page) :
  Checkout.isLoading st = false ->
  Checkout.paymentToken st <> Some "" ->
  let st' := snd (checkoutStep event st) in
  fst (checkoutStep event st) = JS.Return tt /\
  Checkout.isLoading st' = false /\
  Checkout.paymentToken st' <> Some "" /\
  Checkout.selectedHours st' = Checkout.selectedHours st /\
  Checkout.bookingDetails st' = Checkout.bookingDetails st.
Proof.
  intros Hl Ht st'. subst st'.
  destruct event as [env| | |]; cbn [checkoutStep].
  2-4: now repeat split.
  confirm_cases st; try congruence; cbn [fst snd]; cbn.
  all: repeat split; try assumption; try congruence.
  intros [= ->]. discriminate.
Qed.

Lemma checkoutRun_cons (event : CheckoutEvent) (events : list CheckoutEvent)
  (st : Checkout.Page) :
  checkoutRun (event :: events) st =
  match checkoutStep event st with
  | (JS.Return _, st') => checkoutRun events st'
  | (JS.Throw e, st') => (JS.Throw e, st')
  end.
Proof. reflexivity. Qed.

(** X16. Through any sequence of clicks on the button and callbacks of the
    payment modal, starting with the page not loading and without an empty
    token: no handler throws, the page is never left loading, the selection
    and the booking details are never changed, and the payment token is never
    the empty string, so that the modal, which is rendered when the token is
    truthy, is there exactly while a token is held. *)
Theorem checkoutRun_invariant (events : list CheckoutEvent)
  (st : Checkout.Page) :
  Checkout.isLoading st = false ->
  Checkout.paymentToken st <> Some "" ->
  let st' := snd (checkoutRun events st) in
  fst (checkoutRun events st) = JS.Return tt /\
  Checkout.isLoading st' = false /\
  Checkout.paymentToken st' <> Some "" /\
  Checkout.selectedHours st' = Checkout.selectedHours st /\
  Checkout.bookingDetails st' = Checkout.bookingDetails st.
Proof.
  revert st. induction events as [|event events IH]; intros st Hl Ht.
  - now repeat split.
  - destruct (checkoutStep_invariant event st Hl Ht) as (Hr & Hl' & Ht' & Hs & Hd).
    rewrite checkoutRun_cons.
    destruct (checkoutStep event st) as [[[]|e] st1]; cbn [fst snd] in *;
      [|discriminate].
    destruct (IH st1 Hl' Ht') as (Hr2 & Hl2 & Ht2 & Hs2 & Hd2).
    repeat split; try assumption; congruence.
Qed.

Lemma checkoutRun_invariant_example :
  Checkout.isLoading checkoutPage = false /\
  Checkout.paymentToken
    (snd (checkoutRun [ConfirmBooking checkoutEnv; PaymentClose;
                       ConfirmBooking signedOutEnv] checkoutPage)) = None /\
  Checkout.isLoading
    (snd (checkoutRun [ConfirmBooking checkoutEnv; PaymentClose;
                       ConfirmBooking signedOutEnv] checkoutPage)) = false.
Proof.
  destruct (checkoutRun_invariant
              [ConfirmBooking checkoutEnv; PaymentClose;
               ConfirmBooking signedOutEnv] checkoutPage eq_refl
              ltac:(discriminate)) as (_ & Hl & _).
  split; [reflexivity|]. split; [reflexivity | exact Hl].
Defined.

(** ** More on the price breakdown *)

Lemma isZero_eqb (x : float) : isZero x -> (x =? 0)%float = true.
Proof. intros [s E]. rewrite FloatAxioms.eqb_spec, E. reflexivity. Qed.

Lemma finite_cases (x : float) :
  (neg_infinity <? x)%float = true -> (x <? infinity)%float = true ->
  isZero x \/ exists s m e, Prim2SF x = S754_finite s m e.
Proof.
  rewrite !FloatAxioms.ltb_spec. unfold isZero.
  change (Prim2SF neg_infinity) with (S754_infinity true).
  change (Prim2SF infinity) with (S754_infinity false).
  destruct (Prim2SF x) as [s|[|]| |s m e]; cbn; intros H1 H2;
    try discriminate; eauto.
Qed.

Lemma mul_zero_r (x z : float) :
  isZero x \/ (exists s m e, Prim2SF x = S754_finite s m e) ->
  isZero z -> isZero (x * z).
Proof.
  unfold isZero. rewrite FloatAxioms.mul_spec. unfold SF64mul.
  intros [[s ->]|(s & m & e & ->)] [s' ->]; cbn; eauto.
Qed.

Lemma mul_zero_l (x c : float) :
  isZero x -> (exists s m e, Prim2SF c = S754_finite s m e) -> isZero (x * c).
Proof.
  unfold isZero. rewrite FloatAxioms.mul_spec. unfold SF64mul.
  intros [s ->] (s' & m & e & ->); cbn; eauto.
Qed.

Lemma add_zero (x y : float) : isZero x -> isZero y -> isZero (x + y).
Proof.
  unfold isZero. rewrite FloatAxioms.add_spec. unfold SF64add.
  intros [s ->] [s' ->]. destruct s, s'; cbn; eauto.
Qed.

Lemma Math_round_zero (x : float) : isZero x -> isZero (Math_round x).
Proof. intros [s E]. unfold Math_round. rewrite E. now exists s. Qed.

Lemma rate_finite :
  (exists s m e, Prim2SF 0.30 = S754_finite s m e) /\
  (exists s m e, Prim2SF 0.11 = S754_finite s m e).
Proof. split; vm_compute; eauto. Qed.

(** A count of hours is a finite Number. *)
Lemma Number_of_length_finite (n : nat) :
  Z.of_nat n < 2 ^ 32 ->
  isZero (Number_of_length n) \/
  exists s m e, Prim2SF (Number_of_length n) = S754_finite s m e.
Proof.
  intros Hn.
  destruct (Number_of_length_mono n n ltac:(lia) Hn) as (v & _ & Hv & _ & _).
  unfold isZero.
  destruct (Prim2SF (Number_of_length n)) as [s|[|]| |[|] m e]; cbn in Hv;
    try discriminate; eauto.
Qed.

(** The whole breakdown of a subtotal that is zero. *)
Lemma breakdown_of_zero (price : float) (hourCount : nat) :
  isZero (subtotal price hourCount) ->
  isZero (platformFee price hourCount) /\
  isZero (tax price hourCount) /\
  isZero (total price hourCount).
Proof.
  intros Hs. destruct rate_finite as [R30 R11].
  assert (Hf : isZero (platformFee price hourCount))
    by (apply mul_zero_l; assumption).
  assert (Hw : isZero (subtotalWithPlatformFee price hourCount))
    by (apply add_zero; assumption).
  assert (Ht : isZero (tax price hourCount))
    by (apply mul_zero_l; assumption).
  repeat split; try assumption.
  apply Math_round_zero, add_zero; assumption.
Qed.

(** X17. Nothing selected, nothing to pay: for every price that is a finite
    number, with no hour selected the subtotal, the platform fee, the tax and
    the total are all zero; and so they are for a price of zero, whatever the
    number of hours.  For a price that is infinite the subtotal of no hours
    is NaN, and so is the total. *)
Theorem total_no_hours (price : float) :
  ((neg_infinity <? price)%float = true -> (price <? infinity)%float = true ->
   (subtotal price 0 =? 0)%float = true /\
   (platformFee price 0 =? 0)%float = true /\
   (tax price 0 =? 0)%float = true /\
   (total price 0 =? 0)%float = true) /\
  ((price =? 0)%float = true ->
   forall hourCount, Z.of_nat hourCount < 2 ^ 32 ->
   (total price hourCount =? 0)%float = true) /\
  ((price =? infinity)%float = true ->
   Prim2SF (total price 0) = S754_nan).
Proof.
  split; [|split].
  - intros Hlo Hhi.
    assert (Hs : isZero (subtotal price 0)).
    { unfold subtotal. apply mul_zero_r; [now apply finite_cases|].
      exists false. reflexivity. }
    destruct (breakdown_of_zero price 0 Hs) as (Hf & Ht & Htot).
    repeat split; now apply isZero_eqb.
  - intros H0 hourCount Hn. apply isZero_eqb.
    apply breakdown_of_zero. unfold subtotal.
    assert (Hp : isZero price).
    { rewrite FloatAxioms.eqb_spec in H0. unfold isZero.
      change (Prim2SF 0) with (S754_zero false) in H0.
      destruct (Prim2SF price) as [s|[|]| |s m e]; cbn in H0;
        try discriminate; eauto.
      all: try (destruct s; discriminate). }
    unfold isZero in *. rewrite FloatAxioms.mul_spec. unfold SF64mul.
    destruct Hp as [s ->].
    destruct (Number_of_length_finite hourCount Hn)
      as [[s' ->]|(s' & m & e & ->)]; cbn; eauto.
  - intros Hinf.
    assert (Hp : Prim2SF price = S754_infinity false).
    { rewrite FloatAxioms.eqb_spec in Hinf.
      change (Prim2SF infinity) with (S754_infinity false) in Hinf.
      destruct (Prim2SF price) as [s|[|]| |s m e]; cbn in Hinf;
        try discriminate; try reflexivity.
      all: try (destruct s; discriminate). }
    assert (Hs : Prim2SF (subtotal price 0) = S754_nan).
    { unfold subtotal. rewrite FloatAxioms.mul_spec, Hp. reflexivity. }
    assert (Hf : Prim2SF (platformFee price 0) = S754_nan).
    { unfold platformFee. rewrite FloatAxioms.mul_spec, Hs. reflexivity. }
    assert (Hw : Prim2SF (subtotalWithPlatformFee price 0) = S754_nan).
    { unfold subtotalWithPlatformFee.
      rewrite FloatAxioms.add_spec, Hs. reflexivity. }
    assert (Hsum : Prim2SF (subtotalWithPlatformFee price 0 + tax price 0) =
                   S754_nan).
    { rewrite FloatAxioms.add_spec, Hw. reflexivity. }
    unfold total, Math_round. rewrite Hsum. exact Hsum.
Qed.

Lemma total_no_hours_example :
  (neg_infinity <? 100000)%float = true /\
  (100000 <? infinity)%float = true /\
  (total 100000 0 =? 0)%float = true.
Proof.
  split; [reflexivity|]. split; [reflexivity|].
  apply (proj1 (total_no_hours 100000) eq_refl eq_refl).
Defined.

(** X18. No line of the breakdown is negative or NaN: for a price that is a
    finite number, zero or positive, and any number of hours, the subtotal,
    the platform fee, the tax and the total are all at least zero. *)
Theorem price_lines_nonneg (price : float) (hourCount : nat) :
  (0 <=? price)%float = true -> (price <? infinity)%float = true ->
  Z.of_nat hourCount < 2 ^ 32 ->
  (0 <=? subtotal price hourCount)%float = true /\
  (0 <=? platformFee price hourCount)%float = true /\
  (0 <=? subtotalWithPlatformFee price hourCount)%float = true /\
  (0 <=? tax price hourCount)%float = true /\
  (0 <=? total price hourCount)%float = true.
Proof.
  intros Hp Hfin Hn.
  destruct (subtotal_mono price hourCount hourCount Hp Hfin ltac:(lia) Hn)
    as (S1 & _ & S11).
  assert (C30 : exists m e, Prim2SF 0.30 = S754_finite false m e)
    by (vm_compute; eauto).
  assert (C11 : exists m e, Prim2SF 0.11 = S754_finite false m e)
    by (vm_compute; eauto).
  unfold total, tax, subtotalWithPlatformFee, platformFee.
  set (s := subtotal price hourCount) in *.
  destruct (mul_const_mono s s 0.30 S1 S1 C30 S11) as (F1 & _ & F11).
  destruct (add_mono s s _ _ S1 S1 F1 F1 S11 F11) as (W1 & _ & W11).
  destruct (mul_const_mono _ _ 0.11 W1 W1 C11 W11) as (T1 & _ & T11).
  destruct (add_mono _ _ _ _ W1 W1 T1 T1 W11 T11) as (A1 & _ & _).
  repeat split; try assumption.
  apply (round_mono 0 _ eq_refl A1 A1).
Qed.

Lemma price_lines_nonneg_scenario_C :
  (0 <=? 100000)%float = true /\ (100000 <? infinity)%float = true /\
  Z.of_nat 2 < 2 ^ 32 /\
  (0 <=? total 100000 2)%float = true.
Proof.
  split; [reflexivity|]. split; [reflexivity|]. split; [reflexivity|].
  apply (price_lines_nonneg 100000 2); reflexivity.
Defined.

(** *** The total is a whole number *)

(** An integer below 2^53 is a float, exactly. *)
Lemma RN_exact (q : Z) :
  0 < q < 2 ^ 53 ->
  exists m e,
    RN 1074 (q * 2 ^ 1074) = S754_finite false m e /\
    e <= 0 /\ Z.pos m = q * 2 ^ (- e).
Proof.
  intros Hq. set (B := 1074).
  assert (PB : 0 < 2 ^ B) by (apply pow2_pos; lia).
  pose proof (log2_bounds q ltac:(lia)) as Hl.
  pose proof (Z.log2_nonneg q) as Hl0.
  assert (Hl52 : Z.log2 q <= 52).
  { destruct (Z.le_gt_cases (Z.log2 q) 52) as [H|H]; [exact H|].
    assert (2 ^ 53 <= 2 ^ Z.log2 q) by (apply Z.pow_le_mono_r; lia). lia. }
  set (k := 52 - Z.log2 q).
  unfold RN. destruct (Z.leb_spec (q * 2 ^ B) 0) as [H|_]; [nia|].
  rewrite Z.log2_mul_pow2 by lia. rewrite fexp_64.
  replace (Z.max (B + Z.log2 q + 1 - B - 53) (-1074)) with (- k)
    by (unfold k; lia).
  assert (Pk : 0 < 2 ^ k) by (apply pow2_pos; unfold k; lia).
  assert (PBk : 0 < 2 ^ (- k + B)) by (apply pow2_pos; unfold k, B; lia).
  assert (EB : 2 ^ B = 2 ^ k * 2 ^ (- k + B)).
  { rewrite <- Z.pow_add_r by (unfold k, B; lia). f_equal. lia. }
  replace (q * 2 ^ B) with (q * 2 ^ k * 2 ^ (- k + B)) by (rewrite EB; ring).
  rewrite rne_div_exact by assumption.
  assert (HM : 0 < q * 2 ^ k < 2 ^ 53).
  { split; [nia|].
    replace 53 with (Z.log2 q + 1 + k) by (unfold k; lia).
    rewrite (Z.pow_add_r 2 (Z.log2 q + 1) k) by (unfold k; lia).
    apply Z.mul_lt_mono_pos_r; [assumption | apply Hl]. }
  unfold pack. destruct (Z.eqb_spec (q * 2 ^ k) (2 ^ 53)) as [E|_]; [lia|].
  destruct (q * 2 ^ k) as [|p|p] eqn:EM; [lia| |lia].
  destruct (Z.leb_spec (- k) 971) as [_|H]; [|unfold k in H; lia].
  exists p, (- k). split; [reflexivity|]. split; [unfold k; lia|].
  now rewrite Z.opp_involutive.
Qed.

Lemma of_uint63_exact (q : Z) :
  0 < q < 2 ^ 53 ->
  exists m e,
    Prim2SF (of_uint63 (Uint63.of_Z q)) = S754_finite false m e /\
    e <= 0 /\ Z.pos m = q * 2 ^ (- e).
Proof.
  intros Hq.
  assert (H63 : 2 ^ 53 < 2 ^ 63) by reflexivity.
  destruct (of_uint63_rounds 1074 ltac:(lia) q ltac:(lia)) as [[H0 _]|[_ E]].
  - assert (0 < 2 ^ 1074) by (apply pow2_pos; lia). nia.
  - rewrite E. now apply RN_exact.
Qed.

(** Rounding to the nearest integer what is an integer already. *)
Lemma nearest_of_integer (a k : Z) :
  0 < k -> (2 * (a * k) + k) / (2 * k) = a.
Proof.
  intros Hk. replace (2 * (a * k) + k) with ((2 * a + 1) * k) by ring.
  rewrite Z.div_mul_cancel_r by lia.
  symmetry. apply (Z.div_unique _ _ _ 1); lia.
Qed.

Lemma Math_round_Number_of_Z (q : Z) :
  - 2 ^ 53 < q < 2 ^ 53 -> q <> 0 ->
  Math_round (Number_of_Z q) = Number_of_Z q.
Proof.
  intros Hq Hq0.
  destruct (Z.ltb_spec q 0) as [Hneg|Hpos].
  - assert (EN : Number_of_Z q = (- of_uint63 (Uint63.of_Z (- q)))%float).
    { unfold Number_of_Z. destruct (Z.ltb_spec q 0); [reflexivity | lia]. }
    destruct (of_uint63_exact (- q) ltac:(lia)) as (m & e & E & He & Hm).
    unfold Math_round. rewrite EN, FloatAxioms.opp_spec, E. cbn [SFopp negb].
    destruct (Z.leb_spec 0 e) as [_|He']; [reflexivity|].
    cbn [cond_Zopp]. rewrite Hm.
    assert (Pk : 0 < 2 ^ (- e)) by (apply pow2_pos; lia).
    replace (2 ^ (1 - e)) with (2 * 2 ^ (- e))
      by (replace (1 - e) with (Z.succ (- e)) by lia;
          now rewrite Z.pow_succ_r by lia).
    replace (- (- q * 2 ^ (- e))) with (q * 2 ^ (- e)) by ring.
    rewrite nearest_of_integer by assumption.
    destruct (Z.eqb_spec q 0); [contradiction | exact EN].
  - assert (EN : Number_of_Z q = of_uint63 (Uint63.of_Z q)).
    { unfold Number_of_Z. destruct (Z.ltb_spec q 0); [lia | reflexivity]. }
    destruct (of_uint63_exact q ltac:(lia)) as (m & e & E & He & Hm).
    unfold Math_round. rewrite EN, E.
    destruct (Z.leb_spec 0 e) as [_|He']; [reflexivity|].
    cbn [cond_Zopp]. rewrite Hm.
    assert (Pk : 0 < 2 ^ (- e)) by (apply pow2_pos; lia).
    replace (2 ^ (1 - e)) with (2 * 2 ^ (- e))
      by (replace (1 - e) with (Z.succ (- e)) by lia;
          now rewrite Z.pow_succ_r by lia).
    rewrite nearest_of_integer by assumption.
    destruct (Z.eqb_spec q 0); [contradiction | exact EN].
Qed.

(** [Math.round] leaves what it has rounded as it is. *)
Lemma Math_round_idempotent (x : float) :
  Math_round (Math_round x) = Math_round x.
Proof.
  pose proof (Prim2SF_valid x) as Hx.
  unfold Math_round at 2 3.
  destruct (Prim2SF x) as [s| | |s m e] eqn:E.
  1-3: unfold Math_round; now rewrite E.
  destruct (Z.leb_spec 0 e) as [He|He].
  { unfold Math_round. rewrite E.
    destruct (Z.leb_spec 0 e); [reflexivity | lia]. }
  set (q := (2 * cond_Zopp s (Z.pos m) + 2 ^ (- e)) / 2 ^ (1 - e)).
  destruct (Z.eqb_spec q 0) as [_|Hq0]; [now destruct s|].
  apply Math_round_Number_of_Z; [|assumption].
  cbn in Hx. destruct (bounded_exponent m e Hx) as (_ & Hd & _).
  rewrite digits2_log2 in Hd.
  pose proof (log2_bounds (Z.pos m) ltac:(lia)) as Hl.
  assert (Hm : Z.pos m < 2 ^ 53).
  { eapply Z.lt_le_trans; [apply Hl|]. apply Z.pow_le_mono_r; lia. }
  assert (Pk : 2 <= 2 ^ (- e)).
  { change 2 with (2 ^ 1) at 1. apply Z.pow_le_mono_r; lia. }
  assert (E2 : 2 ^ (1 - e) = 2 * 2 ^ (- e)).
  { replace (1 - e) with (Z.succ (- e)) by lia.
    now rewrite Z.pow_succ_r by lia. }
  unfold q. rewrite E2.
  change (2 ^ 53) with 9007199254740992 in *.
  destruct s; cbn [cond_Zopp]; split.
  - apply Z.lt_le_trans with (- 9007199254740991); [lia|].
    apply Z.div_le_lower_bound; [lia|]. nia.
  - apply Z.div_lt_upper_bound; [lia|]. nia.
  - apply Z.lt_le_trans with 0; [lia|]. apply Z.div_pos; lia.
  - apply Z.div_lt_upper_bound; [lia|]. nia.
Qed.

(** X19. The total is a whole number: rounding it again changes nothing,
    whatever the price and the number of hours.  [Math.round] leaves every
    Number it has produced as it is. *)
Theorem total_whole (price : float) (hourCount : nat) :
  Math_round (total price hourCount) = total price hourCount /\
  forall x : float, Math_round (Math_round x) = Math_round x.
Proof.
  split; [apply Math_round_idempotent | exact Math_round_idempotent].
Qed.

(** ** The settings page: the gallery *)

Lemma Array_slice0_nonneg {A : Type} (end_ : Z) (a : list A) :
  0 <= end_ -> Array_slice0 end_ a = take (Z.to_nat end_) a.
Proof.
  intros He. unfold Array_slice0.
  destruct (Z.ltb_spec end_ 0) as [|_]; [lia|].
  destruct (Z.le_gt_cases end_ (Z.of_nat (length a))) as [H|H].
  - now rewrite Z.min_l by assumption.
  - rewrite Z.min_r, Nat2Z.id by lia. rewrite !take_ge; [reflexivity|lia|lia].
Qed.

Lemma Array_slice0_negative {A : Type} (end_ : Z) (a : list A) :
  end_ < 0 -> Array_slice0 end_ a = take (length a - Z.to_nat (- end_)) a.
Proof.
  intros He. unfold Array_slice0.
  destruct (Z.ltb_spec end_ 0) as [_|]; [|lia]. f_equal. lia.
Qed.

(** X20. What a change of the gallery input adds.  With [g] photos stored,
    the pending photos grow by the first [5 - g] of the chosen files, in
    their order, when [g] is at most 5; the stored photos are not touched,
    and without a file list nothing happens.  With more than 5 photos stored
    the end of the slice is negative and counts from the end: the handler
    then still adds files, all but the last [g - 5]. *)
Theorem handleGalleryPhotoChange_adds (files : list Settings.File)
  (st : Settings.State) :
  let g := length (Settings.galleryPhotos st) in
  let st' := handleGalleryPhotoChange (Some files) st in
  Settings.newGalleryPhotos st' =
    (Settings.newGalleryPhotos st ++
     (if (g <=? 5)%nat then take (5 - g) files
      else take (length files - (g - 5)) files))%list /\
  Settings.galleryPhotos st' = Settings.galleryPhotos st /\
  handleGalleryPhotoChange None st = st.
Proof.
  intros g st'. subst st'. unfold handleGalleryPhotoChange. cbn. fold g.
  split; [|split; reflexivity]. f_equal.
  destruct (Nat.leb_spec g 5) as [H|H].
  - rewrite Array_slice0_nonneg by lia. f_equal. lia.
  - rewrite Array_slice0_negative by lia. f_equal. lia.
Qed.

(** X21. The limit of five photos looks at the stored photos only.  While the
    input is enabled (fewer than five photos, stored and pending together) a
    change adds up to [5 - g] files whatever is pending already: the total
    afterwards is at most the pending photos plus five; it stays within five
    when nothing was pending; and it exceeds five as soon as a photo was
    pending and at least [5 - g] files are chosen, after which the input is
    disabled. *)
Theorem gallery_limit_counts_stored_only (files : list Settings.File)
  (st : Settings.State) :
  galleryInputDisabled st = false ->
  let g := length (Settings.galleryPhotos st) in
  let n := length (Settings.newGalleryPhotos st) in
  let st' := handleGalleryPhotoChange (Some files) st in
  let total' :=
    (length (Settings.galleryPhotos st') +
     length (Settings.newGalleryPhotos st'))%nat in
  (total' <= n + 5)%nat /\
  (n = 0%nat -> (total' <= 5)%nat) /\
  ((1 <= n)%nat -> (5 - g <= length files)%nat ->
   total' = (n + 5)%nat /\ galleryInputDisabled st' = true).
Proof.
  intros Hen g n st' total'.
  destruct (handleGalleryPhotoChange_adds files st) as (Hnew & Hold & _).
  fold st' g in Hnew, Hold.
  unfold galleryInputDisabled in *. fold g n in Hen.
  apply Z.leb_gt in Hen.
  assert (Hg : (g <= 5)%nat) by lia.
  destruct (Nat.leb_spec g 5) as [_|]; [|lia].
  assert (Htotal : total' = (g + (n + Nat.min (5 - g) (length files)))%nat).
  { unfold total'. rewrite Hnew, Hold, length_app, length_take. reflexivity. }
  split; [lia|]. split; [lia|]. intros Hn Hfiles.
  split; [lia|]. fold total'. apply Z.leb_le. lia.
Qed.

Lemma gallery_limit_counts_stored_only_example :
  galleryInputDisabled fourPending = false /\
  length
    (Settings.newGalleryPhotos
       (handleGalleryPhotoChange (Some fiveFiles) fourPending)) = 9%nat /\
  galleryInputDisabled (handleGalleryPhotoChange (Some fiveFiles) fourPending) =
    true.
Proof.
  destruct (gallery_limit_counts_stored_only fiveFiles fourPending eq_refl)
    as (_ & _ & H).
  destruct H as [Htotal Hdisabled]; [vm_compute; lia | vm_compute; lia |].
  split; [reflexivity|]. split; [exact Htotal | exact Hdisabled].
Defined.

Lemma filter_from_all {A : Type} (p : nat -> bool) (a : list A) :
  forall i, (forall j, (i <= j)%nat -> p j = true) -> filter_from p i a = a.
Proof.
  induction a as [|x a IH]; intros i H; [reflexivity|].
  cbn. rewrite (H i) by lia. f_equal. apply IH. intros j Hj. apply H. lia.
Qed.

Lemma filter_from_ext {A : Type} (p p' : nat -> bool) (a : list A) :
  forall i, (forall j, (i <= j)%nat -> p j = p' j) ->
            filter_from p i a = filter_from p' i a.
Proof.
  induction a as [|x a IH]; intros i H; [reflexivity|].
  cbn. rewrite (H i) by lia. rewrite (IH (S i)); [reflexivity|].
  intros j Hj. apply H. lia.
Qed.

(** Filtering an index out is deleting at that index. *)
Lemma filter_from_delete {A : Type} (a : list A) :
  forall index k,
    filter_from (fun i => negb (i =? k + index)%nat) k a = delete index a.
Proof.
  induction a as [|x a IH]; intros index k; [reflexivity|].
  cbn [filter_from]. destruct index as [|index].
  - rewrite Nat.add_0_r, Nat.eqb_refl. cbn [negb].
    change (delete 0%nat (x :: a)) with a.
    apply filter_from_all. intros j Hj.
    apply negb_true_iff, Nat.eqb_neq. lia.
  - destruct (Nat.eqb_spec k (k + S index)) as [H|_]; [lia|]. cbn [negb].
    change (delete (S index) (x :: a)) with (x :: delete index a). f_equal.
    rewrite <- (IH index (S k)). apply filter_from_ext.
    intros j _. f_equal. f_equal. lia.
Qed.

Lemma delete_out_of_range {A : Type} (l : list A) :
  forall i, (length l <= i)%nat -> delete i l = l.
Proof.
  induction l as [|x l IH]; intros i Hi; [reflexivity|].
  destruct i as [|i]; [cbn in Hi; lia|].
  change (delete (S i) (x :: l)) with (x :: delete i l).
  f_equal. apply IH. cbn in Hi. lia.
Qed.

Lemma delete_spec {A : Type} (index : nat) (l : list A) :
  (forall j, (j < index)%nat -> delete index l !! j = l !! j) /\
  (forall j, (index <= j)%nat -> delete index l !! j = l !! S j) /\
  ((index < length l)%nat -> length (delete index l) = (length l - 1)%nat) /\
  ((length l <= index)%nat -> delete index l = l).
Proof.
  split; [|split; [|split]].
  - intros j Hj. now apply list_lookup_delete_lt.
  - intros j Hj. now apply list_lookup_delete_ge.
  - intros Hi. apply length_delete. now apply lookup_lt_is_Some.
  - apply delete_out_of_range.
Qed.

(** X22. Removing a photo removes the one at the index and nothing else.  In
    the list that results the photos before the index are where they were and
    those after it have moved up by one place; the list is one shorter when
    the index was in range and unchanged when it was not.  This holds for the
    stored photos and for the pending ones, and removing from one list leaves
    the other as it is. *)
Theorem removeGalleryPhoto_deletes (index : nat) (st : Settings.State) :
  (let photos := Settings.galleryPhotos st in
   let photos' := Settings.galleryPhotos (removeGalleryPhoto index st) in
   (forall j, (j < index)%nat -> photos' !! j = photos !! j) /\
   (forall j, (index <= j)%nat -> photos' !! j = photos !! S j) /\
   ((index < length photos)%nat ->
    length photos' = (length photos - 1)%nat) /\
   ((length photos <= index)%nat -> photos' = photos) /\
   Settings.newGalleryPhotos (removeGalleryPhoto index st) =
     Settings.newGalleryPhotos st) /\
  (let photos := Settings.newGalleryPhotos st in
   let photos' := Settings.newGalleryPhotos (removeNewGalleryPhoto index st) in
   (forall j, (j < index)%nat -> photos' !! j = photos !! j) /\
   (forall j, (index <= j)%nat -> photos' !! j = photos !! S j) /\
   ((index < length photos)%nat ->
    length photos' = (length photos - 1)%nat) /\
   ((length photos <= index)%nat -> photos' = photos) /\
   Settings.galleryPhotos (removeNewGalleryPhoto index st) =
     Settings.galleryPhotos st).
Proof.
  split; cbn.
  - rewrite (filter_from_delete _ index 0).
    destruct (delete_spec index (Settings.galleryPhotos st)) as (H1 & H2 & H3 & H4).
    repeat split; assumption.
  - rewrite (filter_from_delete _ index 0).
    destruct (delete_spec index (Settings.newGalleryPhotos st))
      as (H1 & H2 & H3 & H4).
    repeat split; assumption.
Qed.

Lemma removeGalleryPhoto_deletes_example :
  Settings.galleryPhotos (removeGalleryPhoto 1 threeStored) =
    ["p0.jpg"; "p2.jpg"] /\
  Settings.galleryPhotos (removeGalleryPhoto 1 threeStored) !! 1%nat =
    Settings.galleryPhotos threeStored !! 2%nat.
Proof.
  destruct (removeGalleryPhoto_deletes 1 threeStored) as [(_ & H & _) _].
  split; [reflexivity|]. apply H. lia.
Defined.

(** ** The settings page: loading and saving *)

Ltac fetch_cases be :=
  unfold fetchUserData;
  destruct (Settings.user be) as [uid|];
  [destruct (answered (Settings.users be)) as [userData|];
   [destruct (isStreamer (Settings.user_type userData));
    [destruct (answered (Settings.streamers be)) as [streamerData|];
     [destruct (answered (Settings.gallery be)) as [galleryData|]|]|]|]|].

(** What [fetchUserData] leaves alone. *)
Lemma fetchUserData_frame (be : Settings.Backend) (st : Settings.State) :
  let st' := fetchUserData be st in
  Settings.selectedImage st' = Settings.selectedImage st /\
  Settings.previewUrl st' = Settings.previewUrl st /\
  Settings.imageError st' = Settings.imageError st /\
  Settings.newGalleryPhotos st' = Settings.newGalleryPhotos st /\
  Settings.isLoading st' = Settings.isLoading st /\
  Settings.toasts st' = Settings.toasts st /\
  Settings.routes st' = Settings.routes st /\
  Settings.console st' = Settings.console st /\
  Settings.submitted st' = Settings.submitted st.
Proof. cbn zeta. fetch_cases be; cbn; repeat split. Qed.

(** X23. [fetchUserData] settles: on every path the page stops loading; the
    pending uploads (the selected image, its preview, the pending photos) and
    the image error are never touched; running it again on the same answers
    changes nothing more; when nobody is signed in or the user query fails
    nothing but [loading] changes; and for a user who is not a streamer the
    image is the profile picture, while the video URL and the gallery stay as
    they were. *)
Theorem fetchUserData_settles (be : Settings.Backend) (st : Settings.State) :
  let st' := fetchUserData be st in
  Settings.loading st' = false /\
  fetchUserData be st' = st' /\
  (Settings.selectedImage st' = Settings.selectedImage st /\
   Settings.previewUrl st' = Settings.previewUrl st /\
   Settings.newGalleryPhotos st' = Settings.newGalleryPhotos st /\
   Settings.imageError st' = Settings.imageError st) /\
  (Settings.user be = None \/ answered (Settings.users be) = None ->
   st' = Settings.setLoading false st) /\
  (forall userData,
      Settings.user be <> None ->
      answered (Settings.users be) = Some userData ->
      isStreamer (Settings.user_type userData) = false ->
      Settings.imageUrl st' =
        default "" (Settings.profile_picture_url userData) /\
      Settings.youtubeUrl st' = Settings.youtubeUrl st /\
      Settings.galleryPhotos st' = Settings.galleryPhotos st).
Proof.
  intros st'.
  destruct (fetchUserData_frame be st) as (F1 & F2 & F3 & F4 & _).
  fold st' in F1, F2, F3, F4.
  split; [|split; [|split; [repeat split; assumption|split]]].
  - subst st'. fetch_cases be; reflexivity.
  - subst st'. fetch_cases be; reflexivity.
  - subst st'. unfold fetchUserData. intros [->| H]; [reflexivity|].
    destruct (Settings.user be); [|reflexivity]. now rewrite H.
  - subst st'. unfold fetchUserData. intros userData Hu Ha Hs.
    destruct (Settings.user be); [|congruence].
    rewrite Ha, Hs. repeat split.
Qed.

Lemma fetchUserData_settles_client :
  Settings.user clientBackend <> None /\
  Settings.imageUrl (fetchUserData clientBackend Settings.initial) =
    "/avatars/ayu.png" /\
  Settings.loading (fetchUserData clientBackend Settings.initial) = false.
Proof.
  destruct (fetchUserData_settles clientBackend Settings.initial)
    as (Hl & _ & _ & _ & Hclient).
  destruct (Hclient _ ltac:(discriminate) eq_refl eq_refl) as (Himg & _).
  split; [discriminate|]. split; [exact Himg | exact Hl].
Defined.

Ltac submit_step :=
  match goal with
  | |- context [Settings.act ?be ?a ?d] =>
      destruct (Settings.act be a d) as [result|?] eqn:Hact
  | |- context [Settings.r_error ?r] =>
      destruct (Settings.r_error r) as [message|] eqn:Herror
  | |- context [Settings.r_redirect ?r] =>
      destruct (Settings.r_redirect r) as [path|] eqn:Hredirect
  | |- context [truthy ?p] =>
      destruct (truthy p) eqn:Htruthy
  end;
  cbn -[fetchUserData formData].

Ltac submit_cases :=
  unfold handleSubmit, Eff.try_finally, Eff.try_catch, handleSubmit_try,
    callAction, mbind, eff_bind, Eff.modify;
  cbn -[fetchUserData formData];
  repeat submit_step.

(** X24. What saving the profile comes to.  [handleSubmit] returns without
    throwing, with [isLoading] false again; it calls exactly one server
    action, the streamer's for a streamer and the user's otherwise, with the
    form data built from the state; and it shows exactly one toast.  Either
    the action resolved without an [error] key: then the toast is the success
    toast with the action's message or the default one, the selected image,
    its preview and the pending photos are cleared, and the page routes to a
    redirect that is not empty and to nothing otherwise.  Or the action
    resolved with an error or failed: then the toast is an error toast, and
    the selected image, its preview, the pending photos and the routes are as
    they were, so that the same data can be sent again. *)
Theorem handleSubmit_outcomes (be : Settings.Backend)
  (form : Settings.FormData) (st : Settings.State) :
  let st' := snd (handleSubmit be form st) in
  let action :=
    if isStreamer (Settings.userType st) then Settings.updateStreamerProfile
    else Settings.updateUserProfile in
  fst (handleSubmit be form st) = JS.Return tt /\
  Settings.isLoading st' = false /\
  Settings.submitted st' =
    (Settings.submitted st ++ [(action, formData form st)])%list /\
  ((exists result,
       Settings.act be action (formData form st) = JS.Return result /\
       Settings.r_error result = None /\
       Settings.toasts st' =
         (Settings.toasts st ++
          [Payment.toast_success
             (default profileUpdated (Settings.r_message result))])%list /\
       Settings.selectedImage st' = None /\
       Settings.previewUrl st' = None /\
       Settings.newGalleryPhotos st' = [] /\
       Settings.routes st' =
         (Settings.routes st ++
          match Settings.r_redirect result with
          | Some path => if truthy path then [path] else []
          | None => []
          end)%list) \/
   (exists text,
       Settings.toasts st' =
         (Settings.toasts st ++ [Payment.toast_error text])%list /\
       Settings.selectedImage st' = Settings.selectedImage st /\
       Settings.previewUrl st' = Settings.previewUrl st /\
       Settings.newGalleryPhotos st' = Settings.newGalleryPhotos st /\
       Settings.routes st' = Settings.routes st)).
Proof.
  intros st' action. subst st' action. submit_cases.
  - split; [reflexivity|]. split; [reflexivity|]. split; [reflexivity|].
    right. exists message. repeat split.
  - split; [reflexivity|]. split; [reflexivity|]. split; [reflexivity|].
    left. exists result. rewrite Hredirect, Htruthy. repeat split; assumption.
  - destruct (fetchUserData_frame be
                (Settings.setNewGalleryPhotos []
                   (Settings.setSelectedImage None
                      (Settings.setPreviewUrl None
                         (Settings.toast
                            (Payment.toast_success
                               (default profileUpdated
                                  (Settings.r_message result)))
                            (Settings.submit
                               (if isStreamer (Settings.userType st)
                                then Settings.updateStreamerProfile
                                else Settings.updateUserProfile,
                                formData form st)
                               (Settings.setIsLoading true st)))))))
      as (F1 & F2 & _ & F4 & _ & F6 & F7 & _ & F9).
    cbn -[fetchUserData formData] in F1, F2, F4, F6, F7, F9.
    split; [reflexivity|]. split; [reflexivity|]. split; [exact F9|].
    left. exists result. rewrite Hredirect, Htruthy, app_nil_r.
    repeat split; assumption.
  - destruct (fetchUserData_frame be
                (Settings.setNewGalleryPhotos []
                   (Settings.setSelectedImage None
                      (Settings.setPreviewUrl None
                         (Settings.toast
                            (Payment.toast_success
                               (default profileUpdated
                                  (Settings.r_message result)))
                            (Settings.submit
                               (if isStreamer (Settings.userType st)
                                then Settings.updateStreamerProfile
                                else Settings.updateUserProfile,
                                formData form st)
                               (Settings.setIsLoading true st)))))))
      as (F1 & F2 & _ & F4 & _ & F6 & F7 & _ & F9).
    cbn -[fetchUserData formData] in F1, F2, F4, F6, F7, F9.
    split; [reflexivity|]. split; [reflexivity|]. split; [exact F9|].
    left. exists result. rewrite Hredirect, app_nil_r.
    repeat split; assumption.
  - split; [reflexivity|]. split; [reflexivity|]. split; [reflexivity|].
    right. eexists. repeat split.
Qed.

(** ** The settings page: the profile image *)

Lemma handleSubmit_image (be : Settings.Backend) (form : Settings.FormData)
  (st : Settings.State) :
  fst (handleSubmit be form st) = JS.Return tt /\
  (Settings.selectedImage (snd (handleSubmit be form st)) = None \/
   Settings.selectedImage (snd (handleSubmit be form st)) =
     Settings.selectedImage st).
Proof.
  submit_cases; (split; [reflexivity|]); try (now right); try (now left).
  all: left.
  all: match goal with
       | |- Settings.selectedImage (fetchUserData ?b ?s) = _ =>
           now rewrite (proj1 (fetchUserData_frame b s))
       end.
Qed.

Lemma settingsRun_cons (event : SettingsEvent) (events : list SettingsEvent)
  (st : Settings.State) :
  settingsRun (event :: events) st =
  match settingsStep event st with
  | (JS.Return _, st') => settingsRun events st'
  | (JS.Throw e, st') => (JS.Throw e, st')
  end.
Proof. reflexivity. Qed.

(** One event keeps the selected image within the limit, and throws
    nothing. *)
Lemma settingsStep_image (event : SettingsEvent) (st : Settings.State) :
  (forall image, Settings.selectedImage st = Some image ->
                 Settings.size image <= 1048576) ->
  fst (settingsStep event st) = JS.Return tt /\
  (forall image,
      Settings.selectedImage (snd (settingsStep event st)) = Some image ->
      Settings.size image <= 1048576).
Proof.
  intros Hfit. destruct event as [be|be files|files|index|index|be form|].
  - cbn -[fetchUserData]. split; [reflexivity|].
    now rewrite (proj1 (fetchUserData_frame be st)).
  - cbn -[handleImageChange]. split; [reflexivity|]. unfold handleImageChange.
    destruct (files ≫= head) as [file|]; [|exact Hfit].
    destruct (Z.ltb_spec Settings.MAX_FILE_SIZE (Settings.size file)) as [H|H].
    + exact Hfit.
    + cbn. intros image [= <-]. exact H.
  - cbn. destruct (galleryInputDisabled st); cbn; [now split|].
    split; [reflexivity|]. now destruct files.
  - now split.
  - now split.
  - cbn [settingsStep].
    destruct (handleSubmit_image be form st) as [Hr [Hi|Hi]].
    + split; [exact Hr|]. rewrite Hi. discriminate.
    + split; [exact Hr|]. now rewrite Hi.
  - cbn. split; [reflexivity|]. unfold handleBackNavigation.
    now destruct (isStreamer (Settings.userType st)).
Qed.

(** X25. The profile image is at most 1 MiB (1048576 bytes).  Of the files
    of a change event only the first counts: when it is within the limit it
    becomes the selected image, with its preview, and the error is cleared;
    when it is larger the error is set and the image selected before, with
    its preview, stays selected.  Without a file nothing changes.  Through
    any sequence of events on the page, started with no image selected or
    one within the limit, no handler throws and the selected image stays
    within the limit, and so does the image that [handleSubmit] adds to the
    form data. *)
Theorem selectedImage_within_limit :
  (forall (be : Settings.Backend) (file : Settings.File)
          (rest : list Settings.File) (st : Settings.State),
      let st' := handleImageChange be (Some (file :: rest)) st in
      (Settings.size file <= 1048576 ->
       Settings.selectedImage st' = Some file /\
       Settings.previewUrl st' = Some (Settings.createObjectURL be file) /\
       Settings.imageError st' = "") /\
      (1048576 < Settings.size file ->
       Settings.selectedImage st' = Settings.selectedImage st /\
       Settings.previewUrl st' = Settings.previewUrl st /\
       Settings.imageError st' = imageTooLarge)) /\
  (forall (be : Settings.Backend) (st : Settings.State),
      handleImageChange be None st = st /\
      handleImageChange be (Some []) st = st) /\
  (forall (events : list SettingsEvent) (st : Settings.State),
      (forall image, Settings.selectedImage st = Some image ->
                     Settings.size image <= 1048576) ->
      let st' := snd (settingsRun events st) in
      fst (settingsRun events st) = JS.Return tt /\
      (forall image, Settings.selectedImage st' = Some image ->
                     Settings.size image <= 1048576) /\
      (forall form image,
          In ("image", Settings.file image) (formData form st') ->
          In ("image", Settings.file image) form \/
          Settings.size image <= 1048576)).
Proof.
  split; [|split].
  - intros be file rest st st'. subst st'. unfold handleImageChange.
    cbn [mbind option_bind head].
    change Settings.MAX_FILE_SIZE with 1048576.
    destruct (Z.ltb_spec 1048576 (Settings.size file)); split; intros H';
      try lia; repeat split.
  - intros be st. split; reflexivity.
  - intros events. induction events as [|event events IH]; intros st Hfit st'.
    + subst st'. cbn. split; [reflexivity|]. split; [exact Hfit|].
      intros form image Hin. unfold formData in Hin.
      assert (Hw : In ("image", Settings.file image)
                     match Settings.selectedImage st with
                     | Some image0 => (form ++ [("image", Settings.file image0)])%list
                     | None => form
                     end ->
                   In ("image", Settings.file image) form \/
                   Settings.size image <= 1048576).
      { destruct (Settings.selectedImage st) as [image0|] eqn:E; [|now left].
        intros H. apply in_app_or in H as [H|[H|[]]]; [now left|].
        injection H as <-. right. now apply Hfit. }
      destruct (isStreamer (Settings.userType st)); [|now apply Hw].
      apply in_app_or in Hin as [Hin|[Hin|Hin]]; [now apply Hw | discriminate |].
      apply in_map_iff in Hin as (photo & Hp & _). discriminate.
    + subst st'. rewrite settingsRun_cons.
      destruct (settingsStep_image event st Hfit) as [Hr Hfit'].
      destruct (settingsStep event st) as [[[]|e] st1]; cbn [fst snd] in *;
        [|discriminate].
      exact (IH st1 Hfit').
Qed.

Lemma selectedImage_within_limit_example :
  Settings.size imageAtLimit <= 1048576 /\
  Settings.selectedImage
    (snd (settingsRun
            [ImageChange clientBackend (Some [imageAtLimit]);
             ImageChange clientBackend (Some [imageOverLimit])]
            Settings.initial)) = Some imageAtLimit /\
  Settings.imageError
    (snd (settingsRun
            [ImageChange clientBackend (Some [imageAtLimit]);
             ImageChange clientBackend (Some [imageOverLimit])]
            Settings.initial)) = imageTooLarge.
Proof.
  destruct selectedImage_within_limit as (Hverdict & _ & _).
  destruct (Hverdict clientBackend imageAtLimit [] Settings.initial)
    as [Haccept _].
  destruct (Haccept ltac:(cbn; lia)) as (Hsel & _).
  split; [cbn; lia|]. split; reflexivity.
Defined.

(** ** The status texts *)

Lemma lowerCase_idempotent (c : ascii) : lowerCase (lowerCase c) = lowerCase c.
Proof.
  destruct c as [[] [] [] [] [] [] [] []]; vm_compute; reflexivity.
Qed.

Lemma toLowerCase_idempotent (s : string) :
  toLowerCase (toLowerCase s) = toLowerCase s.
Proof.
  induction s as [|c s IH]; [reflexivity|].
  cbn. now rewrite lowerCase_idempotent, IH.
Qed.

(** X26. The status text does not depend on the case of the status: a status
    and its lower-case form get the same text.  The text is not empty exactly
    for the statuses that read pending, accepted, completed, rejected or live
    once in lower case; every other status gets the empty text. *)
Theorem getStatusInfo_ignores_case (status : string) :
  getStatusInfo (toLowerCase status) = getStatusInfo status /\
  (getStatusInfo status <> "" <->
   In (toLowerCase status)
     ["pending"; "accepted"; "completed"; "rejected"; "live"]).
Proof.
  split.
  - unfold getStatusInfo. now rewrite toLowerCase_idempotent.
  - unfold getStatusInfo. cbv zeta.
    repeat match goal with
           | |- context [String.eqb ?a ?b] =>
               destruct (String.eqb_spec a b) as [?E|?N]
           end.
    all: split; intros H.
    all: try discriminate.
    all: try (exfalso; apply H; reflexivity).
    all: try match goal with
             | E : toLowerCase _ = _ |- In _ _ => rewrite E; cbn; tauto
             end.
    cbn in H. intuition congruence.
Qed.

Lemma getStatusInfo_ignores_case_example :
  getStatusInfo "PENDING" = getStatusInfo "pending" /\
  getStatusInfo "Live" <> "" /\
  getStatusInfo "cancelled" = "".
Proof.
  destruct (getStatusInfo_ignores_case "PENDING") as [Hcase _].
  destruct (getStatusInfo_ignores_case "Live") as [_ [_ Hlive]].
  split; [symmetry; exact Hcase|]. split; [|reflexivity].
  apply Hlive. cbn. tauto.
Defined.

(** ** Sessions on the settings page *)

Lemma fetchUserData_loading (be : Settings.Backend) (st : Settings.State) :
  Settings.loading (fetchUserData be st) = false.
Proof. fetch_cases be; reflexivity. Qed.

(** What one save does to the flags, the calls and the toasts. *)
Lemma handleSubmit_effects (be : Settings.Backend) (form : Settings.FormData)
  (st : Settings.State) :
  let st' := snd (handleSubmit be form st) in
  fst (handleSubmit be form st) = JS.Return tt /\
  Settings.isLoading st' = false /\
  (Settings.loading st = false -> Settings.loading st' = false) /\
  (exists call, Settings.submitted st' = (Settings.submitted st ++ [call])%list) /\
  (exists t, Settings.toasts st' = (Settings.toasts st ++ [t])%list).
Proof.
  intros st'. subst st'. submit_cases.
  all: split; [reflexivity|]; split; [reflexivity|].
  all: try (split; [intros H; exact H|]; split; eexists; reflexivity).
  all: split; [intros _; apply fetchUserData_loading|].
  all: match goal with
       | |- context [fetchUserData ?b ?s] =>
           destruct (fetchUserData_frame b s)
             as (_ & _ & _ & _ & _ & F6 & _ & _ & F9);
           cbn -[fetchUserData formData] in F6, F9; rewrite F6, F9
       end.
  all: split; eexists; reflexivity.
Qed.

Ltac no_effect Hl :=
  split; [reflexivity|]; split; [exact Hl|]; split; [intros H; exact H|];
  split; exists []; now rewrite app_nil_r.

Lemma settingsStep_effects (event : SettingsEvent) (st : Settings.State) :
  Settings.isLoading st = false ->
  let st' := snd (settingsStep event st) in
  let k := length (List.filter isSubmit [event]) in
  fst (settingsStep event st) = JS.Return tt /\
  Settings.isLoading st' = false /\
  (Settings.loading st = false -> Settings.loading st' = false) /\
  (exists calls,
      Settings.submitted st' = (Settings.submitted st ++ calls)%list /\
      length calls = k) /\
  (exists shown,
      Settings.toasts st' = (Settings.toasts st ++ shown)%list /\
      length shown = k).
Proof.
  intros Hl st' k. subst st' k.
  destruct event as [be|be files|files|index|index|be form|].
  6:{ cbn [settingsStep List.filter isSubmit length].
      destruct (handleSubmit_effects be form st)
        as (Hr & Hi & Hlo & [call Hc] & [t Ht]).
      split; [exact Hr|]. split; [exact Hi|]. split; [exact Hlo|].
      split; [exists [call] | exists [t]]; now split. }
  all: cbn [settingsStep List.filter isSubmit length]; unfold Eff.modify.
  all: cbn [fst snd].
  - destruct (fetchUserData_frame be st)
      as (_ & _ & _ & _ & F5 & F6 & _ & _ & F9).
    cbn zeta in F5, F6, F9. rewrite F5, F6, F9.
    split; [reflexivity|]. split; [exact Hl|].
    split; [intros _; apply fetchUserData_loading|].
    split; exists []; now rewrite app_nil_r.
  - unfold handleImageChange. destruct (files ≫= head) as [file|].
    + destruct (_ <? _); cbn; no_effect Hl.
    + no_effect Hl.
  - destruct (galleryInputDisabled st); [|destruct files]; cbn; no_effect Hl.
  - cbn. no_effect Hl.
  - cbn. no_effect Hl.
  - unfold handleBackNavigation.
    destruct (isStreamer (Settings.userType st)); cbn; no_effect Hl.
Qed.

(** X27. Through any session on the settings page, started with nothing being
    saved: no handler throws; [isLoading] is false again after every event,
    so the save button is never left disabled; once the page has loaded it
    never goes back to loading; and the server is called, and a toast is
    shown, exactly once for every submit of the form and by nothing else. *)
Theorem settingsRun_invariant (events : list SettingsEvent)
  (st : Settings.State) :
  Settings.isLoading st = false ->
  let st' := snd (settingsRun events st) in
  let k := length (List.filter isSubmit events) in
  fst (settingsRun events st) = JS.Return tt /\
  Settings.isLoading st' = false /\
  (Settings.loading st = false -> Settings.loading st' = false) /\
  (exists calls,
      Settings.submitted st' = (Settings.submitted st ++ calls)%list /\
      length calls = k) /\
  (exists shown,
      Settings.toasts st' = (Settings.toasts st ++ shown)%list /\
      length shown = k).
Proof.
  revert st. induction events as [|event events IH]; intros st Hl st' k.
  - subst st' k. cbn. split; [reflexivity|]. split; [exact Hl|].
    split; [intros H; exact H|]. split; exists []; now rewrite app_nil_r.
  - subst st' k. rewrite settingsRun_cons.
    destruct (settingsStep_effects event st Hl)
      as (Hr & Hl1 & Hlo1 & (calls1 & Hc1 & Hn1) & (shown1 & Ht1 & Hm1)).
    destruct (settingsStep event st) as [[[]|e] st1]; cbn [fst snd] in *;
      [|discriminate].
    destruct (IH st1 Hl1)
      as (Hr2 & Hl2 & Hlo2 & (calls2 & Hc2 & Hn2) & (shown2 & Ht2 & Hm2)).
    split; [exact Hr2|]. split; [exact Hl2|]. split; [tauto|].
    assert (Hk : length (List.filter isSubmit (event :: events)) =
                 (length (List.filter isSubmit [event]) +
                  length (List.filter isSubmit events))%nat).
    { cbn. destruct (isSubmit event); reflexivity. }
    split.
    + exists (calls1 ++ calls2)%list. rewrite Hc2, Hc1, <- app_assoc.
      split; [reflexivity|]. rewrite length_app, Hk. lia.
    + exists (shown1 ++ shown2)%list. rewrite Ht2, Ht1, <- app_assoc.
      split; [reflexivity|]. rewrite length_app, Hk. lia.
Qed.

Lemma settingsRun_invariant_example :
  Settings.isLoading Settings.initial = false /\
  length
    (Settings.submitted
       (snd (settingsRun
               [Mount clientBackend;
                ImageChange clientBackend (Some [imageAtLimit]);
                Submit refusingBackend []; Submit clientBackend []]
               Settings.initial))) = 2%nat /\
  Settings.loading
    (snd (settingsRun
            [Mount clientBackend;
             ImageChange clientBackend (Some [imageAtLimit]);
             Submit refusingBackend []; Submit clientBackend []]
            Settings.initial)) = false.
Proof.
  destruct (settingsRun_invariant
              [Mount clientBackend;
               ImageChange clientBackend (Some [imageAtLimit]);
               Submit refusingBackend []; Submit clientBackend []]
              Settings.initial eq_refl)
    as (_ & _ & _ & (calls & Hc & Hn) & _).
  split; [reflexivity|]. split; [|reflexivity].
  rewrite Hc, length_app, Hn. reflexivity.
Defined.

(** ** Reading an hour from a time *)

Lemma trimStart_app_colon (p r : string) :
  JS.trimStart (String.append p (String ":" r)) =
  String.append (JS.trimStart p) (String ":" r).
Proof.
  induction p as [|c p IH].
  - now rewrite !append_empty.
  - rewrite append_String. cbn [JS.trimStart].
    destruct (JS.is_white_space c); [exact IH | now rewrite append_String].
Qed.

Lemma parse_digits_app_colon (radix : Z) (p r : string) :
  forall acc,
    JS.parse_digits radix acc (String.append p (String ":" r)) =
    JS.parse_digits radix acc p.
Proof.
  induction p as [|c p IH]; intros acc.
  - now rewrite append_empty.
  - rewrite append_String. cbn [JS.parse_digits].
    destruct (JS.digit_value radix c); [apply IH | reflexivity].
Qed.

Lemma sign_app_colon (q r : string) :
  match String.append q (String ":" r) with
  | String "-" rr => (true, rr)
  | String "+" rr => (false, rr)
  | _ => (false, String.append q (String ":" r))
  end =
  let '(negative, s2) :=
    match q with
    | String "-" rr => (true, rr)
    | String "+" rr => (false, rr)
    | _ => (false, q)
    end in
  (negative, String.append s2 (String ":" r)).
Proof.
  destruct q as [|c q].
  - now rewrite append_empty.
  - rewrite append_String.
    destruct c as [[] [] [] [] [] [] [] []]; try reflexivity;
      now rewrite append_String.
Qed.

Lemma radix_app_colon (strip : bool) (q r : string) :
  match strip, String.append q (String ":" r) with
  | true, String "0" (String "x" rr) => (16, rr)
  | true, String "0" (String "X" rr) => (16, rr)
  | _, _ => (10, String.append q (String ":" r))
  end =
  let '(radix, s3) :=
    match strip, q with
    | true, String "0" (String "x" rr) => (16, rr)
    | true, String "0" (String "X" rr) => (16, rr)
    | _, _ => (10, q)
    end in
  (radix, String.append s3 (String ":" r)).
Proof.
  destruct strip; [|reflexivity].
  destruct q as [|a q]; [now rewrite append_empty|].
  rewrite append_String.
  destruct a as [[] [] [] [] [] [] [] []];
    try (rewrite <- append_String; reflexivity).
  destruct q as [|b q]; [now rewrite append_empty|].
  rewrite append_String.
  destruct b as [[] [] [] [] [] [] [] []];
    try (rewrite <- !append_String; reflexivity); reflexivity.
Qed.

(** [parseInt] does not read past a colon. *)
Lemma parseInt_app_colon (strip : bool) (p r : string) :
  JS.parseInt_with strip (String.append p (String ":" r)) =
  JS.parseInt_with strip p.
Proof.
  unfold JS.parseInt_with. rewrite trimStart_app_colon.
  generalize (JS.trimStart p). intros q.
  rewrite sign_app_colon.
  destruct (match q with
            | String "-" rr => (true, rr)
            | String "+" rr => (false, rr)
            | _ => (false, q)
            end) as [negative s2].
  rewrite radix_app_colon.
  destruct (match strip, s2 with
            | true, String "0" (String "x" rr) => (16, rr)
            | true, String "0" (String "X" rr) => (16, rr)
            | _, _ => (10, s2)
            end) as [radix s3].
  now rewrite parse_digits_app_colon.
Qed.

Lemma split_nonempty (sep : ascii) (s : string) : JS.split sep s <> [].
Proof.
  destruct s as [|c s]; [discriminate|]. cbn.
  destruct (Ascii.eqb c sep); [discriminate|].
  destruct (JS.split sep s); discriminate.
Qed.

(** The first segment of a string is the string itself, or what stands before
    its first separator. *)
Lemma split_first (sep : ascii) (t : string) :
  JS.at_ (JS.split sep t) 0 = t \/
  exists rest, t = String.append (JS.at_ (JS.split sep t) 0) (String sep rest).
Proof.
  induction t as [|c t IH]; [now left|].
  cbn [JS.split]. destruct (Ascii.eqb_spec c sep) as [->|Hc].
  - right. exists t. cbn. now rewrite append_empty.
  - destruct (JS.split sep t) as [|x xs] eqn:E.
    + now apply split_nonempty in E.
    + cbn in *. destruct IH as [->|[rest ->]]; [now left|].
      right. exists rest. now rewrite append_String.
Qed.

Lemma hourOf_parseInt (t : string) : hourOf t = JS.parseInt t.
Proof.
  unfold hourOf. destruct (split_first ":" t) as [->|[rest E]]; [reflexivity|].
  rewrite E at 2. unfold JS.parseInt. now rewrite parseInt_app_colon.
Qed.

Lemma hourOf_minutes (h : Z) (minutes : string) :
  hourOf
    (String.append (JS.padStart 2 "0" (JS.toString (JS.Int h)))
       (String ":" minutes)) = JS.Int h.
Proof.
  rewrite hourOf_parseInt. unfold JS.parseInt.
  rewrite parseInt_app_colon.
  rewrite <- (parseInt_app_colon true _ "00").
  apply parseInt_hourLabel.
Qed.

(** X28. Reading the hour of a time.  Splitting at the colon before
    [parseInt] changes nothing: on every string, the hour the resolver reads
    from a slot bound or a booking window is the one the toggler reads from a
    label.  What follows the colon is ignored: a time whose hour [h] is a
    safe integer reads as [h] whatever its minutes, and a slot from [s:mm] to
    [e:mm] covers exactly the whole hours from [s] up to, not including,
    [e]. *)
Theorem hourOf_ignores_minutes :
  (forall t : string, hourOf t = JS.parseInt t) /\
  (forall (h : Z) (minutes : string),
      safeInteger h ->
      hourOf
        (String.append (JS.padStart 2 "0" (JS.toString (JS.Int h)))
           (String ":" minutes)) = JS.Int h) /\
  (forall (x s e : Z) (m m' : string),
      safeInteger x -> safeInteger s -> safeInteger e ->
      slotCovers (JS.Int x)
        {| start :=
             String.append (JS.padStart 2 "0" (JS.toString (JS.Int s)))
               (String ":" m);
           end_ :=
             String.append (JS.padStart 2 "0" (JS.toString (JS.Int e)))
               (String ":" m') |} =
      (s <=? x) && (x <? e)).
Proof.
  split; [exact hourOf_parseInt|].
  split; [intros h minutes _; apply hourOf_minutes|].
  intros x s e m m' _ _ _. unfold slotCovers. cbn [start end_].
  now rewrite !hourOf_minutes.
Qed.

Lemma hourOf_ignores_minutes_example :
  safeInteger 9 /\ hourOf "09:30" = JS.Int 9 /\
  slotCovers (JS.Int 16) {| start := "09:30"; end_ := "17:45" |} = true.
Proof.
  assert (H9 : safeInteger 9) by (unfold safeInteger; lia).
  assert (H16 : safeInteger 16) by (unfold safeInteger; lia).
  assert (H17 : safeInteger 17) by (unfold safeInteger; lia).
  destruct hourOf_ignores_minutes as (_ & Hhour & Hslot).
  split; [exact H9|]. split.
  - apply (Hhour 9 "30" H9).
  - apply (Hslot 16 9 17 "30" "45" H16 H9 H17).
Defined.

(** ** The window of the URL *)

(** X29. The edges of the booking window.  When the URL lacks the start or
    the end time, or gives it empty, the load effect leaves the selection as
    it was.  When both are there but one does not read as a number, or the
    end hour is not after the start hour, the selection becomes empty and
    [generateTimeOptions] offers nothing.  In every case
    [generateTimeOptions] does what the load effect does on the same window,
    and then keeps the hours that the resolver accepts: it throws when the
    load effect throws, and otherwise returns the accepted hours of the
    selection on load. *)
Theorem selectedHoursOnLoad_edges :
  (forall (startTimeParam endTimeParam : option string)
          (selectedHours : list string),
      default "" startTimeParam = "" \/ default "" endTimeParam = "" ->
      selectedHoursOnLoad startTimeParam endTimeParam selectedHours =
      JS.Return selectedHours) /\
  (forall (startTime endTime : string) (selectedHours : list string),
      startTime <> "" -> endTime <> "" ->
      JS.isNaN (hourOf startTime) = true \/ JS.isNaN (hourOf endTime) = true \/
      JS.ltb (hourOf startTime) (hourOf endTime) = false ->
      selectedHoursOnLoad (Some startTime) (Some endTime) selectedHours =
      JS.Return []) /\
  (forall (st : PageState) (details : BookingDetails),
      bookingDetails st = Some details ->
      (JS.isNaN (hourOf (startTime details)) = true \/
       JS.isNaN (hourOf (endTime details)) = true \/
       JS.ltb (hourOf (startTime details)) (hourOf (endTime details)) = false ->
       generateTimeOptions st = JS.Return []) /\
      (startTime details <> "" -> endTime details <> "" ->
       generateTimeOptions st =
       selected ← selectedHoursOnLoad (Some (startTime details))
                    (Some (endTime details)) [];
       mret (List.filter
               (fun hour => isSlotAvailable st (date details) (JS.parseInt hour))
               selected))).
Proof.
  assert (Hempty : forall a b (f : Z -> string),
             JS.isNaN a = true \/ JS.isNaN b = true \/ JS.ltb a b = false ->
             JS.Array_from (JS.sub b a) f = JS.Return []).
  { intros [|s] [|e] f H; try reflexivity.
    destruct H as [H|[H|H]]; try discriminate.
    cbn in *. apply Z.ltb_ge in H.
    destruct (Z.ltb_spec JS.maxArrayLength (e - s)) as [Hbig|_];
      [unfold JS.maxArrayLength in Hbig; lia|].
    unfold seqZ. replace (Z.to_nat (e - s)) with O by lia. reflexivity. }
  split; [|split].
  - intros sp ep sel H. unfold selectedHoursOnLoad, truthy.
    destruct H as [-> | ->]; cbn; [reflexivity|].
    now rewrite andb_false_r.
  - intros startTime endTime sel Hs He H.
    unfold selectedHoursOnLoad, truthy.
    change (default "" (Some startTime)) with startTime.
    change (default "" (Some endTime)) with endTime.
    apply String.eqb_neq in Hs, He. rewrite Hs, He. cbn [negb andb].
    now apply Hempty.
  - intros st details Hd. split.
    + intros H. unfold generateTimeOptions. rewrite Hd.
      now rewrite Hempty.
    + intros Hs He. unfold generateTimeOptions, selectedHoursOnLoad, truthy.
      rewrite Hd.
      change (default "" (Some (startTime details))) with (startTime details).
      change (default "" (Some (endTime details))) with (endTime details).
      apply String.eqb_neq in Hs, He. now rewrite Hs, He.
Qed.

Lemma selectedHoursOnLoad_edges_example :
  "13:00" <> "" /\ "10:00" <> "" /\
  JS.ltb (hourOf "13:00") (hourOf "10:00") = false /\
  selectedHoursOnLoad (Some "13:00") (Some "10:00") ["09:00"] = JS.Return [] /\
  selectedHoursOnLoad None (Some "10:00") ["09:00"] = JS.Return ["09:00"].
Proof.
  destruct selectedHoursOnLoad_edges as (Hmissing & Hinverted & _).
  split; [discriminate|]. split; [discriminate|]. split; [reflexivity|].
  split.
  - apply Hinverted; [discriminate | discriminate |]. right. right. reflexivity.
  - apply Hmissing. left. reflexivity.
Defined.

(** ** What a session of toggles can select *)

(** One toggle keeps the selection within the available hours, a single
    selected hour apart. *)
Lemma toggle_keeps_available (st : PageState) (details : BookingDetails)
  (h : Z) (r : list Z) :
  let available := fun x => isSlotAvailable st (date details) (JS.Int x) in
  bookingDetails st = Some details ->
  twoDigit h -> Forall twoDigit r ->
  (forall x, In x r -> available x = true) \/ (length r <= 1)%nat ->
  exists r',
    handleHourSelection st (hourLabel (JS.Int h)) (hourLabels r) =
      JS.Return (hourLabels r') /\
    Forall twoDigit r' /\
    ((forall x, In x r' -> available x = true) \/ (length r' <= 1)%nat).
Proof.
  intros available Hd Hh Hr Hinv.
  destruct (in_dec Z.eq_dec h r) as [Hin|Hnew].
  - exists (List.filter (fun x => negb (x =? h)) r). split; [|split].
    + rewrite handleHourSelection_remove by now apply includes_hourLabels.
      now rewrite filter_out_labels.
    + now apply filter_twoDigit.
    + destruct Hinv as [Hall|Hshort].
      * left. intros x Hx. apply filter_In in Hx as [Hx _]. now apply Hall.
      * right.
        pose proof (List.filter_length_le (fun x => negb (x =? h)) r). lia.
  - destruct r as [|x r].
    + exists [h]. split; [reflexivity|].
      split; [constructor; [assumption | constructor]|]. right. cbn. lia.
    + exists (spanSelection available h (x :: r)). split; [|split].
      * now apply handleHourSelection_add.
      * now apply spanSelection_twoDigit.
      * left. intros y Hy. unfold spanSelection in Hy.
        now apply filter_In in Hy as [_ Hy].
Qed.

(** X30. What a session of toggles can select.  With the booking details
    loaded, start from the empty selection and toggle any two-digit hours one
    after the other: whenever the selection that results holds two or more
    hours, every one of them is available.  An unavailable hour can be
    selected only alone, as the first hour added to the empty selection; the
    selection that the load effect builds is outside this statement. *)
Theorem toggleAll_available (st : PageState) (details : BookingDetails)
  (hours : list Z) :
  bookingDetails st = Some details ->
  Forall twoDigit hours ->
  exists r,
    toggleAll st (hourLabels hours) [] = JS.Return (hourLabels r) /\
    ((2 <= length r)%nat ->
     forall x, In x r -> isSlotAvailable st (date details) (JS.Int x) = true).
Proof.
  intros Hd Hhours.
  set (available := fun x => isSlotAvailable st (date details) (JS.Int x)).
  assert (Hgen : forall r0,
             Forall twoDigit r0 ->
             (forall x, In x r0 -> available x = true) \/ (length r0 <= 1)%nat ->
             exists r,
               toggleAll st (hourLabels hours) (hourLabels r0) =
                 JS.Return (hourLabels r) /\
               ((forall x, In x r -> available x = true) \/
                (length r <= 1)%nat)).
  { induction Hhours as [|h hours Hh Hhours IH]; intros r0 Hr0 Hinv.
    - exists r0. now split.
    - destruct (toggle_keeps_available st details h r0 Hd Hh Hr0 Hinv)
        as (r1 & E & Hr1 & Hinv1).
      destruct (IH r1 Hr1 Hinv1) as (r & E' & Hinv').
      exists r. split; [|exact Hinv'].
      rewrite hourLabels_cons. cbn [toggleAll]. rewrite E. exact E'. }
  destruct (Hgen [] ltac:(constructor) ltac:(right; cbn; lia))
    as (r & E & [Hall|Hshort]).
  - exists r. split; [exact E|]. intros _. exact Hall.
  - exists r. split; [exact E|]. intros Hlong. lia.
Qed.

Lemma toggleAll_available_scenario_D :
  bookingDetails scenarioD = Some detailsA /\
  Forall twoDigit [11; 10; 12] /\
  isSlotAvailable scenarioD monday (JS.Int 11) = false /\
  toggleAll scenarioD ["11:00"] [] = JS.Return ["11:00"] /\
  toggleAll scenarioD ["11:00"; "10:00"; "12:00"] [] =
    JS.Return ["10:00"; "12:00"].
Proof.
  assert (H : Forall twoDigit [11; 10; 12])
    by (repeat constructor; unfold twoDigit; lia).
  destruct (toggleAll_available scenarioD detailsA [11; 10; 12] eq_refl H)
    as (r & E & _).
  split; [reflexivity|]. split; [exact H|]. split; [reflexivity|].
  split; [reflexivity|]. vm_compute. reflexivity.
Defined.
